(** * The migration engine of [backend/pkg/migrate/migrate.go]

    A shallow embedding of the Go package [migrate]: the loader of the
    migration set, the version store, the transactional applier and the
    orchestrator ([Up], [Down], [Steps]), with the properties stated for
    them.

    Conventions of the embedding:
    - Go's [int] is a 64-bit two's complement integer, modelled in [Z] with
      the wrap-around written out where an operation can leave the range,
      which is at the negation [-steps] of [Steps] only: versions come from
      an [INTEGER] column and from file names of which six bytes are read,
      and the loop counters are bounded by the length of a slice;
    - a Go [string] is a sequence of bytes, modelled by [string];
    - an [error] keeps the format string and the arguments of the
      [fmt.Errorf] call that built it, so that what an error names can be
      read off its value;
    - the database, the cancellation state of the context and a log of the
      calls made to the driver form the state threaded through every
      operation. *)

From Stdlib Require Import ZArith List String Ascii Bool Lia.
Import ListNotations.
Open Scope string_scope.
Open Scope list_scope.
Open Scope Z_scope.

(** ** Go's [int] *)

Module GoInt.

Definition min_int : Z := - 2 ^ 63.
Definition max_int : Z := 2 ^ 63 - 1.

(** Reduction of a mathematical integer to the 64-bit signed range. *)
Definition wrap (z : Z) : Z := (z + 2 ^ 63) mod 2 ^ 64 - 2 ^ 63.

Definition neg (a : Z) : Z := wrap (- a).

End GoInt.

(** ** The parts of the Go standard library the package calls *)

Module Strings.

Definition byte_of (c : ascii) : Z := Z.of_N (N_of_ascii c).

(** [len(s)]: the number of bytes. *)
Definition len (s : string) : Z := Z.of_nat (String.length s).

(** [s[:n]] for [0 <= n <= len(s)]. *)
Definition slice_to (n : nat) (s : string) : string := substring 0 n s.

Fixpoint HasPrefix (s prefix : string) : bool :=
  match prefix, s with
  | EmptyString, _ => true
  | String p prefix', String c s' => Ascii.eqb p c && HasPrefix s' prefix'
  | String _ _, EmptyString => false
  end.

Definition rev_string (s : string) : string :=
  string_of_list_ascii (rev (list_ascii_of_string s)).

(** [strings.HasSuffix]. *)
Definition HasSuffix (s suffix : string) : bool :=
  HasPrefix (rev_string s) (rev_string suffix).

(** The table [asciiSpace] of package [strings]. *)
Definition asciiSpace (b : Z) : bool :=
  (b =? 9) || (b =? 10) || (b =? 11) || (b =? 12) || (b =? 13) || (b =? 32).

(** The number of bytes of the white-space rune (in the sense of
    [unicode.IsSpace]) that starts the byte sequence, or [0] when it starts
    with none.  The runes are U+0009..U+000D, U+0020, U+0085, U+00A0,
    U+1680, U+2000..U+200A, U+2028, U+2029, U+202F, U+205F and U+3000, in
    their UTF-8 encodings. *)
Definition leading_space (bs : list Z) : nat :=
  match bs with
  | b :: rest =>
      if asciiSpace b then 1%nat
      else match b, rest with
           | 194, 133 :: _ => 2%nat
           | 194, 160 :: _ => 2%nat
           | 225, 154 :: 128 :: _ => 3%nat
           | 226, 128 :: c :: _ =>
               if ((128 <=? c) && (c <=? 138)) || (c =? 168) || (c =? 169)
                  || (c =? 175)
               then 3%nat else 0%nat
           | 226, 129 :: 159 :: _ => 3%nat
           | 227, 128 :: 128 :: _ => 3%nat
           | _, _ => 0%nat
           end
  | [] => 0%nat
  end.

(** The same for the rune that ends the sequence, given in reverse. *)
Definition trailing_space (rbs : list Z) : nat :=
  match rbs with
  | b :: rest =>
      if asciiSpace b then 1%nat
      else match b, rest with
           | 133, 194 :: _ => 2%nat
           | 160, 194 :: _ => 2%nat
           | 128, 154 :: 225 :: _ => 3%nat
           | c, 128 :: 226 :: _ =>
               if ((128 <=? c) && (c <=? 138)) || (c =? 168) || (c =? 169)
                  || (c =? 175)
               then 3%nat else 0%nat
           | 159, 129 :: 226 :: _ => 3%nat
           | 128, 128 :: 227 :: _ => 3%nat
           | _, _ => 0%nat
           end
  | [] => 0%nat
  end.

(** Removes white-space runes from the front for as long as there is one;
    [fuel] bounds the number of runes removed. *)
Fixpoint trim_with (width : list Z -> nat) (fuel : nat) (l : list ascii)
  : list ascii :=
  match fuel with
  | O => l
  | S fuel' =>
      match width (map byte_of l) with
      | O => l
      | w => trim_with width fuel' (skipn w l)
      end
  end.

Definition trim_left (l : list ascii) : list ascii :=
  trim_with leading_space (List.length l) l.

Definition trim_right (l : list ascii) : list ascii :=
  rev (trim_with trailing_space (List.length l) (rev l)).

(** [strings.TrimSpace]: all leading and trailing white space removed. *)
Definition TrimSpace (s : string) : string :=
  string_of_list_ascii (trim_right (trim_left (list_ascii_of_string s))).

(** [strings.Split(s, sep)] for the one-byte separator [sep]: the pieces
    between the occurrences of [sep], one more than there are
    occurrences. *)
Fixpoint Split (s : string) (sep : ascii) : list string :=
  match s with
  | EmptyString => [EmptyString]
  | String c s' =>
      if Ascii.eqb c sep then EmptyString :: Split s' sep
      else match Split s' sep with
           | piece :: pieces => String c piece :: pieces
           | [] => [String c EmptyString]
           end
  end.

End Strings.

Module Strconv.

Import Strings.

Definition is_sign (c : ascii) : bool :=
  (byte_of c =? 43) || (byte_of c =? 45).

(** The digits of a decimal numeral, most significant first; [None] on a
    byte that is not a digit. *)
Fixpoint digits (s : string) (acc : Z) : option Z :=
  match s with
  | EmptyString => Some acc
  | String c s' =>
      let d := byte_of c - 48 in
      if (0 <=? d) && (d <=? 9) then digits s' (acc * 10 + d) else None
  end.

(** [strconv.Atoi]: an optional sign, then at least one decimal digit and
    nothing else; [None] stands for the syntax and range errors. *)
Definition Atoi (s : string) : option Z :=
  match s with
  | EmptyString => None
  | String c s' =>
      let body := if is_sign c then s' else s in
      match body with
      | EmptyString => None
      | _ =>
          match digits body 0 with
          | Some n =>
              let v := if byte_of c =? 45 then - n else n in
              if (GoInt.min_int <=? v) && (v <=? GoInt.max_int)
              then Some v else None
          | None => None
          end
      end
  end.

End Strconv.

(** ** Errors and results *)

(** An argument of a format string: [%d] takes an [Int], [%s] a [Str]. *)
Inductive arg : Type :=
| Int (z : Z)
| Str (x : string).

(** Go [error] values.  [fmt_Errorf format args wrapped] is the value of
    [fmt.Errorf(format, ...)]: [args] are the arguments of the verbs other
    than [%w], in order, and [wrapped] is the argument of [%w].  Format
    strings are kept as the source spells them. *)
#[warnings="-register-all"]
Inductive error : Type :=
| context_Canceled
| external (msg : string)
| errors_New (text : string)
| fmt_Errorf (format : string) (args : list arg) (wrapped : option error).

(** [errors.Is(err, context.Canceled)]: the chain of [%w] links is followed
    down to the context's own error. *)
Fixpoint is_cancellation (e : error) : bool :=
  match e with
  | context_Canceled => true
  | fmt_Errorf _ _ (Some e') => is_cancellation e'
  | _ => false
  end.

(** What a call ends in: a value, a returned error, or a run-time panic. *)
Inductive result (A : Type) : Type :=
| Ok (a : A)
| Err (e : error)
| Panic (msg : string).

Arguments Ok {A} a.
Arguments Err {A} e.
Arguments Panic {A} msg.

(** ** The migration set and its loader *)

Record Migration : Type := mkMigration {
  Version : Z;
  UpSQL : string;
  DownSQL : string
}.

(** [Migration{}], the zero value. *)
Definition Migration_zero : Migration := mkMigration 0 "" "".

(** [==] on [Migration] values. *)
Definition Migration_eqb (a b : Migration) : bool :=
  (Version a =? Version b) && String.eqb (UpSQL a) (UpSQL b)
  && String.eqb (DownSQL a) (DownSQL b).

Record Migrator : Type := mkMigrator {
  migrations : list Migration
}.

(** One entry of the migrations directory: what [os.ReadDir] reports of it
    and what [os.ReadFile] returns for it ([inr] for a read error). *)
Record DirEntry : Type := mkDirEntry {
  Name : string;
  IsDir : bool;
  ReadFile : string + string
}.

(** What [os.ReadDir(constants.MIGRATIONS_DIR)] returns. *)
Inductive directory : Type :=
| Unreadable (msg : string)
| Listing (entries : list DirEntry).

(** Slice indexing: [None] is the run-time panic of an index out of
    range. *)
Definition index {A : Type} (l : list A) (i : Z) : option A :=
  if (0 <=? i) && (i <? Z.of_nat (List.length l)) then nth_error l (Z.to_nat i)
  else None.

Fixpoint update_nth {A : Type} (l : list A) (n : nat) (f : A -> A) : list A :=
  match l, n with
  | [], _ => []
  | x :: l', O => f x :: l'
  | x :: l', S n' => x :: update_nth l' n' f
  end.

(** [l[i] = f(l[i])] for an index in range. *)
Definition update {A : Type} (l : list A) (i : Z) (f : A -> A) : list A :=
  update_nth l (Z.to_nat i) f.

Definition set_Version (v : Z) (_ : Migration) : Migration :=
  mkMigration v "" "".
Definition set_UpSQL (data : string) (m : Migration) : Migration :=
  mkMigration (Version m) data (DownSQL m).
Definition set_DownSQL (data : string) (m : Migration) : Migration :=
  mkMigration (Version m) (UpSQL m) data.

(** [filepath.Join] of a clean directory path and a plain file name. *)
Definition filepath_Join (dir name : string) : string :=
  (dir ++ "/" ++ name)%string.

Section Loader.

(** [constants.MIGRATIONS_DIR]; package [constants] is not part of the
    sources at hand, so the path is a parameter. *)
Variable MIGRATIONS_DIR : string.

(** The direction a file name stands for: the [switch] on the suffix. *)
Definition direction_of_name (baseName : string) : option bool :=
  if Strings.HasSuffix baseName ".up.sql" then Some true
  else if Strings.HasSuffix baseName ".down.sql" then Some false
  else None.

(** The loop of [loadMigrations] over the directory entries, on the
    slice [migrations] and the running [maxVersion]. *)
Fixpoint load_entries (entries : list DirEntry) (migrations : list Migration)
  (maxVersion : Z) : result (list Migration * Z) :=
  match entries with
  | [] => Ok (migrations, maxVersion)
  | entry :: rest =>
      if IsDir entry then load_entries rest migrations maxVersion
      else
        let baseName := Name entry in
        if Strings.len baseName <? 6
        then load_entries rest migrations maxVersion
        else
          match Strconv.Atoi (Strings.slice_to 6 baseName) with
          | None => load_entries rest migrations maxVersion
          | Some version =>
              match direction_of_name baseName with
              | None => load_entries rest migrations maxVersion
              | Some isUp =>
                  match index migrations version with
                  | None => Panic "runtime error: index out of range"
                  | Some current =>
                      let migrations :=
                        if Migration_eqb current Migration_zero
                        then update migrations version (set_Version version)
                        else migrations in
                      let filePath := filepath_Join MIGRATIONS_DIR baseName in
                      match ReadFile entry with
                      | inr msg =>
                          Err (fmt_Errorf
                                 "failed to read migration file %s: %w"
                                 [Str filePath] (Some (external msg)))
                      | inl data =>
                          let migrations :=
                            if isUp
                            then update migrations version (set_UpSQL data)
                            else update migrations version (set_DownSQL data)
                          in
                          let maxVersion :=
                            if version >? maxVersion then version
                            else maxVersion in
                          load_entries rest migrations maxVersion
                      end
                  end
              end
          end
  end.

(** The validation loop: [for version := 0; version <= maxVersion;
    version++].  [fuel] is the number of iterations left. *)
Fixpoint validate (fuel : nat) (migrations : list Migration)
  (version maxVersion : Z) : result unit :=
  match fuel with
  | O => Ok tt
  | S fuel' =>
      if version <=? maxVersion then
        match index migrations version with
        | None => Panic "runtime error: index out of range"
        | Some m =>
            if String.eqb (UpSQL m) ""
            then Err (fmt_Errorf "migration %d is missing up.sql file"
                        [Int version] None)
            else validate fuel' migrations (version + 1) maxVersion
        end
      else Ok tt
  end.

(** [loadMigrations]: the value is the slice stored in [m.migrations]. *)
Definition loadMigrations (dir : directory) : result (list Migration) :=
  match dir with
  | Unreadable msg =>
      Err (fmt_Errorf "failed to read migrations directory %s: %w"
             [Str MIGRATIONS_DIR] (Some (external msg)))
  | Listing entries =>
      let fileCount := Z.of_nat (List.length entries) in
      let migrations :=
        repeat Migration_zero (Z.to_nat (Z.quot fileCount 2 + 5)) in
      match load_entries entries migrations (-1) with
      | Panic msg => Panic msg
      | Err e => Err e
      | Ok (migrations, maxVersion) =>
          if maxVersion =? -1
          then Err (fmt_Errorf "no valid migration files found in directory %s"
                      [Str MIGRATIONS_DIR] None)
          else
            match validate (Z.to_nat (maxVersion + 1)) migrations 0 maxVersion
            with
            | Panic msg => Panic msg
            | Err e => Err e
            | Ok _ => Ok (firstn (Z.to_nat (maxVersion + 1)) migrations)
            end
      end
  end.

End Loader.

(** ** The database and the driver *)

(** The relation [migrations] of the target database.  As
    [000000_create_migrations_table.up.sql] creates it, it has the single
    column [version INTEGER PRIMARY KEY], so its contents are a collection
    of distinct integers.  [Broken code] is a relation on which the three
    statements of the engine fail with the PostgreSQL error [code] (a
    missing column, a missing privilege). *)
Inductive relation : Type :=
| Absent
| Broken (code : string)
| Rows (versions : list Z).

(** What scanning the single row of a query gives. *)
Inductive scan : Type :=
| ErrNoRows
| PgError (code : string)
| Null
| Value (v : Z).

Definition maximum (v : Z) (vs : list Z) : Z := fold_right Z.max v vs.

(** [SELECT MAX(version) FROM migrations]. *)
Definition select_max (r : relation) : scan :=
  match r with
  | Absent => PgError "42P01"
  | Broken code => PgError code
  | Rows [] => Null
  | Rows (v :: vs) => Value (maximum v vs)
  end.

Definition mem (v : Z) (vs : list Z) : bool := existsb (Z.eqb v) vs.

(** [INSERT INTO migrations (version) VALUES ($1) ON CONFLICT (version) DO
    NOTHING]; [inr] is the error of the driver. *)
Definition insert_version (v : Z) (r : relation) : relation + string :=
  match r with
  | Absent => inr "42P01"
  | Broken code => inr code
  | Rows vs => inl (Rows (if mem v vs then vs else v :: vs))
  end.

(** [DELETE FROM migrations WHERE version = $1]. *)
Definition delete_version (v : Z) (r : relation) : relation + string :=
  match r with
  | Absent => inr "42P01"
  | Broken code => inr code
  | Rows vs => inl (Rows (filter (fun x => negb (x =? v)) vs))
  end.

(** The calls made to the outside, in program order: the calls on the
    transaction and the connection and the lines printed.  [Applying] is
    not a call to the outside: it records that [applyMigration] was entered,
    for which migration and in which direction. *)
Inductive event : Type :=
| Applying (version : Z) (up : bool)
| TxBegin
| TxExec (sql : string) (params : list Z)
| TxCommit
| TxRollback
| ConnClose
| Printf (format : string) (args : list arg).

Section Engine.

(** The state of the database outside the relation [migrations]. *)
Variable Data : Type.

Record DB : Type := mkDB {
  tracking : relation;
  data : Data
}.

(** The behaviour of the database server and of the connection, which the
    package takes from [pgx]: how one statement of a script acts on the
    database ([inr] for the error it fails with), and whether opening a
    connection, starting a transaction and committing one fail.  Each of
    these calls is handed the context, and a call that the context
    interrupts fails with the context's own error, [context_Canceled], or
    with an error that wraps it: the errors of the driver are Go [error]
    values, which the package wraps with [%w]. *)
Record Driver : Type := mkDriver {
  Connect : string -> option error;
  Begin : DB -> option error;
  Exec : string -> DB -> DB + error;
  Commit : DB -> option error
}.

(** The cancellation state of the context handed to every operation:
    [None] is a context that is never cancelled, [Some n] one that answers
    [n] more calls of [ctx.Err()] with [nil] and is cancelled from then
    on. *)
Definition context : Type := option nat.

Definition Background : context := None.
Definition Cancelled : context := Some O.

Record World : Type := mkWorld {
  db : DB;
  ctx : context;
  log : list event
}.

(** Computations on the world that return, fail or panic. *)
Definition M (A : Type) : Type := World -> result A * World.

Definition ret {A : Type} (a : A) : M A := fun w => (Ok a, w).

Definition bind {A B : Type} (m : M A) (k : A -> M B) : M B :=
  fun w =>
    match m w with
    | (Ok a, w') => k a w'
    | (Err e, w') => (Err e, w')
    | (Panic msg, w') => (Panic msg, w')
    end.

Definition fail {A : Type} (e : error) : M A := fun w => (Err e, w).

Definition panic {A : Type} (msg : string) : M A := fun w => (Panic msg, w).

(** [if err != nil { return wrap(err) }] around a call. *)
Definition wrapping {A : Type} (wrap : error -> error) (m : M A) : M A :=
  fun w =>
    match m w with
    | (Err e, w') => (Err (wrap e), w')
    | other => other
    end.

(** [defer cleanup] before [body]: [cleanup] runs when [body] is left,
    however it is left. *)
Definition defer {A : Type} (cleanup : M unit) (body : M A) : M A :=
  fun w =>
    let (r, w') := body w in
    let (_, w'') := cleanup w' in
    (r, w'').

Definition emit (e : event) : M unit :=
  fun w => (Ok tt, mkWorld (db w) (ctx w) (log w ++ [e])).

Definition get_db : M DB := fun w => (Ok (db w), w).

Definition put_db (d : DB) : M unit :=
  fun w => (Ok tt, mkWorld d (ctx w) (log w)).

(** [ctx.Err()]. *)
Definition ctx_Err : M (option error) :=
  fun w =>
    match ctx w with
    | None => (Ok None, w)
    | Some O => (Ok (Some context_Canceled), w)
    | Some (S n) => (Ok None, mkWorld (db w) (Some n) (log w))
    end.

(** [if err := ctx.Err(); err != nil { return wrap(err) }]. *)
Definition check_ctx (wrap : error -> error) : M unit :=
  bind ctx_Err (fun err =>
    match err with
    | Some e => fail (wrap e)
    | None => ret tt
    end).

(** [m.migrations[version]]. *)
Definition at_index (ms : list Migration) (version : Z) : M Migration :=
  match index ms version with
  | Some m => ret m
  | None => panic "runtime error: index out of range"
  end.

End Engine.

Arguments mkDB {Data}.
Arguments tracking {Data}.
Arguments data {Data}.
Arguments mkDriver {Data}.
Arguments Connect {Data}.
Arguments Begin {Data}.
Arguments Exec {Data}.
Arguments Commit {Data}.
Arguments mkWorld {Data}.
Arguments db {Data}.
Arguments ctx {Data}.
Arguments log {Data}.
Arguments ret {Data A}.
Arguments bind {Data A B}.
Arguments fail {Data A}.
Arguments panic {Data A}.
Arguments wrapping {Data A}.
Arguments defer {Data A}.
Arguments emit {Data}.
Arguments get_db {Data}.
Arguments put_db {Data}.
Arguments ctx_Err {Data}.
Arguments check_ctx {Data}.
Arguments at_index {Data}.

Declare Scope go_scope.
Delimit Scope go_scope with go.
Notation "x <- m ;; k" := (bind m (fun x => k))
  (at level 61, m at next level, right associativity) : go_scope.
Notation "m ;; k" := (bind m (fun _ => k))
  (at level 61, right associativity) : go_scope.
Open Scope go_scope.

(** ** The operations of the package *)

Section Operations.

Variable Data : Type.
Variable drv : Driver Data.

Local Abbreviation M := (M Data).

Definition context_cancelled (e : error) : error :=
  fmt_Errorf "context cancelled: %w" [] (Some e).

(** [GetCurrentVersion]. *)
Definition GetCurrentVersion : M Z :=
  check_ctx context_cancelled ;;
  d <- get_db ;;
  match select_max (tracking d) with
  | ErrNoRows => ret 0
  | PgError code =>
      if String.eqb code "42P01" then ret 0
      else fail (fmt_Errorf "failed to get current migration version: %w"
                   [] (Some (external code)))
  | Null => ret 0
  | Value v => ret v
  end.

(** The loop of [applyMigration] over the pieces of the script, inside
    the transaction: [i] is the index of the first piece of [statements]
    and [tx] the state the transaction has reached. *)
Fixpoint exec_statements (version : Z) (statements : list string) (i : Z)
  (tx : DB Data) : M (DB Data) :=
  match statements with
  | [] => ret tx
  | stmt :: rest =>
      let stmt := Strings.TrimSpace stmt in
      if String.eqb stmt "" then exec_statements version rest (i + 1) tx
      else
        emit (TxExec stmt []) ;;
        match Exec drv stmt tx with
        | inr err =>
            fail (fmt_Errorf
                    "failed to execute migration SQL for version %d (statement %d): %w\nStatement: %s"
                    [Int version; Int (i + 1); Str stmt]
                    (Some err))
        | inl tx' => exec_statements version rest (i + 1) tx'
        end
  end.

Definition insert_sql : string :=
  "INSERT INTO migrations (version) VALUES ($1) ON CONFLICT (version) DO NOTHING".

Definition delete_sql : string :=
  "DELETE FROM migrations WHERE version = $1".

(** The update of the relation [migrations] that closes the
    transaction. *)
Definition record_version (version : Z) (up : bool) (tx : DB Data)
  : M (DB Data) :=
  if up then
    emit (TxExec insert_sql [version]) ;;
    match insert_version version (tracking tx) with
    | inr msg =>
        fail (fmt_Errorf "failed to record migration version %d: %w"
                [Int version] (Some (external msg)))
    | inl r => ret (mkDB r (data tx))
    end
  else
    emit (TxExec delete_sql [version]) ;;
    match delete_version version (tracking tx) with
    | inr msg =>
        fail (fmt_Errorf "failed to remove migration version %d: %w"
                [Int version] (Some (external msg)))
    | inl r => ret (mkDB r (data tx))
    end.

(** [applyMigration].  The transaction works on a copy of the database;
    only a successful commit stores the copy, so that leaving the function
    on any other path leaves the database as [Begin] found it, which is
    what the deferred [tx.Rollback] does. *)
Definition applyMigration (migration : Migration) (up : bool)
  (currentVersion : Z) : M unit :=
  emit (Applying (Version migration) up) ;;
  check_ctx context_cancelled ;;
  let sql := if up then UpSQL migration else DownSQL migration in
  if String.eqb (Strings.TrimSpace sql) "" then
    if up
    then fail (fmt_Errorf "migration %d has empty up.sql content"
                 [Int (Version migration)] None)
    else fail (fmt_Errorf "migration %d has empty down.sql content"
                 [Int (Version migration)] None)
  else
    d <- get_db ;;
    match Begin drv d with
    | Some err =>
        fail (fmt_Errorf "failed to start transaction: %w" [] (Some err))
    | None =>
        emit TxBegin ;;
        defer (emit TxRollback)
          (let statements := Strings.Split sql ";"%char in
           tx <- exec_statements (Version migration) statements 0 d ;;
           tx <- record_version (Version migration) up tx ;;
           match Commit drv tx with
           | Some err =>
               fail (fmt_Errorf "failed to commit transaction: %w" []
                       (Some err))
           | None => emit TxCommit ;; put_db tx
           end)
    end.

Variable m : Migrator.

Definition len_migrations : Z := Z.of_nat (List.length (migrations m)).

(** The loop of [Up]: [for version := currentVersion + 1; version <
    len(m.migrations); version++].  [fuel] is the number of iterations
    left. *)
Fixpoint up_loop (fuel : nat) (version currentVersion : Z) : M unit :=
  match fuel with
  | O => ret tt
  | S fuel' =>
      if version <? len_migrations then
        migration <- at_index (migrations m) version ;;
        check_ctx (fun e =>
          fmt_Errorf "context cancelled while applying migration %d: %w"
            [Int version] (Some e)) ;;
        emit (Printf "Applying migration %d...\n" [Int version]) ;;
        wrapping (fun e =>
          fmt_Errorf "failed to apply migration %d: %w" [Int version]
            (Some e))
          (applyMigration migration true currentVersion) ;;
        emit (Printf "Migration %d applied successfully\n" [Int version]) ;;
        up_loop fuel' (version + 1) version
      else ret tt
  end.

(** [Up]. *)
Definition Up : M unit :=
  check_ctx context_cancelled ;;
  currentVersion <-
    wrapping (fun e =>
      fmt_Errorf
        "failed to get current version before applying migrations: %w" []
        (Some e))
      GetCurrentVersion ;;
  up_loop (Z.to_nat (len_migrations - (currentVersion + 1)))
    (currentVersion + 1) currentVersion.

(** The search of [Down] and [Steps]: the migrations are scanned from the
    last to the first for the one whose [Version] is [currentVersion]. *)
Definition find_migration (currentVersion : Z) : option Migration :=
  find (fun x => Version x =? currentVersion) (rev (migrations m)).

(** [Down]. *)
Definition Down : M unit :=
  check_ctx context_cancelled ;;
  currentVersion <-
    wrapping (fun e =>
      fmt_Errorf "failed to get current version before rolling back: %w" []
        (Some e))
      GetCurrentVersion ;;
  if currentVersion =? 0 then fail (errors_New "no migrations to rollback")
  else
    match find_migration currentVersion with
    | None =>
        fail (fmt_Errorf "migration %d not found in loaded migrations"
                [Int currentVersion] None)
    | Some migrationToRollback =>
        if String.eqb (Strings.TrimSpace (DownSQL migrationToRollback)) ""
        then
          fail (fmt_Errorf
                  "migration %d does not have a down.sql file or it is empty"
                  [Int currentVersion] None)
        else
          emit (Printf "Rolling back migration %d...\n"
                  [Int currentVersion]) ;;
          applyMigration migrationToRollback false currentVersion ;;
          emit (Printf "Migration %d rolled back successfully\n"
                  [Int currentVersion])
    end.

(** The forward loop of [Steps]: [for i := 0; i < steps &&
    currentVersion+1+i < len(m.migrations); i++], whose body assigns
    [currentVersion].  [fuel] is the number of iterations left. *)
Fixpoint steps_forward (fuel : nat) (steps i currentVersion : Z) : M unit :=
  match fuel with
  | O => ret tt
  | S fuel' =>
      if (i <? steps) && (currentVersion + 1 + i <? len_migrations) then
        let version := currentVersion + 1 + i in
        migration <- at_index (migrations m) version ;;
        check_ctx (fun e =>
          fmt_Errorf "context cancelled while applying migration %d: %w"
            [Int version] (Some e)) ;;
        wrapping (fun e =>
          fmt_Errorf "failed to apply migration %d: %w" [Int version]
            (Some e))
          (applyMigration migration true currentVersion) ;;
        steps_forward fuel' steps (i + 1) version
      else ret tt
  end.

(** The backward loop of [Steps]: [for i := 0; i < rollbackCount; i++]. *)
Fixpoint steps_backward (fuel : nat) (rollbackCount i currentVersion : Z)
  : M unit :=
  match fuel with
  | O => ret tt
  | S fuel' =>
      if i <? rollbackCount then
        if currentVersion =? 0
        then fail (errors_New "no migrations to rollback")
        else
          check_ctx (fun e =>
            fmt_Errorf
              "context cancelled while rolling back migration %d: %w"
              [Int currentVersion] (Some e)) ;;
          match find_migration currentVersion with
          | None =>
              fail (fmt_Errorf "migration %d not found in loaded migrations"
                      [Int currentVersion] None)
          | Some migrationToRollback =>
              if String.eqb
                   (Strings.TrimSpace (DownSQL migrationToRollback)) ""
              then
                fail (fmt_Errorf
                        "migration %d does not have a down.sql file or it is empty"
                        [Int currentVersion] None)
              else
                wrapping (fun e =>
                  fmt_Errorf "failed to rollback migration %d: %w"
                    [Int currentVersion] (Some e))
                  (applyMigration migrationToRollback false currentVersion) ;;
                steps_backward fuel' rollbackCount (i + 1)
                  (Version migrationToRollback - 1)
          end
      else ret tt
  end.

(** [Steps]. *)
Definition Steps (steps : Z) : M unit :=
  check_ctx context_cancelled ;;
  currentVersion <-
    wrapping (fun e =>
      fmt_Errorf "failed to get current version before executing steps: %w"
        [] (Some e))
      GetCurrentVersion ;;
  if steps >? 0 then
    steps_forward (Z.to_nat steps) steps 0 currentVersion
  else if steps <? 0 then
    let rollbackCount := GoInt.neg steps in
    steps_backward (Z.to_nat rollbackCount) rollbackCount 0 currentVersion
  else ret tt.

End Operations.

Section Construction.

Variable Data : Type.
Variable drv : Driver Data.
Variable MIGRATIONS_DIR : string.

(** [NewMigrator]; [dir] is the state of the migrations directory that
    [loadMigrations] reads. *)
Definition NewMigrator (connectionString : string) (dir : directory)
  : M Data Migrator :=
  check_ctx context_cancelled ;;
  match Connect drv connectionString with
  | Some err =>
      fail (fmt_Errorf "failed to connect to database: %w" [] (Some err))
  | None =>
      match loadMigrations MIGRATIONS_DIR dir with
      | Panic msg => panic msg
      | Err e =>
          emit ConnClose ;;
          fail (fmt_Errorf "failed to load migrations: %w" [] (Some e))
      | Ok ms => ret (mkMigrator ms)
      end
  end.

End Construction.

Arguments GetCurrentVersion {Data}.
Arguments exec_statements {Data}.
Arguments record_version {Data}.
Arguments applyMigration {Data}.
Arguments up_loop {Data}.
Arguments Up {Data}.
Arguments Down {Data}.
Arguments steps_forward {Data}.
Arguments steps_backward {Data}.
Arguments Steps {Data}.
Arguments NewMigrator {Data}.

(** ** Notions the properties are stated with *)

(** The context after a call of [ctx.Err()] that returned [nil]. *)
Definition after_check (c : context) : context :=
  match c with
  | Some (S n) => Some n
  | other => other
  end.

(** The world after a call of [ctx.Err()] that returned [nil]. *)
Definition checked {Data : Type} (w : World Data) : World Data :=
  mkWorld (db w) (after_check (ctx w)) (log w).

(** The world after [e] has been added to the log. *)
Definition logged {Data : Type} (e : event) (w : World Data) : World Data :=
  mkWorld (db w) (ctx w) (log w ++ [e]).

(** The errors of the loops of [Up] and [Steps]. *)
Definition cancelled_while_applying (version : Z) (e : error) : error :=
  fmt_Errorf "context cancelled while applying migration %d: %w"
    [Int version] (Some e).

Definition failed_to_apply (version : Z) (e : error) : error :=
  fmt_Errorf "failed to apply migration %d: %w" [Int version] (Some e).

Definition cancelled_while_rolling_back (version : Z) (e : error) : error :=
  fmt_Errorf "context cancelled while rolling back migration %d: %w"
    [Int version] (Some e).

Definition failed_to_rollback (version : Z) (e : error) : error :=
  fmt_Errorf "failed to rollback migration %d: %w" [Int version] (Some e).

(** [CurrentVersion()] as a caller with a live context reads it from the
    database [d]. *)
Definition CurrentVersion {Data : Type} (d : DB Data) : result Z :=
  fst (GetCurrentVersion (mkWorld d Background [])).

(** [maxVersion] of a loaded set. *)
Definition maxVersion (m : Migrator) : Z := len_migrations m - 1.

(** The statements of a script run against the state [tx] of a
    transaction, without the log: the state reached, or the index, the text
    and the driver's error of the first statement that fails. *)
Fixpoint run_statements {Data : Type} (drv : Driver Data)
  (statements : list string) (i : Z) (tx : DB Data)
  : DB Data + Z * string * error :=
  match statements with
  | [] => inl tx
  | stmt :: rest =>
      let stmt := Strings.TrimSpace stmt in
      if String.eqb stmt "" then run_statements drv rest (i + 1) tx
      else match Exec drv stmt tx with
           | inr err => inr (i + 1, stmt, err)
           | inl tx' => run_statements drv rest (i + 1) tx'
           end
  end.

(** The events the statements of a script leave in the log. *)
Fixpoint statement_events {Data : Type} (drv : Driver Data)
  (statements : list string) (tx : DB Data) : list event :=
  match statements with
  | [] => []
  | stmt :: rest =>
      let stmt := Strings.TrimSpace stmt in
      if String.eqb stmt "" then statement_events drv rest tx
      else TxExec stmt [] ::
           match Exec drv stmt tx with
           | inr _ => []
           | inl tx' => statement_events drv rest tx'
           end
  end.

(** The error [applyMigration] returns when statement number [k], of text
    [stmt], fails with the driver's error [err]. *)
Definition ScriptExecutionError (version k : Z) (stmt : string) (err : error)
  : error :=
  fmt_Errorf
    "failed to execute migration SQL for version %d (statement %d): %w\nStatement: %s"
    [Int version; Int k; Str stmt] (Some err).

Definition NoMigrationsError : error :=
  errors_New "no migrations to rollback".

Definition NotRevertibleError (version : Z) : error :=
  fmt_Errorf "migration %d does not have a down.sql file or it is empty"
    [Int version] None.

Definition EmptyScriptError (version : Z) (up : bool) : error :=
  if up
  then fmt_Errorf "migration %d has empty up.sql content" [Int version] None
  else fmt_Errorf "migration %d has empty down.sql content" [Int version] None.

(** What a transaction that [applyMigration] has started on the database
    [d] ends in: the value returned, the database it leaves and the calls
    made between [Begin] and the deferred [Rollback]. *)
Definition transaction {Data : Type} (drv : Driver Data) (mg : Migration)
  (up : bool) (d : DB Data) : result unit * DB Data * list event :=
  let version := Version mg in
  let sql := if up then UpSQL mg else DownSQL mg in
  let statements := Strings.Split sql ";"%char in
  let evs := statement_events drv statements d in
  match run_statements drv statements 0 d with
  | inr (k, stmt, err) =>
      (Err (ScriptExecutionError version k stmt err), d, evs)
  | inl tx =>
      if up then
        match insert_version version (tracking tx) with
        | inr msg =>
            (Err (fmt_Errorf "failed to record migration version %d: %w"
                    [Int version] (Some (external msg))),
             d, evs ++ [TxExec insert_sql [version]])
        | inl r =>
            match Commit drv (mkDB r (data tx)) with
            | Some err =>
                (Err (fmt_Errorf "failed to commit transaction: %w" []
                        (Some err)),
                 d, evs ++ [TxExec insert_sql [version]])
            | None =>
                (Ok tt, mkDB r (data tx),
                 evs ++ [TxExec insert_sql [version]; TxCommit])
            end
        end
      else
        match delete_version version (tracking tx) with
        | inr msg =>
            (Err (fmt_Errorf "failed to remove migration version %d: %w"
                    [Int version] (Some (external msg))),
             d, evs ++ [TxExec delete_sql [version]])
        | inl r =>
            match Commit drv (mkDB r (data tx)) with
            | Some err =>
                (Err (fmt_Errorf "failed to commit transaction: %w" []
                        (Some err)),
                 d, evs ++ [TxExec delete_sql [version]])
            | None =>
                (Ok tt, mkDB r (data tx),
                 evs ++ [TxExec delete_sql [version]; TxCommit])
            end
        end
  end.

(** Whether an error was built at the statement loop of [applyMigration]. *)
Definition is_script_error (e : error) : bool :=
  match e with
  | fmt_Errorf format _ _ =>
      String.eqb format
        "failed to execute migration SQL for version %d (statement %d): %w\nStatement: %s"
  | _ => false
  end.

(** A script is blank when [strings.TrimSpace] leaves nothing of it. *)
Definition blank (sql : string) : Prop := Strings.TrimSpace sql = "".

(** No statement of the script writes the relation [migrations]. *)
Definition keeps_tracking {Data : Type} (drv : Driver Data) (sql : string)
  : Prop :=
  forall stmt d d',
    In stmt (map Strings.TrimSpace (Strings.Split sql ";"%char)) ->
    Exec drv stmt d = inl d' -> tracking d' = tracking d.

(** Every migration of the set sits at the index that is its version and
    has an up-script: what [loadMigrations] establishes. *)
Definition well_formed (ms : list Migration) : Prop :=
  ms <> [] /\
  forall i mg, index ms i = Some mg -> Version mg = i /\ UpSQL mg <> "".

(** The invariant of the loader's slice: a slot is untouched or holds the
    migration of its own index. *)
Definition slots_ok (ms : list Migration) : Prop :=
  forall n mg, nth_error ms n = Some mg ->
               mg = Migration_zero \/ Version mg = Z.of_nat n.

(** The calls of [applyMigration] in a log, in order. *)
Fixpoint applied (l : list event) : list (Z * bool) :=
  match l with
  | [] => []
  | Applying version up :: l' => (version, up) :: applied l'
  | _ :: l' => applied l'
  end.

(** Where a log stands with respect to transactions. *)
Inductive tx_state : Type :=
| Outside
| Inside
| Committed.

(** A log in which every transaction that was started ran to its commit:
    from [st], the log [l] ends outside of any transaction and contains no
    transaction that was rolled back before it was committed. *)
Fixpoint at_boundary_from (st : tx_state) (l : list event) : bool :=
  match l with
  | [] => match st with Outside => true | _ => false end
  | e :: l' =>
      match st, e with
      | Outside, TxBegin => at_boundary_from Inside l'
      | Outside, (Applying _ _ | Printf _ _ | ConnClose) =>
          at_boundary_from Outside l'
      | Inside, TxExec _ _ => at_boundary_from Inside l'
      | Inside, TxCommit => at_boundary_from Committed l'
      | Committed, TxRollback => at_boundary_from Outside l'
      | _, _ => false
      end
  end.

Definition at_boundary (l : list event) : bool := at_boundary_from Outside l.

(** The driver never reports the context's error: no call of [Begin],
    [Exec] or [Commit] fails with an error that wraps it. *)
Definition reports_no_cancellation {Data : Type} (drv : Driver Data) : Prop :=
  (forall d e, Begin drv d = Some e -> is_cancellation e = false) /\
  (forall stmt d e, Exec drv stmt d = inr e -> is_cancellation e = false) /\
  (forall d e, Commit drv d = Some e -> is_cancellation e = false).



(** The calls of [applyMigration] in [l] are all upward and for versions
    from [first] on, and the first of them, if any, is for [first]. *)
Definition applies_upward_from (first : Z) (l : list event) : Prop :=
  (forall v up, In (v, up) (applied l) -> up = true /\ first <= v) /\
  (applied l = [] \/ exists rest, applied l = (first, true) :: rest).

(** ** A small database to run the engine on *)

Module Scenario.

(** The database keeps the statements it has executed, most recent
    first; a statement that starts with [FAIL] fails. *)
Definition driver : Driver (list string) :=
  mkDriver
    (fun _ => None)
    (fun _ => None)
    (fun stmt d =>
       if Strings.HasPrefix stmt "FAIL" then inr (external "syntax error")
       else inl (mkDB (tracking d) (stmt :: data d)))
    (fun _ => None).


Definition file (name contents : string) : DirEntry :=
  mkDirEntry name false (inl contents).

(** Versions 0 to 3, each with an up-script and a down-script. *)
Definition four_versions : directory :=
  Listing
    [ file "000000_create_migrations_table.up.sql" "CREATE TABLE migrations";
      file "000000_create_migrations_table.down.sql" "DROP TABLE migrations";
      file "000001_a.up.sql" "CREATE TABLE a; CREATE INDEX a_i;";
      file "000001_a.down.sql" "DROP TABLE a";
      file "000002_b.up.sql" "CREATE TABLE b";
      file "000002_b.down.sql" "DROP TABLE b";
      file "000003_c.up.sql" "CREATE TABLE c";
      file "000003_c.down.sql" "DROP TABLE c" ].

Definition four : Migrator :=
  mkMigrator
    [ mkMigration 0 "CREATE TABLE migrations" "DROP TABLE migrations";
      mkMigration 1 "CREATE TABLE a; CREATE INDEX a_i;" "DROP TABLE a";
      mkMigration 2 "CREATE TABLE b" "DROP TABLE b";
      mkMigration 3 "CREATE TABLE c" "DROP TABLE c" ].

(** The database after the bootstrap migration alone. *)
Definition at_zero : World (list string) :=
  mkWorld (mkDB (Rows [0]) []) Background [].

Definition at_version (vs : list Z) (c : context) : World (list string) :=
  mkWorld (mkDB (Rows vs) []) c [].

(** The version that a statement [INSERT INTO migrations (version) VALUES
    (v)] of a script inserts. *)
Definition inserted_version (stmt : string) : option Z :=
  let prefix := "INSERT INTO migrations (version) VALUES (" in
  if Strings.HasPrefix stmt prefix
  then Strconv.Atoi
         (String.substring (String.length prefix)
            (String.length stmt - String.length prefix - 1) stmt)
  else None.

(** The same database when it carries out the statements of a script that
    insert into the relation [migrations]. *)
Definition writing : Driver (list string) :=
  mkDriver
    (fun _ => None)
    (fun _ => None)
    (fun stmt d =>
       match inserted_version stmt with
       | Some v =>
           match insert_version v (tracking d) with
           | inl r => inl (mkDB r (stmt :: data d))
           | inr code => inr (external code)
           end
       | None => Exec driver stmt d
       end)
    (fun _ => None).

(** Versions 0 to 2; the up-scripts of versions 0 and 1 insert into the
    relation [migrations] themselves. *)
Definition seeded_versions : directory :=
  Listing
    [ file "000000_init.up.sql"
        "CREATE TABLE migrations; INSERT INTO migrations (version) VALUES (0)";
      file "000001_seed.up.sql" "INSERT INTO migrations (version) VALUES (7)";
      file "000002_b.up.sql" "CREATE TABLE b";
      file "000002_b.down.sql" "DROP TABLE b" ].

Definition seeded : Migrator :=
  mkMigrator
    [ mkMigration 0
        "CREATE TABLE migrations; INSERT INTO migrations (version) VALUES (0)"
        "";
      mkMigration 1 "INSERT INTO migrations (version) VALUES (7)" "";
      mkMigration 2 "CREATE TABLE b" "DROP TABLE b" ].

(** A migration whose two scripts are the same failing statement. *)
Definition twin : Migration := mkMigration 3 "FAIL" "FAIL".

(** Version 2 has no down-script. *)
Definition one_way : Migrator :=
  mkMigrator
    [ mkMigration 0 "CREATE TABLE migrations" "";
      mkMigration 1 "CREATE TABLE a" "DROP TABLE a";
      mkMigration 2 "CREATE TABLE b" "  ";
      mkMigration 3 "CREATE TABLE c" "DROP TABLE c" ].

End Scenario.

(** ** Notions the further properties are stated with *)

(** The statements of a script as [applyMigration] submits them: the
    pieces between semicolons, trimmed, the blank ones left out. *)
Definition script_statements (sql : string) : list string :=
  filter (fun s => negb (String.eqb s ""))
    (map Strings.TrimSpace (Strings.Split sql ";"%char)).

(** The statement that records ([up]) or removes a version. *)
Definition tracking_sql (up : bool) : string :=
  if up then insert_sql else delete_sql.

(** The versions [first, first + 1, ...], [count] of them. *)
Fixpoint ascending (first : Z) (count : nat) : list Z :=
  match count with
  | O => []
  | S count' => first :: ascending (first + 1) count'
  end.

(** The versions [first, first - 1, ...], [count] of them. *)
Fixpoint descending (first : Z) (count : nat) : list Z :=
  match count with
  | O => []
  | S count' => first :: descending (first - 1) count'
  end.

(** The number of transactions committed in a log. *)
Fixpoint commits (l : list event) : Z :=
  match l with
  | [] => 0
  | TxCommit :: l' => 1 + commits l'
  | _ :: l' => commits l'
  end.

(** The triangular numbers: [triangle j = 1 + 2 + ... + j]. *)
Definition triangle (j : Z) : Z := j * (j + 1) / 2.

(** The version and the direction ([true] for up) that the loader reads
    off a directory entry, or [None] for an entry it passes over: a
    directory, a name shorter than six bytes, six first bytes that
    [strconv.Atoi] rejects, a suffix that is neither [.up.sql] nor
    [.down.sql]. *)
Definition migration_file (entry : DirEntry) : option (Z * bool) :=
  if IsDir entry then None
  else if Strings.len (Name entry) <? 6 then None
  else match Strconv.Atoi (Strings.slice_to 6 (Name entry)) with
       | None => None
       | Some version =>
           match direction_of_name (Name entry) with
           | None => None
           | Some isUp => Some (version, isUp)
           end
       end.

Definition same_file (a b : Z * bool) : bool :=
  (fst a =? fst b) && Bool.eqb (snd a) (snd b).

(** The contents of the last entry of the directory that is a file for
    [version] in the direction [isUp]. *)
Fixpoint last_contents (entries : list DirEntry) (version : Z) (isUp : bool)
  : option string :=
  match entries with
  | [] => None
  | entry :: rest =>
      match last_contents rest version isUp with
      | Some s => Some s
      | None =>
          match migration_file entry, ReadFile entry with
          | Some f, inl s =>
              if same_file f (version, isUp) then Some s else None
          | _, _ => None
          end
      end
  end.

(** Whether some entry of the directory is a file for [version]. *)
Definition has_file (entries : list DirEntry) (version : Z) : Prop :=
  exists entry isUp,
    In entry entries /\ migration_file entry = Some (version, isUp).

(** The number of slots of the loader's slice. *)
Definition slots (entries : list DirEntry) : Z :=
  Z.quot (Z.of_nat (List.length entries)) 2 + 5.

(** The up-script the directory gives for [version]: the contents of the
    last [.up.sql] file for it, empty when there is none. *)
Definition up_script_in (entries : list DirEntry) (version : Z) : string :=
  match last_contents entries version true with
  | Some s => s
  | None => ""
  end.

(** ** The command-line tool *)

(** The method [Close] of a migrator: the connection is closed. *)
Definition Close {Data : Type} : M Data unit := emit ConnClose.

(** What the tool writes: the calls of [fmt] on the standard output and on
    the standard error, and the records that [logger.LogError] hands to
    [slog] (level ERROR, the message, and the attribute [error]; the
    time and the source position of a record are not modelled).  What the
    package prints itself is in the log of the world, as [Printf]. *)
Inductive output : Type :=
| Println (text : string)
| Print (text : string)
| Printf_stdout (format : string) (args : list arg)
| Fprintf_stderr (format : string) (args : list arg)
| LogRecord (msg : string) (err : option error).

(** How a function of the tool is left: it returns, it calls [os.Exit], or
    it panics. *)
Inductive ending : Type :=
| Returns
| Exits (code : Z)
| Panics (msg : string).

(** The exit status of the process: 0 when [main] returns, the argument of
    [os.Exit], 2 when the Go runtime ends the process on a panic. *)
Definition exit_status (e : ending) : Z :=
  match e with
  | Returns => 0
  | Exits code => code
  | Panics _ => 2
  end.

(** The text of [printUsage], a raw string literal of the source. *)
Definition usage_format : string :=
"Usage: migrate <command>

Commands:
  up                  Apply all pending migrations
  down                Rollback the last migration
  steps <number>      Apply or rollback specific number of migrations
                      (positive for up, negative for down)
  version, status     Show current migration version
  help                Show this help message

Environment Variables:
  %s        Database connection URL

Examples:
  migrate up
  migrate down
  migrate steps 2
  migrate steps -1
  migrate version
".

Section CommandLine.

Variable Data : Type.
Variable drv : Driver Data.

(** [constants.MIGRATIONS_DIR] and [constants.DATABASE_URL], the name of
    the environment variable; package [constants] is not part of the
    sources at hand. *)
Variable MIGRATIONS_DIR : string.
Variable DATABASE_URL : string.

(** The process: the world of the engine, what has been written, and
    whether the package variable [logger.Logger] has been set. *)
Record Process : Type := mkProcess {
  world : World Data;
  outputs : list output;
  Logger : bool
}.

Definition say (o : output) (p : Process) : Process :=
  mkProcess (world p) (outputs p ++ [o]) (Logger p).

(** [logger.LogError(msg, err)]: the logger is initialised if it was not,
    and the record is written. *)
Definition LogError (msg : string) (err : option error) (p : Process)
  : Process :=
  mkProcess (world p) (outputs p ++ [LogRecord msg err]) true.

(** A call into package [migrate]. *)
Definition call {A : Type} (m : M Data A) (p : Process)
  : result A * Process :=
  let (r, w) := m (world p) in (r, mkProcess w (outputs p) (Logger p)).

(** [ctx := context.Background()]. *)
Definition with_background (p : Process) : Process :=
  mkProcess (mkWorld (db (world p)) Background (log (world p)))
    (outputs p) (Logger p).

Definition printUsage (p : Process) : Process :=
  say (Printf_stdout usage_format [Str DATABASE_URL]) p.

Definition handleUp (migrator : Migrator) (p : Process) : ending * Process :=
  let p := say (Println "\n=== Applying Migrations ===") p in
  match call (Up drv migrator) p with
  | (Err e, p) => (Exits 1, LogError "Failed to apply migrations" (Some e) p)
  | (Panic msg, p) => (Panics msg, p)
  | (Ok _, p) =>
      (Returns, say (Println "\n✓ All migrations applied successfully!") p)
  end.

Definition handleDown (migrator : Migrator) (p : Process)
  : ending * Process :=
  let p := say (Println "\n=== Rolling Back Migration ===") p in
  match call (Down drv migrator) p with
  | (Err e, p) => (Exits 1, LogError "Failed to rollback migration" (Some e) p)
  | (Panic msg, p) => (Panics msg, p)
  | (Ok _, p) =>
      (Returns, say (Println "\n✓ Migration rolled back successfully!") p)
  end.

(** The error of [strconv.Atoi]; its text is not modelled. *)
Definition NumError (s : string) : error := external "strconv.Atoi".

Definition handleSteps (migrator : Migrator) (args : list string)
  (p : Process) : ending * Process :=
  match args with
  | [] =>
      (Exits 1,
       say (Fprintf_stderr
              "Error: 'steps' command requires a number argument\n" []) p)
  | number :: _ =>
      match Strconv.Atoi number with
      | None => (Exits 1, LogError "Invalid number" (Some (NumError number)) p)
      | Some steps =>
          match call (Steps drv migrator steps) p with
          | (Err e, p) =>
              (Exits 1, LogError "Failed to execute steps" (Some e) p)
          | (Panic msg, p) => (Panics msg, p)
          | (Ok _, p) => (Returns, p)
          end
      end
  end.

Definition handleVersion (migrator : Migrator) (p : Process)
  : ending * Process :=
  let p := say (Print "Checking current migration version...") p in
  match call GetCurrentVersion p with
  | (Err e, p) =>
      (Exits 1, LogError "Failed to get current version" (Some e) p)
  | (Panic msg, p) => (Panics msg, p)
  | (Ok version, p) =>
      (Returns,
       say (Printf_stdout "✓ Current migration version: %d\n" [Int version])
         p)
  end.

Definition is_help (command : string) : bool :=
  String.eqb command "help" || String.eqb command "-h"
  || String.eqb command "--help".

(** The [switch] of [main]. *)
Definition dispatch (command : string) (rest : list string)
  (migrator : Migrator) (p : Process) : ending * Process :=
  if String.eqb command "up" then handleUp migrator p
  else if String.eqb command "down" then handleDown migrator p
  else if String.eqb command "steps" then handleSteps migrator rest p
  else if String.eqb command "version" || String.eqb command "status"
       then handleVersion migrator p
  else
    (Exits 1,
     printUsage (say (Fprintf_stderr "Unknown command: %s\n\n" [Str command])
                   p)).

(** [main], for the arguments [os_Args] (the name of the program first),
    the environment [getenv] and the state [dir] of the migrations
    directory.  The deferred [migrator.Close] runs when [main] returns or
    panics, not when [os.Exit] is called. *)
Definition main (os_Args : list string) (getenv : string -> string)
  (dir : directory) (p : Process) : ending * Process :=
  match os_Args with
  | [] | [_] => (Exits 1, printUsage p)
  | _ :: command :: rest =>
      if is_help command then (Exits 0, printUsage p)
      else
        let p := say (Println "Initializing migration tool...") p in
        let p := with_background p in
        let p := say (Print "Checking DATABASE_URL environment variable...") p
        in
        let connectionString := getenv DATABASE_URL in
        if String.eqb connectionString "" then
          (Exits 1,
           LogError "DATABASE_URL environment variable is not set" None p)
        else
          let p := say (Println "✓ DATABASE_URL found") p in
          let p := say (Print "Connecting to database...") p in
          match call (NewMigrator drv MIGRATIONS_DIR connectionString dir) p
          with
          | (Err e, p) =>
              (Exits 1, LogError "Failed to create migrator" (Some e) p)
          | (Panic msg, p) => (Panics msg, p)
          | (Ok migrator, p) =>
              let p := say (Println "✓ Connected to database") p in
              match dispatch command rest migrator p with
              | (Exits code, p) => (Exits code, p)
              | (Returns, p) => (Returns, snd (call Close p))
              | (Panics msg, p) => (Panics msg, snd (call Close p))
              end
          end
  end.

End CommandLine.

Arguments mkProcess {Data}.
Arguments world {Data}.
Arguments outputs {Data}.
Arguments Logger {Data}.
Arguments say {Data}.
Arguments LogError {Data}.
Arguments call {Data A}.
Arguments with_background {Data}.
Arguments printUsage {Data}.
Arguments handleUp {Data}.
Arguments handleDown {Data}.
Arguments handleSteps {Data}.
Arguments handleVersion {Data}.
Arguments dispatch {Data}.
Arguments main {Data}.

(** ** Notions the properties of the tool are stated with *)

(** The number of times the connection has been closed. *)
Fixpoint closes (l : list event) : Z :=
  match l with
  | [] => 0
  | ConnClose :: l' => 1 + closes l'
  | _ :: l' => closes l'
  end.

(** A computation that does not close the connection. *)
Definition keeps_open {Data A : Type} (m : M Data A) : Prop :=
  forall w, closes (log (snd (m w))) = closes (log w).

(** How a handler of the tool is left after an operation of the package
    that ended in [r]. *)
Definition ending_of {A : Type} (r : result A) : ending :=
  match r with
  | Ok _ => Returns
  | Err _ => Exits 1
  | Panic msg => Panics msg
  end.

(** The process when [main] has built its migrator: the context is the
    background context and four lines have been written. *)
Definition connected {Data : Type} (p : Process Data) : Process Data :=
  mkProcess (mkWorld (db (world p)) Background (log (world p)))
    (outputs p ++ [Println "Initializing migration tool...";
                   Print "Checking DATABASE_URL environment variable...";
                   Println "✓ DATABASE_URL found";
                   Print "Connecting to database...";
                   Println "✓ Connected to database"])
    (Logger p).

(** Whether the command line asks for the usage text. *)
Definition asks_for_help (os_Args : list string) : bool :=
  match os_Args with
  | _ :: command :: _ => is_help command
  | _ => false
  end.

(** A command line that names none of the operations: the command is
    unknown, or it is [steps] without a number after it. *)
Definition names_no_operation (command : string) (rest : list string)
  : Prop :=
  (command <> "up" /\ command <> "down" /\ command <> "steps" /\
   command <> "version" /\ command <> "status") \/
  (command = "steps" /\
   match rest with
   | [] => True
   | number :: _ => Strconv.Atoi number = None
   end).

(** * Properties *)

(** ** The context and the monad *)

Lemma world_eta {Data : Type} (w : World Data) :
  mkWorld (db w) (ctx w) (log w) = w.
Proof. destruct w; reflexivity. Qed.

Lemma check_ctx_cancelled {Data : Type} (wrap : error -> error)
  (w : World Data) :
  ctx w = Cancelled ->
  check_ctx wrap w = (Err (wrap context_Canceled), w).
Proof.
  intros H. unfold check_ctx, bind, ctx_Err, fail. rewrite H. reflexivity.
Qed.

Lemma check_ctx_live {Data : Type} (wrap : error -> error) (w : World Data) :
  ctx w <> Cancelled ->
  check_ctx wrap w = (Ok tt, mkWorld (db w) (after_check (ctx w)) (log w)).
Proof.
  intros H. unfold check_ctx, bind, ctx_Err, ret.
  destruct w as [d c l]; simpl in *.
  destruct c as [[|n]|]; try reflexivity. now elim H.
Qed.

Lemma ctx_cancelled_dec (c : context) : {c = Cancelled} + {c <> Cancelled}.
Proof.
  destruct c as [[|n]|]; [left; reflexivity | right; discriminate
                         | right; discriminate].
Defined.

(** ** The transaction *)

Lemma exec_statements_run {Data : Type} (drv : Driver Data) (version : Z)
  (statements : list string) :
  forall (i : Z) (tx : DB Data) (w : World Data),
    exec_statements drv version statements i tx w =
    (match run_statements drv statements i tx with
     | inl tx' => Ok tx'
     | inr (k, stmt, msg) => Err (ScriptExecutionError version k stmt msg)
     end,
     mkWorld (db w) (ctx w) (log w ++ statement_events drv statements tx)).
Proof.
  induction statements as [|stmt rest IH]; intros i tx w; simpl.
  - unfold ret. rewrite app_nil_r, world_eta. reflexivity.
  - destruct (String.eqb (Strings.TrimSpace stmt) "").
    + apply IH.
    + unfold bind, emit. simpl.
      destruct (Exec drv (Strings.TrimSpace stmt) tx) as [tx'|msg].
      * rewrite IH. simpl. rewrite <- app_assoc. reflexivity.
      * unfold fail. reflexivity.
Qed.

Lemma applyMigration_cancelled {Data : Type} (drv : Driver Data)
  (mg : Migration) (up : bool) (cv : Z) (w : World Data) :
  ctx w = Cancelled ->
  applyMigration drv mg up cv w =
  (Err (context_cancelled context_Canceled),
   mkWorld (db w) (ctx w) (log w ++ [Applying (Version mg) up])).
Proof.
  intros H. unfold applyMigration, bind, emit.
  rewrite check_ctx_cancelled by exact H. reflexivity.
Qed.

Lemma applyMigration_blank {Data : Type} (drv : Driver Data)
  (mg : Migration) (up : bool) (cv : Z) (w : World Data) :
  ctx w <> Cancelled ->
  blank (if up then UpSQL mg else DownSQL mg) ->
  applyMigration drv mg up cv w =
  (Err (EmptyScriptError (Version mg) up),
   mkWorld (db w) (after_check (ctx w)) (log w ++ [Applying (Version mg) up])).
Proof.
  intros H Hb. unfold applyMigration, bind, emit.
  rewrite check_ctx_live by exact H. simpl.
  unfold blank in Hb. rewrite Hb. simpl.
  unfold EmptyScriptError, fail. destruct up; reflexivity.
Qed.

Lemma applyMigration_begin_fails {Data : Type} (drv : Driver Data)
  (mg : Migration) (up : bool) (cv : Z) (w : World Data) (err : error) :
  ctx w <> Cancelled ->
  ~ blank (if up then UpSQL mg else DownSQL mg) ->
  Begin drv (db w) = Some err ->
  applyMigration drv mg up cv w =
  (Err (fmt_Errorf "failed to start transaction: %w" [] (Some err)),
   mkWorld (db w) (after_check (ctx w)) (log w ++ [Applying (Version mg) up])).
Proof.
  intros H Hb HB. unfold applyMigration, bind, emit.
  rewrite check_ctx_live by exact H. simpl.
  unfold blank in Hb. apply String.eqb_neq in Hb. rewrite Hb.
  unfold get_db. simpl. rewrite HB. reflexivity.
Qed.

Lemma applyMigration_transaction {Data : Type} (drv : Driver Data)
  (mg : Migration) (up : bool) (cv : Z) (w : World Data) :
  ctx w <> Cancelled ->
  ~ blank (if up then UpSQL mg else DownSQL mg) ->
  Begin drv (db w) = None ->
  applyMigration drv mg up cv w =
  (fst (fst (transaction drv mg up (db w))),
   mkWorld (snd (fst (transaction drv mg up (db w)))) (after_check (ctx w))
     (log w ++ [Applying (Version mg) up; TxBegin]
        ++ snd (transaction drv mg up (db w)) ++ [TxRollback])).
Proof.
  intros H Hb HB. unfold applyMigration, bind, emit.
  rewrite check_ctx_live by exact H. simpl.
  unfold blank in Hb. apply String.eqb_neq in Hb. rewrite Hb.
  unfold get_db. simpl. rewrite HB. unfold defer, bind, emit. simpl.
  rewrite exec_statements_run. simpl. unfold transaction.
  destruct (run_statements drv _ 0 (db w)) as [tx|[[k stmt] msg]]; simpl.
  - unfold record_version, bind, emit, fail, ret, put_db.
    destruct up; simpl.
    + destruct (insert_version (Version mg) (tracking tx)) as [r|msg]; simpl.
      * destruct (Commit drv _) as [msg|]; simpl;
          repeat rewrite <- app_assoc; reflexivity.
      * repeat rewrite <- app_assoc; reflexivity.
    + destruct (delete_version (Version mg) (tracking tx)) as [r|msg]; simpl.
      * destruct (Commit drv _) as [msg|]; simpl;
          repeat rewrite <- app_assoc; reflexivity.
      * repeat rewrite <- app_assoc; reflexivity.
  - repeat rewrite <- app_assoc; reflexivity.
Qed.

Lemma statement_events_inside {Data : Type} (drv : Driver Data)
  (statements : list string) :
  forall (tx : DB Data) (rest : list event),
    at_boundary_from Inside (statement_events drv statements tx ++ rest) =
    at_boundary_from Inside rest.
Proof.
  induction statements as [|stmt more IH]; intros tx rest; simpl.
  - reflexivity.
  - destruct (String.eqb (Strings.TrimSpace stmt) ""); [apply IH|].
    simpl. destruct (Exec drv _ tx); [apply IH | reflexivity].
Qed.

Lemma statement_events_applied {Data : Type} (drv : Driver Data)
  (statements : list string) :
  forall tx : DB Data, applied (statement_events drv statements tx) = [].
Proof.
  induction statements as [|stmt more IH]; intros tx; simpl.
  - reflexivity.
  - destruct (String.eqb (Strings.TrimSpace stmt) ""); [apply IH|].
    simpl. destruct (Exec drv _ tx); [apply IH | reflexivity].
Qed.

Lemma statement_events_no_commit {Data : Type} (drv : Driver Data)
  (statements : list string) :
  forall tx : DB Data, ~ In TxCommit (statement_events drv statements tx).
Proof.
  induction statements as [|stmt more IH]; intros tx; simpl.
  - tauto.
  - destruct (String.eqb (Strings.TrimSpace stmt) ""); [apply IH|].
    simpl. intros [H|H]; [discriminate|].
    destruct (Exec drv _ tx); [eapply IH; eassumption | exact H].
Qed.

Lemma applied_app (a b : list event) :
  applied (a ++ b) = applied a ++ applied b.
Proof.
  induction a as [|e a IH]; simpl; [reflexivity|].
  destruct e; simpl; rewrite IH; reflexivity.
Qed.


Ltac tx_side :=
  repeat match goal with
    | |- _ /\ _ => split
    | |- applied (_ ++ _) = [] =>
        rewrite applied_app, statement_events_applied; reflexivity
    | |- applied (statement_events _ _ _) = [] =>
        apply statement_events_applied
    | |- ~ In TxCommit (statement_events _ _ _) =>
        apply statement_events_no_commit
    | |- ~ In TxCommit (_ ++ _) =>
        let H := fresh in
        intros H; apply in_app_or in H; destruct H as [H|[H|[]]];
        [eapply statement_events_no_commit; eassumption|discriminate]
    | |- at_boundary_from Inside _ = true =>
        rewrite <- ?app_assoc, statement_events_inside; reflexivity
    | |- exists _ _, _ => do 2 eexists; repeat split; eassumption
    | |- reports_no_cancellation _ -> _ =>
        let HB := fresh in let HE := fresh in let HC := fresh in
        intros (HB & HE & HC); cbn [is_cancellation ScriptExecutionError];
        first [reflexivity | eapply HE; eassumption | eapply HC; eassumption]
    | |- _ = _ => reflexivity
    end.

(** The error of the statement loop is the one [Exec] returned for the
    statement. *)
Lemma run_statements_error {Data : Type} (drv : Driver Data)
  (statements : list string) :
  forall (i : Z) (tx : DB Data) (k : Z) (stmt : string) (err : error),
    run_statements drv statements i tx = inr (k, stmt, err) ->
    exists tx', Exec drv stmt tx' = inr err.
Proof.
  induction statements as [|piece more IH]; intros i tx k stmt err H;
    cbn [run_statements] in H; [discriminate|].
  destruct (String.eqb (Strings.TrimSpace piece) ""); [eapply IH; exact H|].
  destruct (Exec drv (Strings.TrimSpace piece) tx) as [tx'|err'] eqn:He.
  - eapply IH. exact H.
  - inversion H; subst. exists tx. exact He.
Qed.

(** What a transaction leaves when it does not commit, and what it leaves
    when it does. *)
Lemma transaction_cases {Data : Type} (drv : Driver Data) (mg : Migration)
  (up : bool) (d : DB Data) :
  match transaction drv mg up d with
  | (Ok _, d', evs) =>
      at_boundary_from Inside (evs ++ [TxRollback]) = true /\
      applied evs = [] /\
      exists tx rel,
        run_statements drv
          (Strings.Split (if up then UpSQL mg else DownSQL mg) ";"%char) 0 d
        = inl tx /\
        (if up then insert_version (Version mg) (tracking tx)
         else delete_version (Version mg) (tracking tx)) = inl rel /\
        d' = mkDB rel (data tx)
  | (Err e, d', evs) =>
      d' = d /\
      (reports_no_cancellation drv -> is_cancellation e = false) /\
      applied evs = [] /\ ~ In TxCommit evs
  | (Panic _, _, _) => False
  end.
Proof.
  unfold transaction.
  destruct (run_statements drv _ 0 d) as [tx|[[k stmt] err]] eqn:Hrun.
  - destruct up.
    + destruct (insert_version (Version mg) (tracking tx)) as [r|msg] eqn:Hi;
        [destruct (Commit drv _) as [err|] eqn:HC|]; tx_side.
    + destruct (delete_version (Version mg) (tracking tx)) as [r|msg] eqn:Hi;
        [destruct (Commit drv _) as [err|] eqn:HC|]; tx_side.
  - apply run_statements_error in Hrun. destruct Hrun as [tx' Hrun]. tx_side.
Qed.

(** Every way [applyMigration] can end. *)
Lemma applyMigration_inv {Data : Type} (drv : Driver Data) (mg : Migration)
  (up : bool) (cv : Z) (w w' : World Data) (r : result unit) :
  applyMigration drv mg up cv w = (r, w') ->
  exists l,
    log w' = log w ++ Applying (Version mg) up :: l /\
    applied l = [] /\
    match r with
    | Ok _ =>
        ctx w <> Cancelled /\ ctx w' = after_check (ctx w) /\
        at_boundary l = true /\
        exists tx rel,
          run_statements drv
            (Strings.Split (if up then UpSQL mg else DownSQL mg) ";"%char) 0
            (db w) = inl tx /\
          (if up then insert_version (Version mg) (tracking tx)
           else delete_version (Version mg) (tracking tx)) = inl rel /\
          db w' = mkDB rel (data tx)
    | Err e =>
        db w' = db w /\
        (l = [] \/
         (exists evs, l = TxBegin :: evs ++ [TxRollback] /\
                      ~ In TxCommit evs) /\
         (reports_no_cancellation drv -> is_cancellation e = false))
    | Panic _ => False
    end.
Proof.
  intros H.
  destruct (ctx_cancelled_dec (ctx w)) as [Hc|Hc].
  { rewrite applyMigration_cancelled in H by exact Hc.
    inversion H; subst; clear H. exists []. simpl. repeat split; auto. }
  destruct (String.eqb (Strings.TrimSpace (if up then UpSQL mg else DownSQL mg)) "")
    eqn:Hb.
  { apply String.eqb_eq in Hb.
    rewrite applyMigration_blank in H by assumption.
    inversion H; subst; clear H. exists []. simpl. repeat split; auto;
      destruct up; discriminate. }
  apply String.eqb_neq in Hb.
  destruct (Begin drv (db w)) as [msg|] eqn:HB.
  { rewrite (applyMigration_begin_fails drv mg up cv w msg) in H by assumption.
    inversion H; subst; clear H. exists []. simpl. repeat split; auto. }
  rewrite applyMigration_transaction in H by assumption.
  pose proof (transaction_cases drv mg up (db w)) as Ht.
  destruct (transaction drv mg up (db w)) as [[r0 d0] evs].
  simpl in H. inversion H; subst; clear H. simpl.
  exists (TxBegin :: evs ++ [TxRollback]). split; [reflexivity|].
  destruct r as [[]|e|msg].
  - destruct Ht as (Hbd & Hap & tx & rel & Hrun & Hrec & Hd).
    split; [simpl; rewrite applied_app, Hap; reflexivity|].
    repeat split; auto.
    exists tx, rel. repeat split; assumption.
  - destruct Ht as (Hd & Hcan & Hap & Hno).
    split; [simpl; rewrite applied_app, Hap; reflexivity|].
    split; [exact Hd|]. right. split; [|exact Hcan].
    exists evs. split; [reflexivity|exact Hno].
  - destruct Ht.
Qed.

(** ** The version store *)

Lemma GetCurrentVersion_cancelled {Data : Type} (w : World Data) :
  ctx w = Cancelled ->
  GetCurrentVersion w = (Err (context_cancelled context_Canceled), w).
Proof.
  intros H. unfold GetCurrentVersion, bind.
  rewrite check_ctx_cancelled by exact H. reflexivity.
Qed.

Lemma GetCurrentVersion_live {Data : Type} (w : World Data) :
  ctx w <> Cancelled ->
  GetCurrentVersion w = (CurrentVersion (db w), checked w).
Proof.
  intros H. unfold CurrentVersion, GetCurrentVersion, bind.
  rewrite check_ctx_live by exact H.
  rewrite check_ctx_live by discriminate. unfold get_db. simpl.
  destruct (select_max (tracking (db w))) as [|code| |v]; try reflexivity.
  destruct (String.eqb code "42P01"); reflexivity.
Qed.

Lemma CurrentVersion_eq {Data : Type} (d : DB Data) :
  CurrentVersion d =
  match select_max (tracking d) with
  | ErrNoRows | Null => Ok 0
  | PgError code =>
      if String.eqb code "42P01" then Ok 0
      else Err (fmt_Errorf "failed to get current migration version: %w" []
                  (Some (external code)))
  | Value v => Ok v
  end.
Proof.
  unfold CurrentVersion, GetCurrentVersion, bind.
  rewrite !check_ctx_live by discriminate. unfold get_db. simpl.
  destruct (select_max (tracking d)) as [|code| |v]; try reflexivity.
  destruct (String.eqb code "42P01"); reflexivity.
Qed.

Lemma CurrentVersion_tracking {Data : Type} (d d' : DB Data) :
  tracking d' = tracking d -> CurrentVersion d' = CurrentVersion d.
Proof. intros H. rewrite !CurrentVersion_eq, H. reflexivity. Qed.

(** The first two steps of [Up], [Down] and [Steps]: the check of the
    context and the reading of the current version. *)
Lemma prologue {Data : Type} {A : Type} (wrap : error -> error)
  (k : Z -> M Data A) (w : World Data) :
  (check_ctx context_cancelled ;;
   currentVersion <- wrapping wrap GetCurrentVersion ;; k currentVersion) w =
  if ctx_cancelled_dec (ctx w)
  then (Err (context_cancelled context_Canceled), w)
  else if ctx_cancelled_dec (after_check (ctx w))
       then (Err (wrap (context_cancelled context_Canceled)), checked w)
       else match CurrentVersion (db w) with
            | Ok cv => k cv (checked (checked w))
            | Err e => (Err (wrap e), checked (checked w))
            | Panic msg => (Panic msg, checked (checked w))
            end.
Proof.
  unfold bind at 1.
  destruct (ctx_cancelled_dec (ctx w)) as [Hc|Hc].
  { rewrite check_ctx_cancelled by exact Hc. reflexivity. }
  rewrite check_ctx_live by exact Hc. fold (checked w).
  unfold bind, wrapping.
  destruct (ctx_cancelled_dec (after_check (ctx w))) as [Hc'|Hc'].
  { rewrite GetCurrentVersion_cancelled by exact Hc'. reflexivity. }
  rewrite GetCurrentVersion_live by exact Hc'. simpl.
  destruct (CurrentVersion (db w)); reflexivity.
Qed.

(** ** Failure of a statement *)

Lemma run_statements_failure {Data : Type} (drv : Driver Data)
  (statements : list string) :
  forall (i : Z) (tx : DB Data) (k : Z) (stmt : string) (err : error),
    run_statements drv statements i tx = inr (k, stmt, err) ->
    i < k <= i + Z.of_nat (List.length statements) /\
    exists piece,
      nth_error statements (Z.to_nat (k - i - 1)) = Some piece /\
      stmt = Strings.TrimSpace piece /\ stmt <> "".
Proof.
  induction statements as [|s rest IH]; intros i tx k stmt msg H.
  - discriminate H.
  - cbn [run_statements] in H.
    assert (Hlen : Z.of_nat (List.length (s :: rest))
                   = 1 + Z.of_nat (List.length rest))
      by (cbn [List.length]; lia).
    rewrite Hlen.
    destruct (String.eqb (Strings.TrimSpace s) "") eqn:Hs.
    + apply IH in H. destruct H as (Hk & piece & Hn & Ht & Hne).
      split; [lia|]. exists piece.
      replace (Z.to_nat (k - i - 1)) with (S (Z.to_nat (k - (i + 1) - 1)))
        by lia.
      auto.
    + destruct (Exec drv (Strings.TrimSpace s) tx) as [tx'|m].
      * apply IH in H. destruct H as (Hk & piece & Hn & Ht & Hne).
        split; [lia|]. exists piece.
        replace (Z.to_nat (k - i - 1)) with (S (Z.to_nat (k - (i + 1) - 1)))
          by lia.
        auto.
      * inversion H; subst; clear H. split; [lia|]. exists s.
        replace (Z.to_nat (i + 1 - i - 1)) with O by lia.
        apply String.eqb_neq in Hs. auto.
Qed.

(** C2, as amended.  When a statement of the script selected for the
    direction fails, [applyMigration] returns the error built at the
    statement loop, whose arguments are the version of the migration, the
    number [k] of the failing piece of the script (counted from 1 over the
    pieces between semicolons) and the text of the statement; the
    direction is not among them.  Nothing is committed: the log shows the
    transaction begun and rolled back, the database is the one the call
    found, and so [CurrentVersion()] reads what it read before. *)
Theorem script_failure_is_reported_and_rolled_back {Data : Type}
  (drv : Driver Data) (mg : Migration) (up : bool) (cv : Z) (w : World Data)
  (k : Z) (stmt : string) (err : error) :
  let script := if up then UpSQL mg else DownSQL mg in
  let pieces := Strings.Split script ";"%char in
  ctx w <> Cancelled ->
  ~ blank script ->
  Begin drv (db w) = None ->
  run_statements drv pieces 0 (db w) = inr (k, stmt, err) ->
  exists w',
    applyMigration drv mg up cv w
    = (Err (ScriptExecutionError (Version mg) k stmt err), w') /\
    (1 <= k <= Z.of_nat (List.length pieces) /\
     exists piece, nth_error pieces (Z.to_nat (k - 1)) = Some piece /\
                   stmt = Strings.TrimSpace piece) /\
    (exists evs,
        log w' = log w ++ [Applying (Version mg) up; TxBegin] ++ evs
                   ++ [TxRollback] /\
        ~ In TxCommit evs) /\
    db w' = db w /\
    CurrentVersion (db w') = CurrentVersion (db w).
Proof.
  intros script pieces Hc Hb HB Hrun.
  rewrite applyMigration_transaction by assumption.
  pose proof (transaction_cases drv mg up (db w)) as Ht.
  unfold transaction in *. fold script pieces in Ht |- *.
  rewrite Hrun in *. simpl in *.
  eexists. split; [reflexivity|]. simpl.
  apply run_statements_failure in Hrun.
  destruct Hrun as (Hk & piece & Hn & Hs & _).
  split.
  { split; [lia|]. exists piece.
    replace (k - 1) with (k - 0 - 1) by lia. auto. }
  split.
  { eexists. split; [reflexivity|]. apply Ht. }
  auto.
Qed.

Lemma script_failure_witness :
  exists w',
    applyMigration Scenario.driver
      (mkMigration 3 "CREATE TABLE c; FAIL constraint" "DROP TABLE c") true 2
      (Scenario.at_version [2; 1; 0] Background)
    = (Err (ScriptExecutionError 3 2 "FAIL constraint"
              (external "syntax error")), w') /\
    (1 <= 2 <= 2 /\
     exists piece,
       nth_error ["CREATE TABLE c"; " FAIL constraint"] 1 = Some piece /\
       "FAIL constraint" = Strings.TrimSpace piece) /\
    (exists evs,
        log w' = [] ++ [Applying 3 true; TxBegin] ++ evs ++ [TxRollback] /\
        ~ In TxCommit evs) /\
    db w' = mkDB (Rows [2; 1; 0]) [] /\
    CurrentVersion (db w') = Ok 2.
Proof.
  apply (script_failure_is_reported_and_rolled_back Scenario.driver
           (mkMigration 3 "CREATE TABLE c; FAIL constraint" "DROP TABLE c")
           true 2 (Scenario.at_version [2; 1; 0] Background)
           2 "FAIL constraint" (external "syntax error")).
  - discriminate.
  - vm_compute. discriminate.
  - reflexivity.
  - reflexivity.
Defined.

(** C2, as stated, does not hold: the error of a failing statement does not
    name the direction.  Applying [Scenario.twin] upward and downward fails
    with one and the same error, so that no reading of the error can tell
    the two directions apart. *)
Lemma script_error_does_not_name_direction :
  ~ exists direction_of : error -> bool,
      forall (mg : Migration) (up : bool) (cv : Z)
             (w w' : World (list string)) (e : error),
        applyMigration Scenario.driver mg up cv w = (Err e, w') ->
        is_script_error e = true ->
        direction_of e = up.
Proof.
  intros [direction_of H].
  pose proof (H Scenario.twin true 2
                (Scenario.at_version [2; 1; 0] Background) _ _
                eq_refl eq_refl) as Hup.
  pose proof (H Scenario.twin false 3
                (Scenario.at_version [3; 2; 1; 0] Background) _ _
                eq_refl eq_refl) as Hdown.
  cbv in Hup, Hdown. congruence.
Qed.

(** ** Slices *)

Lemma index_Some {A : Type} (l : list A) (i : Z) (x : A) :
  index l i = Some x ->
  0 <= i < Z.of_nat (List.length l) /\ nth_error l (Z.to_nat i) = Some x.
Proof.
  unfold index. intros H.
  destruct ((0 <=? i) && (i <? Z.of_nat (List.length l))) eqn:Hr;
    [|discriminate].
  apply andb_true_iff in Hr. destruct Hr as [H0 H1].
  apply Z.leb_le in H0. apply Z.ltb_lt in H1. auto.
Qed.

Lemma index_in_range {A : Type} (l : list A) (i : Z) :
  0 <= i < Z.of_nat (List.length l) -> exists x, index l i = Some x.
Proof.
  intros [H0 H1]. unfold index.
  apply Z.leb_le in H0 as H0'. apply Z.ltb_lt in H1 as H1'.
  rewrite H0', H1'. simpl.
  destruct (nth_error l (Z.to_nat i)) as [x|] eqn:Hn; [eauto|].
  apply nth_error_None in Hn. lia.
Qed.

Lemma update_nth_length {A : Type} (f : A -> A) (l : list A) :
  forall n, List.length (update_nth l n f) = List.length l.
Proof.
  induction l as [|x l IH]; intros [|n]; simpl; auto.
Qed.

Lemma update_nth_same {A : Type} (f : A -> A) (l : list A) :
  forall n x, nth_error l n = Some x ->
              nth_error (update_nth l n f) n = Some (f x).
Proof.
  induction l as [|y l IH]; intros [|n] x H; simpl in *;
    try discriminate; [congruence | auto].
Qed.

Lemma update_nth_other {A : Type} (f : A -> A) (l : list A) :
  forall n j, j <> n -> nth_error (update_nth l n f) j = nth_error l j.
Proof.
  induction l as [|y l IH]; intros [|n] [|j] H; simpl; auto; congruence.
Qed.

(** ** The loop of [Up] *)

Section UpLoop.

Variable Data : Type.
Variable drv : Driver Data.
Variable m : Migrator.

Lemma up_loop_done (fuel : nat) (version cv : Z) (w : World Data) :
  len_migrations m <= version ->
  up_loop drv m fuel version cv w = (Ok tt, w).
Proof.
  intros H. destruct fuel; simpl; [reflexivity|].
  apply Z.ltb_ge in H. rewrite H. reflexivity.
Qed.

Lemma up_loop_panic (fuel : nat) (version cv : Z) (w : World Data) :
  version < len_migrations m ->
  index (migrations m) version = None ->
  up_loop drv m (S fuel) version cv w
  = (Panic "runtime error: index out of range", w).
Proof.
  intros H Hi. simpl. apply Z.ltb_lt in H. rewrite H.
  unfold bind, at_index. rewrite Hi. reflexivity.
Qed.

Lemma up_loop_cancelled (fuel : nat) (version cv : Z) (w : World Data)
  (mg : Migration) :
  version < len_migrations m ->
  index (migrations m) version = Some mg ->
  ctx w = Cancelled ->
  up_loop drv m (S fuel) version cv w
  = (Err (cancelled_while_applying version context_Canceled), w).
Proof.
  intros H Hi Hc. simpl. apply Z.ltb_lt in H. rewrite H.
  unfold bind at 1. unfold at_index. rewrite Hi. unfold ret.
  unfold bind at 1. rewrite check_ctx_cancelled by exact Hc. reflexivity.
Qed.

Lemma up_loop_step (fuel : nat) (version cv : Z) (w : World Data)
  (mg : Migration) :
  version < len_migrations m ->
  index (migrations m) version = Some mg ->
  ctx w <> Cancelled ->
  up_loop drv m (S fuel) version cv w =
  match applyMigration drv mg true cv
          (logged (Printf "Applying migration %d...\n" [Int version])
             (checked w))
  with
  | (Ok _, w1) =>
      up_loop drv m fuel (version + 1) version
        (logged (Printf "Migration %d applied successfully\n" [Int version])
           w1)
  | (Err e, w1) => (Err (failed_to_apply version e), w1)
  | (Panic msg, w1) => (Panic msg, w1)
  end.
Proof.
  intros H Hi Hc. cbn [up_loop]. apply Z.ltb_lt in H. rewrite H.
  unfold bind at 1. unfold at_index. rewrite Hi. unfold ret.
  unfold bind at 1. rewrite check_ctx_live by exact Hc.
  unfold bind at 1. unfold emit at 1. cbn [db ctx log].
  unfold bind at 1. unfold wrapping.
  fold (checked w).
  change (mkWorld (db w) (after_check (ctx w))
            (log w ++ [Printf "Applying migration %d...\n" [Int version]]))
    with (logged (Printf "Applying migration %d...\n" [Int version])
            (checked w)).
  destruct (applyMigration drv mg true cv _) as [[[]|e|msg] w1];
    try reflexivity.
Qed.

End UpLoop.

(** ** The relation [migrations] under the engine's statements *)

Lemma fold_max_ge (x : Z) (l : list Z) : x <= fold_right Z.max x l.
Proof. induction l as [|a l IH]; simpl; lia. Qed.

Lemma fold_max_in (x y : Z) (l : list Z) :
  In y l -> y <= fold_right Z.max x l.
Proof.
  induction l as [|a l IH]; simpl; [tauto|].
  intros [->|H]; [lia|]. specialize (IH H). lia.
Qed.

Lemma fold_max_below (x : Z) (l : list Z) :
  (forall y, In y l -> y <= x) -> fold_right Z.max x l = x.
Proof.
  induction l as [|a l IH]; simpl; intros H; [reflexivity|].
  rewrite IH by auto. specialize (H a (or_introl eq_refl)). lia.
Qed.

Lemma mem_In (v : Z) (vs : list Z) : mem v vs = true <-> In v vs.
Proof.
  unfold mem. rewrite existsb_exists. split.
  - intros (x & Hx & He). apply Z.eqb_eq in He. subst. exact Hx.
  - intros H. exists v. split; [exact H | apply Z.eqb_refl].
Qed.

Lemma CurrentVersion_after_insert {Data : Type} (d : DB Data) (cv x : Z)
  (rel : relation) (dat : Data) :
  CurrentVersion d = Ok cv ->
  cv < x ->
  insert_version x (tracking d) = inl rel ->
  CurrentVersion (mkDB rel dat) = Ok x.
Proof.
  rewrite !CurrentVersion_eq. cbn [tracking].
  destruct (tracking d) as [|code|[|a l]];
    cbn [select_max insert_version]; try discriminate.
  - intros _ _ H. inversion H; subst. reflexivity.
  - intros Hcv Hlt H. inversion Hcv; subst cv; clear Hcv.
    assert (Hall : forall y, In y (a :: l) -> y <= maximum a l).
    { intros y [->|Hy]; [apply fold_max_ge | apply fold_max_in; exact Hy]. }
    assert (Hm : mem x (a :: l) = false).
    { destruct (mem x (a :: l)) eqn:Hm; [|reflexivity].
      apply mem_In in Hm. apply Hall in Hm. lia. }
    rewrite Hm in H. inversion H; subst. cbn [select_max]. f_equal.
    unfold maximum. apply fold_max_below.
    intros y Hy. apply Hall in Hy. lia.
Qed.

Lemma run_statements_tracking {Data : Type} (drv : Driver Data)
  (statements : list string) :
  forall (i : Z) (tx tx' : DB Data),
    (forall stmt d d',
        In stmt (map Strings.TrimSpace statements) ->
        Exec drv stmt d = inl d' -> tracking d' = tracking d) ->
    run_statements drv statements i tx = inl tx' ->
    tracking tx' = tracking tx.
Proof.
  induction statements as [|s rest IH]; intros i tx tx' Hk H; simpl in *.
  - inversion H; reflexivity.
  - destruct (String.eqb (Strings.TrimSpace s) "").
    + eapply IH; eauto.
    + destruct (Exec drv (Strings.TrimSpace s) tx) as [tx1|msg] eqn:He;
        [|discriminate].
      transitivity (tracking tx1); [eapply IH; eauto|].
      eapply Hk; eauto.
Qed.

(** ** [Up] reaches the last version *)

Section UpReaches.

Variable Data : Type.
Variable drv : Driver Data.
Variable m : Migrator.

Hypothesis in_place :
  forall i mg, index (migrations m) i = Some mg -> Version mg = i.

Lemma up_loop_reaches (fuel : nat) :
  forall (version cv : Z) (w w' : World Data),
    fuel = Z.to_nat (len_migrations m - version) ->
    0 <= version ->
    cv = version - 1 ->
    CurrentVersion (db w) = Ok cv ->
    (forall i mg, version <= i -> index (migrations m) i = Some mg ->
                  keeps_tracking drv (UpSQL mg)) ->
    up_loop drv m fuel version cv w = (Ok tt, w') ->
    CurrentVersion (db w') = Ok (Z.max cv (maxVersion m)).
Proof.
  unfold maxVersion.
  induction fuel as [|fuel IH]; intros version cv w w' Hf H0 Hv Hcv Hk Hrun.
  - rewrite up_loop_done in Hrun by lia. inversion Hrun; subst.
    rewrite Hcv. f_equal. lia.
  - assert (Hlt : version < len_migrations m) by lia.
    destruct (index_in_range (migrations m) version) as [mg Hi];
      [unfold len_migrations in Hlt; lia|].
    destruct (ctx_cancelled_dec (ctx w)) as [Hc|Hc].
    { rewrite (up_loop_cancelled _ _ _ _ _ _ _ mg) in Hrun by assumption.
      discriminate. }
    rewrite (up_loop_step _ _ _ _ _ _ _ mg) in Hrun by assumption.
    destruct (applyMigration drv mg true cv _)
      as [[[]|e|msg] w1] eqn:Ha; try discriminate.
    apply applyMigration_inv in Ha.
    destruct Ha as (l & _ & _ & _ & _ & _ & tx & rel & Hr & Hins & Hdb).
    simpl in Hr, Hins.
    apply IH in Hrun; try lia.
    + rewrite Hrun. f_equal. lia.
    + simpl. rewrite Hdb.
      apply (CurrentVersion_after_insert (db w) cv version);
        [exact Hcv | lia |].
      rewrite <- (in_place _ _ Hi) at 1.
      erewrite <- run_statements_tracking; [exact Hins| |exact Hr].
      intros stmt d d' Hin He. eapply (Hk version mg); eauto. lia.
    + intros i mg' Hle. apply Hk. lia.
Qed.

End UpReaches.

(** ** What the loader establishes *)

Lemma slots_ok_update (f : Migration -> Migration) (ms : list Migration)
  (n : nat) (x : Migration) :
  slots_ok ms ->
  nth_error ms n = Some x ->
  Version (f x) = Z.of_nat n ->
  slots_ok (update_nth ms n f).
Proof.
  intros Hs Hn Hv j mg Hj.
  destruct (Nat.eq_dec j n) as [->|Hne].
  - rewrite (update_nth_same f ms n x Hn) in Hj. inversion Hj; subst. auto.
  - rewrite update_nth_other in Hj by exact Hne. eapply Hs; eassumption.
Qed.

Lemma Migration_eqb_zero (x : Migration) :
  Migration_eqb x Migration_zero = false -> x <> Migration_zero.
Proof. intros H ->. discriminate H. Qed.

Section LoaderInvariant.

Variable MIGRATIONS_DIR : string.

Lemma load_entries_inv (entries : list DirEntry) :
  forall (ms : list Migration) (maxV : Z) (ms' : list Migration) (maxV' : Z),
    slots_ok ms ->
    -1 <= maxV < Z.of_nat (List.length ms) ->
    load_entries MIGRATIONS_DIR entries ms maxV = Ok (ms', maxV') ->
    slots_ok ms' /\ -1 <= maxV' < Z.of_nat (List.length ms').
Proof.
  induction entries as [|entry rest IH]; intros ms maxV ms' maxV' Hs Hm H.
  - simpl in H. inversion H; subst. auto.
  - cbn [load_entries] in H.
    destruct (IsDir entry); [eapply IH; eassumption|].
    destruct (Strings.len (Name entry) <? 6); [eapply IH; eassumption|].
    destruct (Strconv.Atoi _) as [version|]; [|eapply IH; eassumption].
    destruct (direction_of_name (Name entry)) as [isUp|];
      [|eapply IH; eassumption].
    destruct (index ms version) as [current|] eqn:Hi; [|discriminate].
    destruct (ReadFile entry) as [content|msg]; [|discriminate].
    apply index_Some in Hi. destruct Hi as [Hr Hn].
    set (ms1 := if Migration_eqb current Migration_zero
                then update ms version (set_Version version) else ms) in *.
    assert (H1 : slots_ok ms1 /\ List.length ms1 = List.length ms /\
                 exists c, nth_error ms1 (Z.to_nat version) = Some c /\
                           Version c = version).
    { subst ms1. destruct (Migration_eqb current Migration_zero) eqn:He.
      - unfold update. split; [|split].
        + eapply slots_ok_update; [eassumption..|]. simpl. lia.
        + apply update_nth_length.
        + eexists. split; [eapply update_nth_same; eassumption|].
          reflexivity.
      - split; [assumption|]. split; [reflexivity|].
        exists current. split; [assumption|].
        apply Migration_eqb_zero in He.
        destruct (Hs _ _ Hn) as [Hz|Hv]; [contradiction|]. lia. }
    destruct H1 as (Hs1 & Hl1 & c & Hc & Hvc).
    eapply IH in H; [exact H| |].
    + destruct isUp; unfold update;
        (eapply slots_ok_update; [eassumption..|]); simpl; lia.
    + destruct isUp; unfold update; rewrite update_nth_length, Hl1;
        destruct (version >? maxV) eqn:Hg; lia.
Qed.

Lemma validate_ok (fuel : nat) (ms : list Migration) (maxV : Z) :
  forall version,
    fuel = Z.to_nat (maxV + 1 - version) ->
    validate fuel ms version maxV = Ok tt ->
    forall i, version <= i <= maxV ->
              exists mg, index ms i = Some mg /\ UpSQL mg <> "".
Proof.
  induction fuel as [|fuel IH]; intros version Hf H i Hi.
  - lia.
  - cbn [validate] in H.
    assert (Hle : (version <=? maxV) = true) by (apply Z.leb_le; lia).
    rewrite Hle in H.
    destruct (index ms version) as [mg|] eqn:Hx; [|discriminate].
    destruct (String.eqb (UpSQL mg) "") eqn:Hu; [discriminate|].
    destruct (Z.eq_dec i version) as [->|Hne].
    + exists mg. split; [assumption|]. apply String.eqb_neq. exact Hu.
    + apply (IH (version + 1)); [lia | exact H | lia].
Qed.

(** A set that [loadMigrations] returns is well formed: it is not empty,
    and the migration at index [i] has version [i] and an up-script. *)
Lemma loadMigrations_well_formed (dir : directory) (ms : list Migration) :
  loadMigrations MIGRATIONS_DIR dir = Ok ms -> well_formed ms.
Proof.
  unfold loadMigrations. destruct dir as [msg|entries]; [discriminate|].
  destruct (load_entries _ entries _ (-1)) as [[ms0 maxV]|e|msg] eqn:Hl;
    try discriminate.
  apply load_entries_inv in Hl.
  2:{ intros n mg Hn. left. apply nth_error_In in Hn.
      apply repeat_spec in Hn. exact Hn. }
  2:{ rewrite repeat_length.
      pose proof (Z.quot_pos (Z.of_nat (List.length entries)) 2). lia. }
  destruct Hl as [Hs Hm].
  destruct (maxV =? -1) eqn:Hneg; [discriminate|].
  apply Z.eqb_neq in Hneg.
  destruct (validate _ ms0 0 maxV) as [[]|e|msg] eqn:Hv; try discriminate.
  intros H. inversion H; subst ms; clear H.
  pose proof (validate_ok _ ms0 maxV 0 ltac:(rewrite Z.sub_0_r; reflexivity) Hv)
    as Hall.
  assert (Hlen : List.length (firstn (Z.to_nat (maxV + 1)) ms0)
                 = Z.to_nat (maxV + 1))
    by (rewrite length_firstn; lia).
  split.
  - intros Hnil. rewrite Hnil in Hlen. simpl in Hlen. lia.
  - intros i mg Hi. apply index_Some in Hi. destruct Hi as [Hr Hn].
    rewrite Hlen in Hr.
    rewrite nth_error_firstn in Hn.
    destruct (Nat.ltb_spec (Z.to_nat i) (Z.to_nat (maxV + 1))); [|discriminate].
    destruct (Hall i ltac:(lia)) as (mg' & Hi' & Hu).
    apply index_Some in Hi'. destruct Hi' as [_ Hn'].
    assert (mg' = mg) by congruence. subst mg'.
    split; [|exact Hu].
    destruct (Hs _ _ Hn) as [Hz|Hv']; [|lia].
    subst mg. elim Hu. reflexivity.
Qed.

End LoaderInvariant.




(** ** The backward loop of [Steps] *)

Lemma neg_of_negative (k : Z) :
  0 < k <= GoInt.max_int -> GoInt.neg (- k) = k.
Proof.
  unfold GoInt.neg, GoInt.wrap, GoInt.max_int. intros H.
  rewrite Z.opp_involutive. rewrite Z.mod_small; lia.
Qed.

Section Backward.

Variable Data : Type.
Variable drv : Driver Data.
Variable m : Migrator.

Lemma find_migration_version (cv : Z) (mg : Migration) :
  find_migration m cv = Some mg -> Version mg = cv.
Proof.
  unfold find_migration. intros H. apply find_some in H.
  destruct H as [_ H]. apply Z.eqb_eq in H. exact H.
Qed.

Lemma steps_backward_done (fuel : nat) (rc i cv : Z) (w : World Data) :
  rc <= i -> steps_backward drv m fuel rc i cv w = (Ok tt, w).
Proof.
  intros H. destruct fuel; simpl; [reflexivity|].
  apply Z.ltb_ge in H. rewrite H. reflexivity.
Qed.

Lemma steps_backward_at_zero (fuel : nat) (rc i : Z) (w : World Data) :
  i < rc ->
  steps_backward drv m (S fuel) rc i 0 w = (Err NoMigrationsError, w).
Proof.
  intros H. simpl. apply Z.ltb_lt in H. rewrite H. reflexivity.
Qed.

Lemma steps_backward_step (fuel : nat) (rc i cv : Z) (w : World Data) :
  i < rc -> cv <> 0 ->
  steps_backward drv m (S fuel) rc i cv w =
  if ctx_cancelled_dec (ctx w)
  then (Err (cancelled_while_rolling_back cv context_Canceled), w)
  else
    match find_migration m cv with
    | None =>
        (Err (fmt_Errorf "migration %d not found in loaded migrations"
                [Int cv] None), checked w)
    | Some mg =>
        if String.eqb (Strings.TrimSpace (DownSQL mg)) ""
        then (Err (NotRevertibleError cv), checked w)
        else
          match applyMigration drv mg false cv (checked w) with
          | (Ok _, w1) =>
              steps_backward drv m fuel rc (i + 1) (Version mg - 1) w1
          | (Err e, w1) => (Err (failed_to_rollback cv e), w1)
          | (Panic msg, w1) => (Panic msg, w1)
          end
    end.
Proof.
  intros H Hcv. cbn [steps_backward].
  apply Z.ltb_lt in H. rewrite H. apply Z.eqb_neq in Hcv. rewrite Hcv.
  unfold bind at 1.
  destruct (ctx_cancelled_dec (ctx w)) as [Hc|Hc].
  { rewrite check_ctx_cancelled by exact Hc. reflexivity. }
  rewrite check_ctx_live by exact Hc. fold (checked w).
  destruct (find_migration m cv) as [mg|]; [|reflexivity].
  destruct (String.eqb (Strings.TrimSpace (DownSQL mg)) ""); [reflexivity|].
  unfold bind, wrapping.
  destruct (applyMigration drv mg false cv (checked w)) as [[[]|e|msg] w1];
    reflexivity.
Qed.

(** A run of the loop that has more iterations to make than another one
    that succeeded goes through the same iterations first. *)
Lemma steps_backward_prefix (n : nat) :
  forall (fuel : nat) (rc i rc1 i1 cv : Z) (w w1 : World Data),
    rc1 - i1 = Z.of_nat n ->
    (n <= fuel)%nat ->
    Z.of_nat n <= rc - i ->
    steps_backward drv m n rc1 i1 cv w = (Ok tt, w1) ->
    steps_backward drv m fuel rc i cv w
    = steps_backward drv m (fuel - n) rc (i + Z.of_nat n)
        (cv - Z.of_nat n) w1.
Proof.
  induction n as [|n IH]; intros fuel rc i rc1 i1 cv w w1 H1 Hf Hrc Hrun.
  - simpl in Hrun. inversion Hrun; subst.
    rewrite Nat.sub_0_r. simpl. rewrite Z.add_0_r, Z.sub_0_r. reflexivity.
  - destruct fuel as [|fuel]; [lia|].
    destruct (Z.eq_dec cv 0) as [->|Hcv].
    { rewrite steps_backward_at_zero in Hrun by lia. discriminate. }
    rewrite steps_backward_step in Hrun by lia.
    rewrite steps_backward_step by lia.
    destruct (ctx_cancelled_dec (ctx w)); [discriminate|].
    destruct (find_migration m cv) as [mg|] eqn:Hfind; [|discriminate].
    destruct (String.eqb (Strings.TrimSpace (DownSQL mg)) "");
      [discriminate|].
    destruct (applyMigration drv mg false cv (checked w))
      as [[[]|e|msg] w2]; try discriminate.
    rewrite (IH fuel rc (i + 1) rc1 (i1 + 1) (Version mg - 1) w2 w1)
      by (try assumption; lia).
    apply find_migration_version in Hfind. rewrite Hfind.
    cbn [Nat.sub]. f_equal; lia.
Qed.

Lemma Steps_backward_eq (k : Z) (w : World Data) :
  0 < k <= GoInt.max_int ->
  Steps drv m (- k) w =
  if ctx_cancelled_dec (ctx w)
  then (Err (context_cancelled context_Canceled), w)
  else if ctx_cancelled_dec (after_check (ctx w))
       then (Err (fmt_Errorf
                    "failed to get current version before executing steps: %w"
                    [] (Some (context_cancelled context_Canceled))),
             checked w)
       else match CurrentVersion (db w) with
            | Ok cv =>
                steps_backward drv m (Z.to_nat k) k 0 cv
                  (checked (checked w))
            | Err e =>
                (Err (fmt_Errorf
                        "failed to get current version before executing steps: %w"
                        [] (Some e)),
                 checked (checked w))
            | Panic msg => (Panic msg, checked (checked w))
            end.
Proof.
  intros Hk. unfold Steps. rewrite prologue.
  destruct (ctx_cancelled_dec (ctx w)); [reflexivity|].
  destruct (ctx_cancelled_dec (after_check (ctx w))); [reflexivity|].
  destruct (CurrentVersion (db w)); try reflexivity.
  assert (H1 : (- k >? 0) = false) by lia.
  assert (H2 : (- k <? 0) = true) by lia.
  rewrite H1, H2, neg_of_negative by exact Hk. reflexivity.
Qed.

Lemma Steps_zero_eq (w : World Data) :
  Steps drv m 0 w =
  if ctx_cancelled_dec (ctx w)
  then (Err (context_cancelled context_Canceled), w)
  else if ctx_cancelled_dec (after_check (ctx w))
       then (Err (fmt_Errorf
                    "failed to get current version before executing steps: %w"
                    [] (Some (context_cancelled context_Canceled))),
             checked w)
       else match CurrentVersion (db w) with
            | Ok cv => (Ok tt, checked (checked w))
            | Err e =>
                (Err (fmt_Errorf
                        "failed to get current version before executing steps: %w"
                        [] (Some e)),
                 checked (checked w))
            | Panic msg => (Panic msg, checked (checked w))
            end.
Proof.
  unfold Steps. rewrite prologue.
  destruct (ctx_cancelled_dec (ctx w)); [reflexivity|].
  destruct (ctx_cancelled_dec (after_check (ctx w))); [reflexivity|].
  destruct (CurrentVersion (db w)); reflexivity.
Qed.

(** [Steps(-k)] after [j < k] rollbacks that succeed: it goes on from the
    world that [Steps(-j)] leaves, at the version [j] below the one it
    started from. *)
Lemma Steps_backward_continues (j k c : Z) (w w1 : World Data) :
  0 <= j < k -> k <= GoInt.max_int ->
  CurrentVersion (db w) = Ok c ->
  Steps drv m (- j) w = (Ok tt, w1) ->
  Steps drv m (- k) w
  = steps_backward drv m (Z.to_nat k - Z.to_nat j) k j (c - j) w1.
Proof.
  intros Hj Hk Hc Hrun.
  rewrite (Steps_backward_eq k) by lia.
  destruct (Z.eq_dec j 0) as [->|Hj0].
  - simpl in Hrun. rewrite Steps_zero_eq in Hrun.
    destruct (ctx_cancelled_dec (ctx w)); [discriminate|].
    destruct (ctx_cancelled_dec (after_check (ctx w))); [discriminate|].
    rewrite Hc in *. inversion Hrun; subst.
    rewrite Nat.sub_0_r, Z.sub_0_r. reflexivity.
  - rewrite (Steps_backward_eq j) in Hrun by lia.
    destruct (ctx_cancelled_dec (ctx w)); [discriminate|].
    destruct (ctx_cancelled_dec (after_check (ctx w))); [discriminate|].
    rewrite Hc in *.
    rewrite (steps_backward_prefix (Z.to_nat j) (Z.to_nat k) k 0 j 0 c
               _ w1) by (try exact Hrun; lia).
    f_equal; lia.
Qed.

End Backward.

(** ** Running out of history, and scripts that cannot be reverted *)

Lemma Down_eq {Data : Type} (drv : Driver Data) (m : Migrator)
  (w : World Data) (c : Z) :
  ctx w <> Cancelled -> after_check (ctx w) <> Cancelled ->
  CurrentVersion (db w) = Ok c ->
  Down drv m w =
  if c =? 0 then (Err NoMigrationsError, checked (checked w))
  else
    match find_migration m c with
    | None =>
        (Err (fmt_Errorf "migration %d not found in loaded migrations"
                [Int c] None), checked (checked w))
    | Some mg =>
        if String.eqb (Strings.TrimSpace (DownSQL mg)) ""
        then (Err (NotRevertibleError c), checked (checked w))
        else
          (emit (Printf "Rolling back migration %d...\n" [Int c]) ;;
           applyMigration drv mg false c ;;
           emit (Printf "Migration %d rolled back successfully\n" [Int c]))
            (checked (checked w))
    end.
Proof.
  intros H1 H2 Hc. unfold Down. rewrite prologue.
  destruct (ctx_cancelled_dec (ctx w)); [contradiction|].
  destruct (ctx_cancelled_dec (after_check (ctx w))); [contradiction|].
  rewrite Hc. destruct (c =? 0); [reflexivity|].
  destruct (find_migration m c) as [mg|]; [|reflexivity].
  destruct (String.eqb (Strings.TrimSpace (DownSQL mg)) ""); reflexivity.
Qed.

(** C4.  With the current version at 0 and a live context, [Down] fails
    with the error "no migrations to rollback" and leaves the database and
    the log as they were.  And for every [k > 0] ([k] an [int]) and a
    current version [c < k]: when the [c] rollbacks that the history allows
    succeed, as they do in [Steps(-c)], then [Steps(-k)] fails with that
    same error, and the world it leaves is the very one [Steps(-c)] leaves:
    the [c] rollbacks stay committed and nothing is called after the
    version has reached 0. *)
Theorem no_migrations_to_roll_back {Data : Type} (drv : Driver Data)
  (m : Migrator) :
  (forall w : World Data,
      ctx w <> Cancelled -> after_check (ctx w) <> Cancelled ->
      CurrentVersion (db w) = Ok 0 ->
      exists w',
        Down drv m w = (Err NoMigrationsError, w') /\
        db w' = db w /\ log w' = log w) /\
  (forall (k c : Z) (w w1 : World Data),
      0 <= c < k -> k <= GoInt.max_int ->
      CurrentVersion (db w) = Ok c ->
      Steps drv m (- c) w = (Ok tt, w1) ->
      Steps drv m (- k) w = (Err NoMigrationsError, w1)).
Proof.
  split.
  - intros w H1 H2 Hc. rewrite (Down_eq drv m w 0) by assumption.
    simpl. eexists. split; [reflexivity|]. split; reflexivity.
  - intros k c w w1 Hck Hk Hc Hrun.
    rewrite (Steps_backward_continues Data drv m c k c w w1)
      by (try assumption; lia).
    replace (c - c) with 0 by lia.
    destruct (Z.to_nat k - Z.to_nat c)%nat as [|fuel] eqn:Hf; [lia|].
    apply steps_backward_at_zero. lia.
Qed.

Lemma no_migrations_to_roll_back_witness :
  (exists w',
      Down Scenario.driver Scenario.four Scenario.at_zero
      = (Err NoMigrationsError, w') /\
      db w' = db Scenario.at_zero /\ log w' = log Scenario.at_zero) /\
  Steps Scenario.driver Scenario.four (- 5)
    (Scenario.at_version [2; 1; 0] Background)
  = (Err NoMigrationsError,
     snd (Steps Scenario.driver Scenario.four (- 2)
            (Scenario.at_version [2; 1; 0] Background))).
Proof.
  destruct (no_migrations_to_roll_back Scenario.driver Scenario.four)
    as [HDown HSteps].
  split.
  - apply HDown; [discriminate | discriminate | vm_compute; reflexivity].
  - apply (HSteps 5 2).
    + lia.
    + vm_compute. discriminate.
    + vm_compute. reflexivity.
    + vm_compute. reflexivity.
Defined.

(** C5.  A migration whose down-script is blank is not rolled back.  When
    it is the migration of the current version, [Down] fails with the
    error "does not have a down.sql file or it is empty"; when [Steps(-k)]
    reaches it after [j < k] rollbacks that succeeded, [Steps] fails with
    that error for that version; and [applyMigration] itself, asked for
    the down direction, fails with "has empty down.sql content".  In each
    case no call is made to the database: the database is unchanged, and the
    log gains nothing ([Down], [Steps]) or only the record of the call of
    [applyMigration]. *)
Theorem blank_down_script_is_not_reverted {Data : Type} (drv : Driver Data)
  (m : Migrator) :
  (forall (w : World Data) (c : Z) (mg : Migration),
      ctx w <> Cancelled -> after_check (ctx w) <> Cancelled ->
      CurrentVersion (db w) = Ok c -> c <> 0 ->
      find_migration m c = Some mg -> blank (DownSQL mg) ->
      exists w',
        Down drv m w = (Err (NotRevertibleError c), w') /\
        db w' = db w /\ log w' = log w) /\
  (forall (j k c : Z) (w w1 : World Data) (mg : Migration),
      0 <= j < k -> k <= GoInt.max_int ->
      CurrentVersion (db w) = Ok c ->
      Steps drv m (- j) w = (Ok tt, w1) ->
      ctx w1 <> Cancelled ->
      c - j <> 0 ->
      find_migration m (c - j) = Some mg -> blank (DownSQL mg) ->
      exists w',
        Steps drv m (- k) w = (Err (NotRevertibleError (c - j)), w') /\
        db w' = db w1 /\ log w' = log w1) /\
  (forall (w : World Data) (mg : Migration) (cv : Z),
      ctx w <> Cancelled -> blank (DownSQL mg) ->
      exists w',
        applyMigration drv mg false cv w
        = (Err (EmptyScriptError (Version mg) false), w') /\
        db w' = db w /\ log w' = log w ++ [Applying (Version mg) false]).
Proof.
  split; [|split].
  - intros w c mg H1 H2 Hc Hc0 Hfind Hb.
    rewrite (Down_eq drv m w c) by assumption.
    apply Z.eqb_neq in Hc0. rewrite Hc0, Hfind.
    unfold blank in Hb. rewrite Hb. simpl.
    eexists. split; [reflexivity|]. split; reflexivity.
  - intros j k c w w1 mg Hj Hk Hc Hrun Hlive Hne Hfind Hb.
    rewrite (Steps_backward_continues Data drv m j k c w w1)
      by (try assumption; lia).
    destruct (Z.to_nat k - Z.to_nat j)%nat as [|fuel] eqn:Hf; [lia|].
    rewrite steps_backward_step by lia.
    destruct (ctx_cancelled_dec (ctx w1)); [contradiction|].
    rewrite Hfind. unfold blank in Hb. rewrite Hb. simpl.
    eexists. split; [reflexivity|]. split; reflexivity.
  - intros w mg cv Hlive Hb.
    rewrite applyMigration_blank by assumption.
    eexists. split; [reflexivity|]. split; reflexivity.
Qed.

Lemma blank_down_script_witness :
  (exists w',
      Down Scenario.driver Scenario.one_way
        (Scenario.at_version [2; 1; 0] Background)
      = (Err (NotRevertibleError 2), w') /\
      db w' = mkDB (Rows [2; 1; 0]) [] /\ log w' = []) /\
  (exists w',
      Steps Scenario.driver Scenario.one_way (- 3)
        (Scenario.at_version [3; 2; 1; 0] Background)
      = (Err (NotRevertibleError (3 - 1)), w') /\
      db w' = db (snd (Steps Scenario.driver Scenario.one_way (- 1)
                         (Scenario.at_version [3; 2; 1; 0] Background))) /\
      log w' = log (snd (Steps Scenario.driver Scenario.one_way (- 1)
                           (Scenario.at_version [3; 2; 1; 0] Background)))) /\
  (exists w',
      applyMigration Scenario.driver (mkMigration 2 "CREATE TABLE b" "  ")
        false 2 (Scenario.at_version [2; 1; 0] Background)
      = (Err (EmptyScriptError 2 false), w') /\
      db w' = mkDB (Rows [2; 1; 0]) [] /\
      log w' = [] ++ [Applying 2 false]).
Proof.
  destruct (blank_down_script_is_not_reverted Scenario.driver
              Scenario.one_way) as (HDown & HSteps & HApply).
  split; [|split].
  - apply (HDown (Scenario.at_version [2; 1; 0] Background) 2
             (mkMigration 2 "CREATE TABLE b" "  "));
      try discriminate; vm_compute; reflexivity.
  - apply (HSteps 1 3 3 (Scenario.at_version [3; 2; 1; 0] Background) _
             (mkMigration 2 "CREATE TABLE b" "  "));
      try lia; try discriminate; vm_compute; try reflexivity; discriminate.
  - apply (HApply (Scenario.at_version [2; 1; 0] Background)
             (mkMigration 2 "CREATE TABLE b" "  ") 2);
      [discriminate | vm_compute; reflexivity].
Defined.

(** ** The forward loop of [Steps] *)

Section Forward.

Variable Data : Type.
Variable drv : Driver Data.
Variable m : Migrator.

Lemma steps_forward_done (fuel : nat) (steps i cv : Z) (w : World Data) :
  steps <= i \/ len_migrations m <= cv + 1 + i ->
  steps_forward drv m fuel steps i cv w = (Ok tt, w).
Proof.
  intros H. destruct fuel; simpl; [reflexivity|].
  destruct (i <? steps) eqn:H1; [|reflexivity].
  destruct (cv + 1 + i <? len_migrations m) eqn:H2; [|reflexivity].
  apply Z.ltb_lt in H1, H2. lia.
Qed.

Lemma steps_forward_panic (fuel : nat) (steps i cv : Z) (w : World Data) :
  i < steps -> cv + 1 + i < len_migrations m ->
  index (migrations m) (cv + 1 + i) = None ->
  steps_forward drv m (S fuel) steps i cv w
  = (Panic "runtime error: index out of range", w).
Proof.
  intros H1 H2 Hi. simpl.
  apply Z.ltb_lt in H1, H2. rewrite H1, H2. simpl.
  unfold bind, at_index. rewrite Hi. reflexivity.
Qed.

Lemma steps_forward_cancelled (fuel : nat) (steps i cv : Z)
  (w : World Data) (mg : Migration) :
  i < steps -> cv + 1 + i < len_migrations m ->
  index (migrations m) (cv + 1 + i) = Some mg ->
  ctx w = Cancelled ->
  steps_forward drv m (S fuel) steps i cv w
  = (Err (cancelled_while_applying (cv + 1 + i) context_Canceled), w).
Proof.
  intros H1 H2 Hi Hc. simpl.
  apply Z.ltb_lt in H1, H2. rewrite H1, H2. simpl.
  unfold bind at 1. unfold at_index. rewrite Hi. unfold ret.
  unfold bind at 1. rewrite check_ctx_cancelled by exact Hc. reflexivity.
Qed.

Lemma steps_forward_step (fuel : nat) (steps i cv : Z) (w : World Data)
  (mg : Migration) :
  i < steps -> cv + 1 + i < len_migrations m ->
  index (migrations m) (cv + 1 + i) = Some mg ->
  ctx w <> Cancelled ->
  steps_forward drv m (S fuel) steps i cv w =
  match applyMigration drv mg true cv (checked w) with
  | (Ok _, w1) => steps_forward drv m fuel steps (i + 1) (cv + 1 + i) w1
  | (Err e, w1) => (Err (failed_to_apply (cv + 1 + i) e), w1)
  | (Panic msg, w1) => (Panic msg, w1)
  end.
Proof.
  intros H1 H2 Hi Hc. cbn [steps_forward].
  apply Z.ltb_lt in H1, H2. rewrite H1, H2. cbn [andb].
  unfold bind at 1. unfold at_index. rewrite Hi. unfold ret.
  unfold bind at 1. rewrite check_ctx_live by exact Hc.
  fold (checked w). unfold bind, wrapping.
  destruct (applyMigration drv mg true cv (checked w)) as [[[]|e|msg] w1];
    reflexivity.
Qed.

Lemma Steps_forward_eq (n : Z) (w : World Data) :
  0 < n ->
  Steps drv m n w =
  if ctx_cancelled_dec (ctx w)
  then (Err (context_cancelled context_Canceled), w)
  else if ctx_cancelled_dec (after_check (ctx w))
       then (Err (fmt_Errorf
                    "failed to get current version before executing steps: %w"
                    [] (Some (context_cancelled context_Canceled))),
             checked w)
       else match CurrentVersion (db w) with
            | Ok cv =>
                steps_forward drv m (Z.to_nat n) n 0 cv (checked (checked w))
            | Err e =>
                (Err (fmt_Errorf
                        "failed to get current version before executing steps: %w"
                        [] (Some e)),
                 checked (checked w))
            | Panic msg => (Panic msg, checked (checked w))
            end.
Proof.
  intros Hn. unfold Steps. rewrite prologue.
  destruct (ctx_cancelled_dec (ctx w)); [reflexivity|].
  destruct (ctx_cancelled_dec (after_check (ctx w))); [reflexivity|].
  destruct (CurrentVersion (db w)); try reflexivity.
  assert (H1 : (n >? 0) = true) by lia. rewrite H1. reflexivity.
Qed.

End Forward.

Lemma Up_eq {Data : Type} (drv : Driver Data) (m : Migrator) (w : World Data) :
  Up drv m w =
  if ctx_cancelled_dec (ctx w)
  then (Err (context_cancelled context_Canceled), w)
  else if ctx_cancelled_dec (after_check (ctx w))
       then (Err (fmt_Errorf
                    "failed to get current version before applying migrations: %w"
                    [] (Some (context_cancelled context_Canceled))),
             checked w)
       else match CurrentVersion (db w) with
            | Ok cv =>
                up_loop drv m (Z.to_nat (len_migrations m - (cv + 1)))
                  (cv + 1) cv (checked (checked w))
            | Err e =>
                (Err (fmt_Errorf
                        "failed to get current version before applying migrations: %w"
                        [] (Some e)),
                 checked (checked w))
            | Panic msg => (Panic msg, checked (checked w))
            end.
Proof.
  unfold Up. rewrite prologue.
  destruct (ctx_cancelled_dec (ctx w)); [reflexivity|].
  destruct (ctx_cancelled_dec (after_check (ctx w))); reflexivity.
Qed.

(** ** Cancellation stops a run at a boundary *)




Section Boundaries.

Variable Data : Type.
Variable drv : Driver Data.
Variable m : Migrator.




End Boundaries.






(** ** Which versions a forward run applies *)

Lemma applies_upward_from_nil (first : Z) : applies_upward_from first [].
Proof. split; [intros v up []|left; reflexivity]. Qed.

Lemma applies_upward_from_cons (first next : Z) (before l1 l2 : list event) :
  applied before = [] -> applied l1 = [] ->
  first <= next ->
  applies_upward_from next l2 ->
  applies_upward_from first (before ++ Applying first true :: l1 ++ l2).
Proof.
  intros Hb H1 Hle [Hall _].
  assert (Heq : applied (before ++ Applying first true :: l1 ++ l2)
                = (first, true) :: applied l2).
  { rewrite applied_app, Hb. simpl. rewrite applied_app, H1. reflexivity. }
  split.
  - rewrite Heq. intros v up [Hin|Hin].
    + inversion Hin; subst. split; [reflexivity|lia].
    + apply Hall in Hin. destruct Hin. split; [assumption|lia].
  - right. rewrite Heq. eauto.
Qed.

Section Upward.

Variable Data : Type.
Variable drv : Driver Data.
Variable m : Migrator.

Hypothesis in_place :
  forall i mg, index (migrations m) i = Some mg -> Version mg = i.

Lemma up_loop_applies (fuel : nat) :
  forall (version cv : Z) (w w' : World Data) (r : result unit),
    up_loop drv m fuel version cv w = (r, w') ->
    exists l, log w' = log w ++ l /\ applies_upward_from version l.
Proof.
  induction fuel as [|fuel IH]; intros version cv w w' r H.
  - simpl in H. inversion H; subst. exists []. rewrite app_nil_r.
    split; [reflexivity|apply applies_upward_from_nil].
  - destruct (Z_lt_dec version (len_migrations m)) as [Hlt|Hge].
    2:{ rewrite up_loop_done in H by lia. inversion H; subst.
        exists []. rewrite app_nil_r.
        split; [reflexivity|apply applies_upward_from_nil]. }
    destruct (index (migrations m) version) as [mg|] eqn:Hi.
    2:{ rewrite up_loop_panic in H by assumption. inversion H; subst.
        exists []. rewrite app_nil_r.
        split; [reflexivity|apply applies_upward_from_nil]. }
    destruct (ctx_cancelled_dec (ctx w)) as [Hc|Hc].
    { rewrite (up_loop_cancelled _ _ _ _ _ _ _ mg) in H by assumption.
      inversion H; subst. exists []. rewrite app_nil_r.
      split; [reflexivity|apply applies_upward_from_nil]. }
    rewrite (up_loop_step _ _ _ _ _ _ _ mg) in H by assumption.
    destruct (applyMigration drv mg true cv _) as [r1 w1] eqn:Ha.
    apply applyMigration_inv in Ha. destruct Ha as (l1 & Hl1 & Hap1 & Hr1).
    cbn [log logged checked] in Hl1. rewrite (in_place _ _ Hi) in Hl1.
    destruct r1 as [[]|e1|msg1].
    + apply IH in H. destruct H as (l2 & Hl2 & Hr).
      cbn [log logged] in Hl2.
      exists ([Printf "Applying migration %d...\n" [Int version]]
                ++ Applying version true
                :: (l1 ++ [Printf "Migration %d applied successfully\n"
                             [Int version]]) ++ l2).
      split.
      { rewrite Hl2, Hl1. rewrite <- !app_assoc. reflexivity. }
      apply (applies_upward_from_cons version (version + 1));
        [reflexivity | rewrite applied_app, Hap1; reflexivity | lia
        | exact Hr].
    + inversion H; subst.
      exists ([Printf "Applying migration %d...\n" [Int version]]
                ++ Applying version true :: l1 ++ []).
      split.
      { rewrite Hl1, app_nil_r, <- app_assoc. reflexivity. }
      apply (applies_upward_from_cons version version);
        [reflexivity | exact Hap1 | lia | apply applies_upward_from_nil].
    + destruct Hr1.
Qed.

Lemma steps_forward_applies (fuel : nat) :
  forall (steps i cv : Z) (w w' : World Data) (r : result unit),
    0 <= i ->
    steps_forward drv m fuel steps i cv w = (r, w') ->
    exists l, log w' = log w ++ l /\ applies_upward_from (cv + 1 + i) l.
Proof.
  induction fuel as [|fuel IH]; intros steps i cv w w' r H0 H.
  - simpl in H. inversion H; subst. exists []. rewrite app_nil_r.
    split; [reflexivity|apply applies_upward_from_nil].
  - destruct (Z_lt_dec i steps) as [H1|H1].
    2:{ rewrite steps_forward_done in H by lia. inversion H; subst.
        exists []. rewrite app_nil_r.
        split; [reflexivity|apply applies_upward_from_nil]. }
    destruct (Z_lt_dec (cv + 1 + i) (len_migrations m)) as [H2|H2].
    2:{ rewrite steps_forward_done in H by lia. inversion H; subst.
        exists []. rewrite app_nil_r.
        split; [reflexivity|apply applies_upward_from_nil]. }
    destruct (index (migrations m) (cv + 1 + i)) as [mg|] eqn:Hi.
    2:{ rewrite steps_forward_panic in H by assumption. inversion H; subst.
        exists []. rewrite app_nil_r.
        split; [reflexivity|apply applies_upward_from_nil]. }
    destruct (ctx_cancelled_dec (ctx w)) as [Hc|Hc].
    { rewrite (steps_forward_cancelled _ _ _ _ _ _ _ _ mg) in H
        by assumption.
      inversion H; subst. exists []. rewrite app_nil_r.
      split; [reflexivity|apply applies_upward_from_nil]. }
    rewrite (steps_forward_step _ _ _ _ _ _ _ _ mg) in H by assumption.
    destruct (applyMigration drv mg true cv _) as [r1 w1] eqn:Ha.
    apply applyMigration_inv in Ha. destruct Ha as (l1 & Hl1 & Hap1 & Hr1).
    cbn [log checked] in Hl1. rewrite (in_place _ _ Hi) in Hl1.
    destruct r1 as [[]|e1|msg1].
    + apply IH in H; [|lia]. destruct H as (l2 & Hl2 & Hr).
      exists ([] ++ Applying (cv + 1 + i) true :: l1 ++ l2).
      split.
      { rewrite Hl2, Hl1. rewrite <- !app_assoc. reflexivity. }
      apply (applies_upward_from_cons (cv + 1 + i)
               (cv + 1 + i + 1 + (i + 1)));
        [reflexivity | exact Hap1 | lia | exact Hr].
    + inversion H; subst.
      exists ([] ++ Applying (cv + 1 + i) true :: l1 ++ []).
      split.
      { rewrite Hl1, app_nil_r. reflexivity. }
      apply (applies_upward_from_cons (cv + 1 + i) (cv + 1 + i));
        [reflexivity | exact Hap1 | lia | apply applies_upward_from_nil].
    + destruct Hr1.
Qed.

(** An iteration that the loop enters with a live context calls
    [applyMigration] for its version. *)
Lemma up_loop_first (fuel : nat) (version cv : Z) (w w' : World Data)
  (r : result unit) :
  0 <= version < len_migrations m ->
  ctx w <> Cancelled ->
  up_loop drv m (S fuel) version cv w = (r, w') ->
  exists l rest,
    log w' = log w ++ l /\ applied l = (version, true) :: rest.
Proof.
  intros Hv Hc H.
  destruct (index_in_range (migrations m) version) as [mg Hi];
    [unfold len_migrations in Hv; lia|].
  rewrite (up_loop_step _ _ _ _ _ _ _ mg) in H by (try assumption; lia).
  destruct (applyMigration drv mg true cv _) as [r1 w1] eqn:Ha.
  apply applyMigration_inv in Ha. destruct Ha as (l1 & Hl1 & Hap1 & Hr1).
  cbn [log logged checked] in Hl1. rewrite (in_place _ _ Hi) in Hl1.
  destruct r1 as [[]|e1|msg1].
  - apply up_loop_applies in H. destruct H as (l2 & Hl2 & _).
    cbn [log logged] in Hl2.
    exists ([Printf "Applying migration %d...\n" [Int version]]
              ++ Applying version true
              :: (l1 ++ [Printf "Migration %d applied successfully\n"
                           [Int version]]) ++ l2).
    eexists. split.
    + rewrite Hl2, Hl1. rewrite <- !app_assoc. reflexivity.
    + cbn [app applied]. reflexivity.
  - inversion H; subst.
    exists ([Printf "Applying migration %d...\n" [Int version]]
              ++ Applying version true :: l1).
    eexists. split.
    + rewrite Hl1, <- app_assoc. reflexivity.
    + cbn [app applied]. reflexivity.
  - destruct Hr1.
Qed.

Lemma steps_forward_first (fuel : nat) (steps i cv : Z) (w w' : World Data)
  (r : result unit) :
  0 <= i < steps ->
  0 <= cv + 1 + i < len_migrations m ->
  ctx w <> Cancelled ->
  steps_forward drv m (S fuel) steps i cv w = (r, w') ->
  exists l rest,
    log w' = log w ++ l /\ applied l = (cv + 1 + i, true) :: rest.
Proof.
  intros Hi0 Hv Hc H.
  destruct (index_in_range (migrations m) (cv + 1 + i)) as [mg Hi];
    [unfold len_migrations in Hv; lia|].
  rewrite (steps_forward_step _ _ _ _ _ _ _ _ mg) in H
    by (try assumption; lia).
  destruct (applyMigration drv mg true cv _) as [r1 w1] eqn:Ha.
  apply applyMigration_inv in Ha. destruct Ha as (l1 & Hl1 & Hap1 & Hr1).
  cbn [log checked] in Hl1. rewrite (in_place _ _ Hi) in Hl1.
  destruct r1 as [[]|e1|msg1].
  - apply steps_forward_applies in H; [|lia].
    destruct H as (l2 & Hl2 & _).
    exists (Applying (cv + 1 + i) true :: l1 ++ l2).
    eexists. split.
    + rewrite Hl2, Hl1. rewrite <- !app_assoc. reflexivity.
    + cbn [applied]. reflexivity.
  - inversion H; subst.
    exists (Applying (cv + 1 + i) true :: l1).
    eexists. split; [exact Hl1|]. cbn [applied]. reflexivity.
  - destruct Hr1.
Qed.

End Upward.

(** C10.  On a database whose relation [migrations] does not exist or is
    empty, [GetCurrentVersion] reads 0, and a run of [Up] or of [Steps(n)]
    with [n > 0], however it ends, calls [applyMigration] upward only, for
    versions from 1 on, and first of all for version 1: the bootstrap
    migration, version 0, is not applied.  And the run does begin at
    version 1: when version 1 is loaded and the context is live at the
    three checks that come before it, the first call of [applyMigration]
    is made, upward, for version 1. *)
Theorem bootstrap_migration_is_skipped {Data : Type} (drv : Driver Data)
  (MIGRATIONS_DIR : string) (dir : directory) (ms : list Migration)
  (w : World Data) :
  loadMigrations MIGRATIONS_DIR dir = Ok ms ->
  tracking (db w) = Absent \/ tracking (db w) = Rows [] ->
  CurrentVersion (db w) = Ok 0 /\
  (forall r w',
      Up drv (mkMigrator ms) w = (r, w') ->
      exists l, log w' = log w ++ l /\ applies_upward_from 1 l) /\
  (forall n r w',
      0 < n ->
      Steps drv (mkMigrator ms) n w = (r, w') ->
      exists l, log w' = log w ++ l /\ applies_upward_from 1 l) /\
  (1 <= maxVersion (mkMigrator ms) ->
   ctx w <> Cancelled ->
   after_check (ctx w) <> Cancelled ->
   after_check (after_check (ctx w)) <> Cancelled ->
   (forall r w',
       Up drv (mkMigrator ms) w = (r, w') ->
       exists l rest,
         log w' = log w ++ l /\ applied l = (1, true) :: rest) /\
   (forall n r w',
       0 < n ->
       Steps drv (mkMigrator ms) n w = (r, w') ->
       exists l rest,
         log w' = log w ++ l /\ applied l = (1, true) :: rest)).
Proof.
  intros Hload Ht.
  apply loadMigrations_well_formed in Hload. destruct Hload as [_ Hwf].
  assert (Hplace : forall i mg,
             index (migrations (mkMigrator ms)) i = Some mg ->
             Version mg = i)
    by (intros i mg Hi; apply (Hwf i mg Hi)).
  assert (Hcv : CurrentVersion (db w) = Ok 0).
  { rewrite CurrentVersion_eq. destruct Ht as [-> | ->]; reflexivity. }
  assert (Hnil : forall w0 : World Data,
             log w0 = log w ->
             exists l, log w0 = log w ++ l /\ applies_upward_from 1 l).
  { intros w0 H0. exists []. rewrite app_nil_r.
    split; [exact H0|apply applies_upward_from_nil]. }
  split; [exact Hcv|]. split; [|split].
  - intros r w' H. rewrite Up_eq in H.
    destruct (ctx_cancelled_dec (ctx w)).
    { inversion H; subst. apply Hnil. reflexivity. }
    destruct (ctx_cancelled_dec (after_check (ctx w))).
    { inversion H; subst. apply Hnil. reflexivity. }
    rewrite Hcv in H.
    apply (up_loop_applies Data drv (mkMigrator ms) Hplace) in H.
    exact H.
  - intros n r w' Hn H. rewrite Steps_forward_eq in H by exact Hn.
    destruct (ctx_cancelled_dec (ctx w)).
    { inversion H; subst. apply Hnil. reflexivity. }
    destruct (ctx_cancelled_dec (after_check (ctx w))).
    { inversion H; subst. apply Hnil. reflexivity. }
    rewrite Hcv in H.
    apply (steps_forward_applies Data drv (mkMigrator ms) Hplace) in H.
    + exact H.
    + lia.
  - intros Hmax Hc1 Hc2 Hc3. unfold maxVersion in Hmax. split.
    + intros r w' H. rewrite Up_eq in H.
      destruct (ctx_cancelled_dec (ctx w)); [contradiction|].
      destruct (ctx_cancelled_dec (after_check (ctx w))); [contradiction|].
      rewrite Hcv in H.
      destruct (Z.to_nat (len_migrations (mkMigrator ms) - (0 + 1)))
        as [|fuel] eqn:Hfuel; [lia|].
      apply (up_loop_first Data drv (mkMigrator ms) Hplace) in H.
      * exact H.
      * lia.
      * exact Hc3.
    + intros n r w' Hn H. rewrite Steps_forward_eq in H by exact Hn.
      destruct (ctx_cancelled_dec (ctx w)); [contradiction|].
      destruct (ctx_cancelled_dec (after_check (ctx w))); [contradiction|].
      rewrite Hcv in H.
      destruct (Z.to_nat n) as [|fuel] eqn:Hfuel; [lia|].
      apply (steps_forward_first Data drv (mkMigrator ms) Hplace) in H.
      * exact H.
      * lia.
      * lia.
      * exact Hc3.
Qed.

Lemma bootstrap_migration_witness :
  let w := mkWorld (mkDB (Rows []) ([] : list string)) Background [] in
  CurrentVersion (db w) = Ok 0 /\
  (exists l,
      log (snd (Up Scenario.driver Scenario.four w)) = log w ++ l /\
      applies_upward_from 1 l) /\
  (exists l,
      log (snd (Steps Scenario.driver Scenario.four 2 w)) = log w ++ l /\
      applies_upward_from 1 l) /\
  (exists l rest,
      log (snd (Up Scenario.driver Scenario.four w)) = log w ++ l /\
      applied l = (1, true) :: rest) /\
  (exists l rest,
      log (snd (Steps Scenario.driver Scenario.four 2 w)) = log w ++ l /\
      applied l = (1, true) :: rest).
Proof.
  intros w.
  destruct (bootstrap_migration_is_skipped Scenario.driver "migrations"
              Scenario.four_versions (migrations Scenario.four) w
              ltac:(vm_compute; reflexivity)
              (or_intror eq_refl)) as (H0 & HUp & HSteps & Hfirst).
  destruct Hfirst as [HUp1 HSteps1].
  { vm_compute. discriminate. }
  { discriminate. }
  { discriminate. }
  { discriminate. }
  split; [exact H0|]. split; [|split; [|split]].
  - apply (HUp (fst (Up Scenario.driver Scenario.four w))).
    apply surjective_pairing.
  - apply (HSteps 2 (fst (Steps Scenario.driver Scenario.four 2 w)));
      [lia | apply surjective_pairing].
  - apply (HUp1 (fst (Up Scenario.driver Scenario.four w))).
    apply surjective_pairing.
  - apply (HSteps1 2 (fst (Steps Scenario.driver Scenario.four 2 w)));
      [lia | apply surjective_pairing].
Defined.

(** ** The defects *)

Example four_is_loaded :
  loadMigrations "migrations" Scenario.four_versions
  = Ok (migrations Scenario.four).
Proof. vm_compute. reflexivity. Qed.

(** C7 does not hold of the code.  With versions 0 to 3 loaded and the
    database at version 0, [Steps(2)] succeeds, but the migrations it
    applies are versions 1 and 3: version 2 is skipped.  The second
    iteration computes its version as [currentVersion + 1 + i] from a
    [currentVersion] that the first iteration has already advanced. *)
Theorem steps_forward_skips_a_version :
  exists w',
    Steps Scenario.driver Scenario.four 2 Scenario.at_zero = (Ok tt, w') /\
    applied (log w') = [(1, true); (3, true)] /\
    tracking (db w') = Rows [3; 1; 0] /\
    CurrentVersion (db w') = Ok 3.
Proof.
  eexists. split; [vm_compute; reflexivity|].
  split; [|split]; vm_compute; reflexivity.
Qed.

(** C3 does not hold of the code.  With versions 0 to 3 loaded, each with a
    down-script, and the database at version 0, [Steps(2)] followed by
    [Steps(-2)] succeeds twice and leaves [CurrentVersion()] at 1, not at
    0: the forward run applied versions 1 and 3, the backward run rolled
    back versions 3 and 2. *)
Theorem steps_round_trip_ends_elsewhere :
  exists w1 w2,
    Steps Scenario.driver Scenario.four 2 Scenario.at_zero = (Ok tt, w1) /\
    Steps Scenario.driver Scenario.four (- 2) w1 = (Ok tt, w2) /\
    CurrentVersion (db Scenario.at_zero) = Ok 0 /\
    CurrentVersion (db w2) = Ok 1 /\
    applied (log w2)
    = [(1, true); (3, true); (3, false); (2, false)].
Proof.
  do 2 eexists. split; [vm_compute; reflexivity|].
  split; [vm_compute; reflexivity|].
  split; [|split]; vm_compute; reflexivity.
Qed.

(** C9 does not hold of the code.  The slice has [fileCount/2 + 5] slots
    and [migrations[version]] is indexed without a check: a directory whose
    only file is [000007_init.up.sql] makes the loader panic, and so does
    one whose only file is [-00001_init.up.sql], whose first six bytes
    [strconv.Atoi] reads as -1. *)
Theorem loader_indexes_out_of_range :
  loadMigrations "migrations"
    (Listing [Scenario.file "000007_init.up.sql" "CREATE TABLE t"])
  = Panic "runtime error: index out of range" /\
  loadMigrations "migrations"
    (Listing [Scenario.file "-00001_init.up.sql" "CREATE TABLE t"])
  = Panic "runtime error: index out of range".
Proof. split; vm_compute; reflexivity. Qed.

(** C6 does not hold of the code.  A directory with up-scripts for versions
    0 and 2 only is rejected with the error that names version 1; but a
    directory with up-scripts for versions 0 and 8 only, where versions 1
    to 7 lack theirs, is not rejected with an error: the loader panics on
    the index 8 of a slice of 6 slots. *)
Theorem loader_panics_on_a_wide_gap :
  loadMigrations "migrations"
    (Listing [Scenario.file "000000_init.up.sql" "CREATE TABLE migrations";
              Scenario.file "000002_b.up.sql" "CREATE TABLE b"])
  = Err (fmt_Errorf "migration %d is missing up.sql file" [Int 1] None) /\
  loadMigrations "migrations"
    (Listing [Scenario.file "000000_init.up.sql" "CREATE TABLE migrations";
              Scenario.file "000008_h.up.sql" "CREATE TABLE h"])
  = Panic "runtime error: index out of range".
Proof. split; vm_compute; reflexivity. Qed.

(** * Further properties *)

(** ** The applier *)

Lemma statement_events_of_success {Data : Type} (drv : Driver Data)
  (statements : list string) :
  forall (i : Z) (tx tx' : DB Data),
    run_statements drv statements i tx = inl tx' ->
    statement_events drv statements tx
    = map (fun s => TxExec s [])
        (filter (fun s => negb (String.eqb s ""))
           (map Strings.TrimSpace statements)).
Proof.
  induction statements as [|s rest IH]; intros i tx tx' H; simpl in *.
  - reflexivity.
  - destruct (String.eqb (Strings.TrimSpace s) ""); simpl.
    + eapply IH; eassumption.
    + destruct (Exec drv (Strings.TrimSpace s) tx) as [tx1|msg];
        [|discriminate].
      f_equal. eapply IH; eassumption.
Qed.

Lemma transaction_ok_events {Data : Type} (drv : Driver Data) (mg : Migration)
  (up : bool) (d : DB Data) :
  fst (fst (transaction drv mg up d)) = Ok tt ->
  snd (transaction drv mg up d)
  = map (fun s => TxExec s [])
      (script_statements (if up then UpSQL mg else DownSQL mg))
      ++ [TxExec (tracking_sql up) [Version mg]; TxCommit].
Proof.
  unfold transaction, script_statements, tracking_sql.
  destruct (run_statements drv _ 0 d) as [tx|[[k stmt] msg]] eqn:Hrun;
    [|discriminate].
  rewrite (statement_events_of_success drv _ 0 d tx Hrun).
  destruct up.
  - destruct (insert_version (Version mg) (tracking tx)); [|discriminate].
    destruct (Commit drv _); [discriminate|]. reflexivity.
  - destruct (delete_version (Version mg) (tracking tx)); [|discriminate].
    destruct (Commit drv _); [discriminate|]. reflexivity.
Qed.

(** Whatever [applyMigration] returns, it is in one of its four
    situations. *)
Lemma applyMigration_situations {Data : Type} (drv : Driver Data)
  (mg : Migration) (up : bool) (cv : Z) (w : World Data) :
  (ctx w = Cancelled /\
   applyMigration drv mg up cv w
   = (Err (context_cancelled context_Canceled),
      mkWorld (db w) (ctx w) (log w ++ [Applying (Version mg) up]))) \/
  (ctx w <> Cancelled /\ blank (if up then UpSQL mg else DownSQL mg) /\
   applyMigration drv mg up cv w
   = (Err (EmptyScriptError (Version mg) up),
      mkWorld (db w) (after_check (ctx w))
        (log w ++ [Applying (Version mg) up]))) \/
  (ctx w <> Cancelled /\ ~ blank (if up then UpSQL mg else DownSQL mg) /\
   exists err,
     Begin drv (db w) = Some err /\
     applyMigration drv mg up cv w
     = (Err (fmt_Errorf "failed to start transaction: %w" [] (Some err)),
        mkWorld (db w) (after_check (ctx w))
          (log w ++ [Applying (Version mg) up]))) \/
  (ctx w <> Cancelled /\ ~ blank (if up then UpSQL mg else DownSQL mg) /\
   Begin drv (db w) = None /\
   applyMigration drv mg up cv w
   = (fst (fst (transaction drv mg up (db w))),
      mkWorld (snd (fst (transaction drv mg up (db w))))
        (after_check (ctx w))
        (log w ++ [Applying (Version mg) up; TxBegin]
           ++ snd (transaction drv mg up (db w)) ++ [TxRollback]))).
Proof.
  destruct (ctx_cancelled_dec (ctx w)) as [Hc|Hc].
  { left. split; [exact Hc|]. apply applyMigration_cancelled. exact Hc. }
  right.
  destruct (String.eqb
              (Strings.TrimSpace (if up then UpSQL mg else DownSQL mg)) "")
    eqn:Hb.
  { apply String.eqb_eq in Hb. left. split; [exact Hc|]. split; [exact Hb|].
    apply applyMigration_blank; assumption. }
  apply String.eqb_neq in Hb. right.
  destruct (Begin drv (db w)) as [msg|] eqn:HB.
  { left. split; [exact Hc|]. split; [exact Hb|]. exists msg.
    split; [reflexivity|]. apply applyMigration_begin_fails; assumption. }
  right. split; [exact Hc|]. split; [exact Hb|]. split; [reflexivity|].
  apply applyMigration_transaction; assumption.
Qed.

(** X1.  A successful [applyMigration] leaves in the log, after the record
    of the call: the start of the transaction, one [Exec] for each
    non-blank statement of the script, trimmed and in the order of the
    script, the statement that records or removes the version with the
    migration's own version as parameter, the commit, and the deferred
    rollback. *)
Theorem successful_apply_runs_the_statements_in_order {Data : Type}
  (drv : Driver Data) (mg : Migration) (up : bool) (cv : Z)
  (w w' : World Data) :
  applyMigration drv mg up cv w = (Ok tt, w') ->
  log w' =
  log w ++ [Applying (Version mg) up; TxBegin]
    ++ map (fun s => TxExec s [])
         (script_statements (if up then UpSQL mg else DownSQL mg))
    ++ [TxExec (tracking_sql up) [Version mg]; TxCommit; TxRollback].
Proof.
  intros H.
  destruct (applyMigration_situations drv mg up cv w)
    as [[_ E]|[(_ & _ & E)|[(_ & _ & msg & _ & E)|(_ & _ & _ & E)]]];
    rewrite E in H; try discriminate.
  inversion H as [[Hr Hw]]. cbn [log].
  rewrite (transaction_ok_events drv mg up (db w) Hr).
  rewrite <- !app_assoc. reflexivity.
Qed.

Lemma successful_apply_witness :
  log (snd (applyMigration Scenario.driver
              (mkMigration 1 "CREATE TABLE a; ;  CREATE INDEX a_i;"
                 "DROP TABLE a")
              true 0 Scenario.at_zero))
  = [] ++ [Applying 1 true; TxBegin]
      ++ map (fun s => TxExec s []) ["CREATE TABLE a"; "CREATE INDEX a_i"]
      ++ [TxExec insert_sql [1]; TxCommit; TxRollback].
Proof.
  apply (successful_apply_runs_the_statements_in_order Scenario.driver
           (mkMigration 1 "CREATE TABLE a; ;  CREATE INDEX a_i;"
              "DROP TABLE a") true 0 Scenario.at_zero).
  vm_compute. reflexivity.
Defined.

(** X2.  An [applyMigration] that returns an error, whichever it is (a
    cancelled context, a blank script, a transaction that does not start, a
    statement that fails, a version that cannot be recorded, a commit that
    fails), leaves the database as it found it, and the log it leaves
    contains no commit. *)
Theorem failed_apply_commits_nothing {Data : Type} (drv : Driver Data)
  (mg : Migration) (up : bool) (cv : Z) (w w' : World Data) (e : error) :
  applyMigration drv mg up cv w = (Err e, w') ->
  db w' = db w /\
  exists l, log w' = log w ++ l /\ ~ In TxCommit l.
Proof.
  intros H.
  destruct (applyMigration_situations drv mg up cv w)
    as [[_ E]|[(_ & _ & E)|[(_ & _ & msg & _ & E)|(_ & _ & _ & E)]]];
    rewrite E in H; inversion H; subst; clear H; cbn [db log].
  - split; [reflexivity|]. eexists. split; [reflexivity|].
    intros [Hx|[]]; discriminate.
  - split; [reflexivity|]. eexists. split; [reflexivity|].
    intros [Hx|[]]; discriminate.
  - split; [reflexivity|]. eexists. split; [reflexivity|].
    intros [Hx|[]]; discriminate.
  - pose proof (transaction_cases drv mg up (db w)) as Ht.
    destruct (transaction drv mg up (db w)) as [[r0 d0] evs].
    simpl in *. subst r0. destruct Ht as (Hd & _ & _ & Hno).
    split; [exact Hd|]. eexists. split; [reflexivity|].
    intros [Hx|[Hx|Hx]]; try discriminate.
    apply in_app_or in Hx. destruct Hx as [Hx|[Hx|[]]];
      [exact (Hno Hx)|discriminate].
Qed.

Lemma failed_apply_witness :
  db (snd (applyMigration Scenario.driver
             (mkMigration 1 "CREATE TABLE a" "DROP TABLE a") true 0
             (mkWorld (mkDB Absent []) Background [])))
  = mkDB Absent [] /\
  exists l,
    log (snd (applyMigration Scenario.driver
                (mkMigration 1 "CREATE TABLE a" "DROP TABLE a") true 0
                (mkWorld (mkDB Absent []) Background [])))
    = [] ++ l /\ ~ In TxCommit l.
Proof.
  apply (failed_apply_commits_nothing Scenario.driver
           (mkMigration 1 "CREATE TABLE a" "DROP TABLE a") true 0
           (mkWorld (mkDB Absent []) Background []) _
           (fmt_Errorf "failed to record migration version %d: %w" [Int 1]
              (Some (external "42P01")))).
  vm_compute. reflexivity.
Defined.

(** X3.  After an [applyMigration] that succeeds, the relation [migrations]
    exists; upward it holds the version of the migration, downward it does
    not hold it any more, whatever the statements of the script did. *)
Theorem successful_apply_updates_the_record {Data : Type}
  (drv : Driver Data) (mg : Migration) (up : bool) (cv : Z)
  (w w' : World Data) :
  applyMigration drv mg up cv w = (Ok tt, w') ->
  exists vs,
    tracking (db w') = Rows vs /\
    (if up then In (Version mg) vs else ~ In (Version mg) vs).
Proof.
  intros H. apply applyMigration_inv in H.
  destruct H as (l & _ & _ & _ & _ & _ & tx & rel & _ & Hrec & Hdb).
  rewrite Hdb. cbn [tracking]. destruct up.
  - destruct (tracking tx) as [|code|vs]; try discriminate.
    inversion Hrec; subst. eexists. split; [reflexivity|].
    destruct (mem (Version mg) vs) eqn:Hm.
    + apply mem_In. exact Hm.
    + left. reflexivity.
  - destruct (tracking tx) as [|code|vs]; try discriminate.
    inversion Hrec; subst. eexists. split; [reflexivity|].
    intros Hin. apply filter_In in Hin. destruct Hin as [_ Hx].
    rewrite Z.eqb_refl in Hx. discriminate.
Qed.

Lemma successful_apply_updates_witness :
  exists vs,
    tracking (db (snd (applyMigration Scenario.driver
                         (mkMigration 2 "CREATE TABLE b" "DROP TABLE b")
                         false 2
                         (Scenario.at_version [2; 1; 0] Background))))
    = Rows vs /\ ~ In 2 vs.
Proof.
  apply (successful_apply_updates_the_record Scenario.driver
           (mkMigration 2 "CREATE TABLE b" "DROP TABLE b") false 2
           (Scenario.at_version [2; 1; 0] Background)).
  vm_compute. reflexivity.
Defined.

(** ** The version store *)

Lemma fold_max_is_member (x : Z) (l : list Z) :
  In (fold_right Z.max x l) (x :: l).
Proof.
  induction l as [|a l IH]; simpl; [left; reflexivity|].
  destruct (Z.max_spec a (fold_right Z.max x l)) as [[_ ->]|[_ ->]].
  - destruct IH as [IH|IH]; [left; exact IH | right; right; exact IH].
  - right. left. reflexivity.
Qed.

Lemma select_max_spec (vs : list Z) (v : Z) :
  In v vs -> (forall x, In x vs -> x <= v) ->
  select_max (Rows vs) = Value v.
Proof.
  destruct vs as [|a l]; [intros []|]. intros Hin Hall. cbn [select_max].
  f_equal. unfold maximum.
  pose proof (fold_max_is_member a l) as Hm.
  assert (Hle : fold_right Z.max a l <= v) by (apply Hall; exact Hm).
  assert (Hge : v <= fold_right Z.max a l).
  { destruct Hin as [->|Hin]; [apply fold_max_ge | apply fold_max_in; exact Hin]. }
  lia.
Qed.

Lemma select_max_value (vs : list Z) (v : Z) :
  select_max (Rows vs) = Value v ->
  In v vs /\ forall x, In x vs -> x <= v.
Proof.
  destruct vs as [|a l]; [discriminate|]. cbn [select_max]. intros H.
  inversion H; subst; clear H. unfold maximum. split.
  - apply fold_max_is_member.
  - intros x [->|Hx]; [apply fold_max_ge | apply fold_max_in; exact Hx].
Qed.

(** X4.  On a relation [migrations] that holds rows, [GetCurrentVersion]
    with a live context returns the greatest version recorded: a version
    that is in the relation and that no version in it exceeds.  It writes
    nothing: the database and the log are as before. *)
Theorem current_version_is_the_greatest_recorded {Data : Type}
  (w : World Data) (vs : list Z) :
  ctx w <> Cancelled ->
  tracking (db w) = Rows vs -> vs <> [] ->
  exists v w',
    GetCurrentVersion w = (Ok v, w') /\
    In v vs /\ (forall x, In x vs -> x <= v) /\
    db w' = db w /\ log w' = log w.
Proof.
  intros Hc Ht Hne. rewrite GetCurrentVersion_live by exact Hc.
  rewrite CurrentVersion_eq, Ht.
  destruct vs as [|a l]; [contradiction|].
  destruct (select_max (Rows (a :: l))) as [| | |v] eqn:Hs;
    try discriminate.
  apply select_max_value in Hs. destruct Hs as [Hin Hall].
  exists v, (checked w). repeat split; auto.
Qed.

Lemma current_version_witness :
  exists v w',
    GetCurrentVersion (Scenario.at_version [1; 3; 0; 2] Background)
    = (Ok v, w') /\
    In v [1; 3; 0; 2] /\ (forall x, In x [1; 3; 0; 2] -> x <= v) /\
    db w' = mkDB (Rows [1; 3; 0; 2]) [] /\ log w' = [].
Proof.
  apply (current_version_is_the_greatest_recorded
           (Scenario.at_version [1; 3; 0; 2] Background) [1; 3; 0; 2]);
    [discriminate | reflexivity | discriminate].
Defined.

(** X5.  When the relation [migrations] cannot be read for a reason other
    than its absence (a PostgreSQL error whose code is not [42P01]),
    [GetCurrentVersion] fails with the error "failed to get current
    migration version", and [Up], [Down] and [Steps] fail with that error
    wrapped in their own; none of them calls [applyMigration] or changes
    the database. *)
Theorem unreadable_version_stops_every_operation {Data : Type}
  (drv : Driver Data) (m : Migrator) (w : World Data) (code : string) :
  ctx w <> Cancelled -> after_check (ctx w) <> Cancelled ->
  tracking (db w) = Broken code -> code <> "42P01" ->
  let query_error :=
    fmt_Errorf "failed to get current migration version: %w" []
      (Some (external code)) in
  GetCurrentVersion w = (Err query_error, checked w) /\
  Up drv m w
  = (Err (fmt_Errorf
            "failed to get current version before applying migrations: %w"
            [] (Some query_error)),
     checked (checked w)) /\
  Down drv m w
  = (Err (fmt_Errorf
            "failed to get current version before rolling back: %w"
            [] (Some query_error)),
     checked (checked w)) /\
  forall n,
    Steps drv m n w
    = (Err (fmt_Errorf
              "failed to get current version before executing steps: %w"
              [] (Some query_error)),
       checked (checked w)).
Proof.
  intros H1 H2 Ht Hcode query_error.
  assert (Hcv : CurrentVersion (db w) = Err query_error).
  { rewrite CurrentVersion_eq, Ht. cbn [select_max].
    apply String.eqb_neq in Hcode. rewrite Hcode. reflexivity. }
  split; [|split; [|split]].
  - rewrite GetCurrentVersion_live by exact H1. rewrite Hcv. reflexivity.
  - rewrite Up_eq.
    destruct (ctx_cancelled_dec (ctx w)); [contradiction|].
    destruct (ctx_cancelled_dec (after_check (ctx w))); [contradiction|].
    rewrite Hcv. reflexivity.
  - unfold Down. rewrite prologue.
    destruct (ctx_cancelled_dec (ctx w)); [contradiction|].
    destruct (ctx_cancelled_dec (after_check (ctx w))); [contradiction|].
    rewrite Hcv. reflexivity.
  - intros n. unfold Steps. rewrite prologue.
    destruct (ctx_cancelled_dec (ctx w)); [contradiction|].
    destruct (ctx_cancelled_dec (after_check (ctx w))); [contradiction|].
    rewrite Hcv. reflexivity.
Qed.

Lemma unreadable_version_witness :
  let w := mkWorld (mkDB (Broken "42501") ([] : list string)) Background []
  in
  let query_error :=
    fmt_Errorf "failed to get current migration version: %w" []
      (Some (external "42501")) in
  GetCurrentVersion w = (Err query_error, checked w) /\
  Up Scenario.driver Scenario.four w
  = (Err (fmt_Errorf
            "failed to get current version before applying migrations: %w"
            [] (Some query_error)),
     checked (checked w)) /\
  Down Scenario.driver Scenario.four w
  = (Err (fmt_Errorf
            "failed to get current version before rolling back: %w"
            [] (Some query_error)),
     checked (checked w)) /\
  forall n,
    Steps Scenario.driver Scenario.four n w
    = (Err (fmt_Errorf
              "failed to get current version before executing steps: %w"
              [] (Some query_error)),
       checked (checked w)).
Proof.
  intros w.
  apply (unreadable_version_stops_every_operation Scenario.driver
           Scenario.four w "42501");
    [discriminate | discriminate | reflexivity | discriminate].
Defined.

(** ** [Up] *)

Lemma commits_app (a b : list event) : commits (a ++ b) = commits a + commits b.
Proof.
  induction a as [|e a IH]; [reflexivity|].
  destruct e; cbn [app commits]; rewrite IH; lia.
Qed.

Lemma commits_statements (l : list string) :
  commits (map (fun s => TxExec s []) l) = 0.
Proof. induction l as [|s l IH]; simpl; auto. Qed.

Lemma commits_none (l : list event) : ~ In TxCommit l -> commits l = 0.
Proof.
  induction l as [|e l IH]; intros H; [reflexivity|].
  destruct e; cbn [commits]; try (apply IH; intros Hx; apply H; right; exact Hx).
  elim H. left. reflexivity.
Qed.

(** The log and the database that one call of [applyMigration] leaves,
    as the loops need them. *)
Lemma applyMigration_step {Data : Type} (drv : Driver Data) (mg : Migration)
  (up : bool) (cv : Z) (w w' : World Data) (r : result unit) :
  applyMigration drv mg up cv w = (r, w') ->
  exists l,
    log w' = log w ++ l /\
    applied l = [(Version mg, up)] /\
    match r with
    | Ok _ => commits l = 1
    | Err _ => commits l = 0 /\ db w' = db w
    | Panic _ => False
    end.
Proof.
  intros H.
  destruct (applyMigration_situations drv mg up cv w)
    as [[_ E]|[(_ & _ & E)|[(_ & _ & msg & _ & E)|(_ & _ & _ & E)]]];
    rewrite E in H; inversion H; subst; clear H; cbn [db log].
  - eexists. split; [reflexivity|]. repeat split.
  - eexists. split; [reflexivity|]. repeat split.
  - eexists. split; [reflexivity|]. repeat split.
  - pose proof (transaction_cases drv mg up (db w)) as Ht.
    pose proof (transaction_ok_events drv mg up (db w)) as Hok.
    destruct (transaction drv mg up (db w)) as [[r0 d0] evs].
    cbn [fst snd] in *.
    exists ([Applying (Version mg) up; TxBegin] ++ evs ++ [TxRollback]).
    split; [reflexivity|].
    destruct r0 as [[]|e|msg0].
    + destruct Ht as (_ & Hap & _).
      split; [cbn; rewrite applied_app, Hap; reflexivity|].
      rewrite (Hok eq_refl). cbn [app commits].
      rewrite !commits_app, commits_statements. reflexivity.
    + destruct Ht as (Hd & _ & Hap & Hno).
      split; [cbn; rewrite applied_app, Hap; reflexivity|].
      split; [|exact Hd]. cbn [app commits].
      rewrite commits_app, (commits_none evs Hno). reflexivity.
    + destruct Ht.
Qed.

Section UpRuns.

Variable Data : Type.
Variable drv : Driver Data.
Variable m : Migrator.

Hypothesis in_place :
  forall i mg, index (migrations m) i = Some mg -> Version mg = i.

(** The loop of [Up] applies the versions from [version] on, one after the
    other, and all of them when it returns normally. *)
Lemma up_loop_in_order (fuel : nat) :
  forall (version cv : Z) (w w' : World Data) (r : result unit),
    fuel = Z.to_nat (len_migrations m - version) ->
    0 <= version ->
    up_loop drv m fuel version cv w = (r, w') ->
    exists l n,
      log w' = log w ++ l /\
      applied l = map (fun v => (v, true)) (ascending version n) /\
      (n <= fuel)%nat /\
      match r with
      | Ok _ => n = fuel
      | Err _ => True
      | Panic _ => False
      end.
Proof.
  induction fuel as [|fuel IH]; intros version cv w w' r Hf H0 H.
  - simpl in H. inversion H; subst. exists [], O. rewrite app_nil_r.
    repeat split; auto.
  - assert (Hlt : version < len_migrations m) by lia.
    destruct (index_in_range (migrations m) version) as [mg Hi];
      [unfold len_migrations in Hlt; lia|].
    destruct (ctx_cancelled_dec (ctx w)) as [Hc|Hc].
    { rewrite (up_loop_cancelled _ _ _ _ _ _ _ mg) in H by assumption.
      inversion H; subst. exists [], O. rewrite app_nil_r.
      repeat split; auto. lia. }
    rewrite (up_loop_step _ _ _ _ _ _ _ mg) in H by assumption.
    destruct (applyMigration drv mg true cv _) as [r1 w1] eqn:Ha.
    apply applyMigration_step in Ha. destruct Ha as (l1 & Hl1 & Hap1 & Hr1).
    cbn [log logged checked] in Hl1. rewrite (in_place _ _ Hi) in Hap1.
    destruct r1 as [[]|e1|msg1].
    + apply IH in H; [|lia|lia].
      destruct H as (l2 & n & Hl2 & Hap2 & Hn & Hr).
      cbn [log logged] in Hl2.
      exists ([Printf "Applying migration %d...\n" [Int version]] ++ l1
                ++ [Printf "Migration %d applied successfully\n"
                      [Int version]] ++ l2), (S n).
      split; [rewrite Hl2, Hl1, <- !app_assoc; reflexivity|].
      split.
      { rewrite !applied_app. cbn [applied app ascending map].
        rewrite Hap1, Hap2. reflexivity. }
      split; [lia|]. destruct r; auto.
    + inversion H; subst.
      exists ([Printf "Applying migration %d...\n" [Int version]] ++ l1),
        1%nat.
      split; [rewrite Hl1, <- app_assoc; reflexivity|].
      split; [cbn [app applied]; rewrite Hap1; reflexivity|].
      split; [lia|exact I].
    + destruct Hr1.
Qed.

(** With scripts that leave the relation [migrations] alone, the loop of
    [Up] moves the current version up by one with each transaction it
    commits, and not otherwise. *)
Lemma up_loop_progress (fuel : nat) :
  forall (version cv : Z) (w w' : World Data) (r : result unit),
    fuel = Z.to_nat (len_migrations m - version) ->
    0 <= version ->
    cv = version - 1 ->
    CurrentVersion (db w) = Ok cv ->
    (forall i mg, version <= i -> index (migrations m) i = Some mg ->
                  keeps_tracking drv (UpSQL mg)) ->
    up_loop drv m fuel version cv w = (r, w') ->
    exists l,
      log w' = log w ++ l /\
      CurrentVersion (db w') = Ok (cv + commits l) /\
      0 <= commits l <= Z.of_nat fuel.
Proof.
  induction fuel as [|fuel IH]; intros version cv w w' r Hf H0 Hv Hcv Hk H.
  - simpl in H. inversion H; subst. exists []. rewrite app_nil_r.
    cbn [commits]. rewrite Z.add_0_r. repeat split; auto; lia.
  - assert (Hlt : version < len_migrations m) by lia.
    destruct (index_in_range (migrations m) version) as [mg Hi];
      [unfold len_migrations in Hlt; lia|].
    destruct (ctx_cancelled_dec (ctx w)) as [Hc|Hc].
    { rewrite (up_loop_cancelled _ _ _ _ _ _ _ mg) in H by assumption.
      inversion H; subst. exists []. rewrite app_nil_r.
      cbn [commits]. rewrite Z.add_0_r. repeat split; auto; lia. }
    rewrite (up_loop_step _ _ _ _ _ _ _ mg) in H by assumption.
    destruct (applyMigration drv mg true cv _) as [r1 w1] eqn:Ha.
    pose proof Ha as Hstep. apply applyMigration_step in Hstep.
    destruct Hstep as (l1 & Hl1 & _ & Hr1).
    cbn [log logged checked] in Hl1.
    destruct r1 as [[]|e1|msg1].
    + apply applyMigration_inv in Ha.
      destruct Ha as (l & _ & _ & _ & _ & _ & tx & rel & Hr & Hins & Hdb).
      cbn [db logged checked] in Hr.
      apply IH in H; try lia.
      * destruct H as (l2 & Hl2 & Hcv2 & Hc2). cbn [log logged] in Hl2.
        exists ([Printf "Applying migration %d...\n" [Int version]] ++ l1
                  ++ [Printf "Migration %d applied successfully\n"
                        [Int version]] ++ l2).
        split; [rewrite Hl2, Hl1, <- !app_assoc; reflexivity|].
        cbn [app commits]. rewrite !commits_app. cbn [commits].
        rewrite Hr1. split; [rewrite Hcv2; f_equal; lia|lia].
      * cbn [db logged]. rewrite Hdb.
        apply (CurrentVersion_after_insert (db w) cv version);
          [exact Hcv | lia |].
        rewrite <- (in_place _ _ Hi) at 1.
        erewrite <- run_statements_tracking; [exact Hins| |exact Hr].
        intros stmt d d' Hin He. eapply (Hk version mg); eauto. lia.
      * intros i mg' Hle. apply Hk. lia.
    + inversion H; subst. destruct Hr1 as [Hc1 Hdb].
      exists ([Printf "Applying migration %d...\n" [Int version]] ++ l1).
      split; [rewrite Hl1, <- app_assoc; reflexivity|].
      cbn [app commits]. rewrite Hc1, Z.add_0_r.
      rewrite Hdb. cbn [db logged checked]. split; [exact Hcv|lia].
    + destruct Hr1.
Qed.

End UpRuns.

Lemma well_formed_in_place (ms : list Migration) :
  well_formed ms ->
  forall i mg, index ms i = Some mg -> Version mg = i.
Proof. intros [_ H] i mg Hi. apply (H i mg Hi). Qed.

(** X6.  However a run of [Up] ends, the migrations for which it called
    [applyMigration] are the versions [currentVersion + 1],
    [currentVersion + 2], ... in this order, each once and upward, none
    skipped; when [Up] returns [nil] they are all the versions up to
    [maxVersion], and [Up] does not panic. *)
Theorem up_applies_the_pending_versions_in_order {Data : Type}
  (drv : Driver Data) (MIGRATIONS_DIR : string) (dir : directory)
  (ms : list Migration) (cv : Z) (w w' : World Data) (r : result unit) :
  loadMigrations MIGRATIONS_DIR dir = Ok ms ->
  CurrentVersion (db w) = Ok cv -> 0 <= cv ->
  Up drv (mkMigrator ms) w = (r, w') ->
  exists l n,
    log w' = log w ++ l /\
    applied l = map (fun v => (v, true)) (ascending (cv + 1) n) /\
    Z.of_nat n <= Z.max 0 (maxVersion (mkMigrator ms) - cv) /\
    match r with
    | Ok _ => Z.of_nat n = Z.max 0 (maxVersion (mkMigrator ms) - cv)
    | Err _ => True
    | Panic _ => False
    end.
Proof.
  intros Hload Hcv H0 H.
  apply loadMigrations_well_formed in Hload.
  rewrite Up_eq in H.
  assert (Hnil : forall (w0 : World Data) e,
             (r, w') = (Err e, w0) -> log w0 = log w ->
             exists l n,
               log w' = log w ++ l /\
               applied l = map (fun v => (v, true)) (ascending (cv + 1) n) /\
               Z.of_nat n <= Z.max 0 (maxVersion (mkMigrator ms) - cv) /\
               match r with
               | Ok _ =>
                   Z.of_nat n = Z.max 0 (maxVersion (mkMigrator ms) - cv)
               | Err _ => True
               | Panic _ => False
               end).
  { intros w0 e E Hlog. inversion E; subst. exists [], O.
    rewrite app_nil_r. repeat split; auto. cbn. lia. }
  destruct (ctx_cancelled_dec (ctx w)) as [Hc1|Hc1];
    [symmetry in H; eapply Hnil; [exact H|reflexivity]|].
  destruct (ctx_cancelled_dec (after_check (ctx w))) as [Hc2|Hc2];
    [symmetry in H; eapply Hnil; [exact H|reflexivity]|].
  rewrite Hcv in H.
  apply (up_loop_in_order Data drv (mkMigrator ms)
           (well_formed_in_place ms Hload)) in H; [|reflexivity|lia].
  destruct H as (l & k & Hl & Hap & Hn & Hr).
  exists l, k. split; [exact Hl|]. split; [exact Hap|].
  unfold maxVersion. split; [lia|].
  destruct r; auto. lia.
Qed.

Lemma up_in_order_witness :
  exists l n,
    log (snd (Up Scenario.driver Scenario.four Scenario.at_zero)) = [] ++ l /\
    applied l = map (fun v => (v, true)) (ascending (0 + 1) n) /\
    Z.of_nat n <= Z.max 0 (maxVersion Scenario.four - 0) /\
    Z.of_nat n = Z.max 0 (maxVersion Scenario.four - 0).
Proof.
  apply (up_applies_the_pending_versions_in_order Scenario.driver
           "migrations" Scenario.four_versions (migrations Scenario.four)
           0 Scenario.at_zero _ (Ok tt)).
  - vm_compute. reflexivity.
  - vm_compute. reflexivity.
  - lia.
  - vm_compute. reflexivity.
Defined.

(** X7.  With up-scripts that leave the relation [migrations] alone, a run
    of [Up], however it ends, leaves the current version at the version it
    started from plus the number of transactions it committed: what was
    committed before a failure stays, and nothing else moves the version.
    The version never goes down and never beyond [maxVersion]. *)
Theorem up_keeps_the_progress_made {Data : Type} (drv : Driver Data)
  (MIGRATIONS_DIR : string) (dir : directory) (ms : list Migration)
  (cv : Z) (w w' : World Data) (r : result unit) :
  loadMigrations MIGRATIONS_DIR dir = Ok ms ->
  CurrentVersion (db w) = Ok cv -> 0 <= cv ->
  (forall i mg, cv < i -> index ms i = Some mg ->
                keeps_tracking drv (UpSQL mg)) ->
  Up drv (mkMigrator ms) w = (r, w') ->
  exists l,
    log w' = log w ++ l /\
    CurrentVersion (db w') = Ok (cv + commits l) /\
    cv <= cv + commits l <= Z.max cv (maxVersion (mkMigrator ms)).
Proof.
  intros Hload Hcv H0 Hk H.
  apply loadMigrations_well_formed in Hload.
  rewrite Up_eq in H.
  assert (Hnil : forall w0 : World Data,
             db w0 = db w -> log w0 = log w ->
             exists l,
               log w0 = log w ++ l /\
               CurrentVersion (db w0) = Ok (cv + commits l) /\
               cv <= cv + commits l <= Z.max cv (maxVersion (mkMigrator ms))).
  { intros w0 Hd Hlog. exists []. rewrite app_nil_r, Hd. cbn [commits].
    rewrite Z.add_0_r. repeat split; auto; lia. }
  destruct (ctx_cancelled_dec (ctx w)) as [Hc1|Hc1];
    [inversion H; subst; apply Hnil; reflexivity|].
  destruct (ctx_cancelled_dec (after_check (ctx w))) as [Hc2|Hc2];
    [inversion H; subst; apply Hnil; reflexivity|].
  rewrite Hcv in H.
  apply (up_loop_progress Data drv (mkMigrator ms)
           (well_formed_in_place ms Hload)) in H;
    try reflexivity; try lia; try exact Hcv.
  - destruct H as (l & Hl & Hc & Hn). exists l.
    split; [exact Hl|]. split; [exact Hc|]. unfold maxVersion. lia.
  - intros i mg Hi. apply Hk. lia.
Qed.

Lemma up_progress_witness :
  let m := mkMigrator
             [ mkMigration 0 "CREATE TABLE migrations" "";
               mkMigration 1 "CREATE TABLE a" "DROP TABLE a";
               mkMigration 2 "CREATE TABLE b" "DROP TABLE b";
               mkMigration 3 "CREATE TABLE c; FAIL constraint"
                 "DROP TABLE c" ] in
  exists l,
    log (snd (Up Scenario.driver m Scenario.at_zero)) = [] ++ l /\
    CurrentVersion (db (snd (Up Scenario.driver m Scenario.at_zero)))
    = Ok (0 + commits l) /\
    0 <= 0 + commits l <= Z.max 0 (maxVersion m).
Proof.
  intros m.
  apply (up_keeps_the_progress_made Scenario.driver "migrations"
           (Listing
              [ Scenario.file "000000_init.up.sql" "CREATE TABLE migrations";
                Scenario.file "000001_a.up.sql" "CREATE TABLE a";
                Scenario.file "000001_a.down.sql" "DROP TABLE a";
                Scenario.file "000002_b.up.sql" "CREATE TABLE b";
                Scenario.file "000002_b.down.sql" "DROP TABLE b";
                Scenario.file "000003_c.up.sql"
                  "CREATE TABLE c; FAIL constraint";
                Scenario.file "000003_c.down.sql" "DROP TABLE c" ])
           (migrations m) 0 Scenario.at_zero _
           (fst (Up Scenario.driver m Scenario.at_zero))).
  - vm_compute. reflexivity.
  - vm_compute. reflexivity.
  - lia.
  - intros i mg _ _ stmt d d' _ He. unfold Scenario.driver in He.
    cbn [Exec] in He.
    destruct (Strings.HasPrefix stmt "FAIL");
      [discriminate | inversion He; reflexivity].
  - apply surjective_pairing.
Defined.

Lemma apply_needs_the_relation {Data : Type} (drv : Driver Data)
  (mg : Migration) (cv : Z) (w w' : World Data) (r : result unit) :
  tracking (db w) = Absent ->
  keeps_tracking drv (UpSQL mg) ->
  applyMigration drv mg true cv w = (r, w') ->
  (exists e, r = Err e) /\ db w' = db w.
Proof.
  intros Ht Hk H. apply applyMigration_inv in H.
  destruct H as (l & _ & _ & Hr). destruct r as [[]|e|msg].
  - destruct Hr as (_ & _ & _ & tx & rel & Hrun & Hins & _). exfalso.
    apply run_statements_tracking in Hrun; [|exact Hk].
    rewrite Hrun, Ht in Hins. discriminate.
  - destruct Hr as [Hdb _]. split; [eauto|exact Hdb].
  - destruct Hr.
Qed.

(** X8.  The engine does not create the relation it records versions in.
    On a database without the relation [migrations], where the current
    version reads 0, a run of [Up] or of [Steps(n)], [n > 0], with at
    least versions 0 and 1 loaded goes for version 1 first; unless the
    up-script of version 1 creates the relation itself, the run returns an
    error and the database is left as it was. *)
Theorem forward_run_needs_the_tracking_relation {Data : Type}
  (drv : Driver Data) (m : Migrator) (first : Migration) (w : World Data) :
  tracking (db w) = Absent ->
  index (migrations m) 1 = Some first ->
  keeps_tracking drv (UpSQL first) ->
  (forall r w', Up drv m w = (r, w') ->
                (exists e, r = Err e) /\ db w' = db w) /\
  (forall n r w', 0 < n -> Steps drv m n w = (r, w') ->
                  (exists e, r = Err e) /\ db w' = db w).
Proof.
  intros Ht Hi Hk.
  assert (Hcv : CurrentVersion (db w) = Ok 0)
    by (rewrite CurrentVersion_eq, Ht; reflexivity).
  assert (Hlen : 1 < len_migrations m).
  { apply index_Some in Hi. unfold len_migrations. lia. }
  split.
  - intros r w' H. rewrite Up_eq in H.
    destruct (ctx_cancelled_dec (ctx w)) as [Hc1|Hc1];
      [inversion H; subst; eauto|].
    destruct (ctx_cancelled_dec (after_check (ctx w))) as [Hc2|Hc2];
      [inversion H; subst; eauto|].
    rewrite Hcv in H. cbn [Z.add] in H.
    destruct (Z.to_nat (len_migrations m - 1)) as [|fuel] eqn:Hf; [lia|].
    destruct (ctx_cancelled_dec (ctx (checked (checked w)))) as [Hc3|Hc3].
    { rewrite (up_loop_cancelled _ _ _ _ _ _ _ first) in H by assumption.
      inversion H; subst; eauto. }
    rewrite (up_loop_step _ _ _ _ _ _ _ first) in H by assumption.
    destruct (applyMigration drv first true 0 _) as [r1 w1] eqn:Ha.
    apply apply_needs_the_relation in Ha; [|exact Ht|exact Hk].
    destruct Ha as [[e ->] Hdb]. inversion H; subst. split; [eauto|exact Hdb].
  - intros n r w' Hn H. rewrite Steps_forward_eq in H by exact Hn.
    destruct (ctx_cancelled_dec (ctx w)) as [Hc1|Hc1];
      [inversion H; subst; eauto|].
    destruct (ctx_cancelled_dec (after_check (ctx w))) as [Hc2|Hc2];
      [inversion H; subst; eauto|].
    rewrite Hcv in H.
    destruct (Z.to_nat n) as [|fuel] eqn:Hf; [lia|].
    destruct (ctx_cancelled_dec (ctx (checked (checked w)))) as [Hc3|Hc3].
    { rewrite (steps_forward_cancelled _ _ _ _ _ _ _ _ first) in H
        by (try assumption; lia).
      inversion H; subst; eauto. }
    rewrite (steps_forward_step _ _ _ _ _ _ _ _ first) in H
      by (try assumption; lia).
    destruct (applyMigration drv first true 0 _) as [r1 w1] eqn:Ha.
    apply apply_needs_the_relation in Ha; [|exact Ht|exact Hk].
    destruct Ha as [[e ->] Hdb]. inversion H; subst. split; [eauto|exact Hdb].
Qed.

Lemma forward_run_needs_relation_witness :
  let w := mkWorld (mkDB Absent ([] : list string)) Background [] in
  (exists e, fst (Up Scenario.driver Scenario.four w) = Err e) /\
  db (snd (Up Scenario.driver Scenario.four w)) = db w.
Proof.
  intros w.
  destruct (forward_run_needs_the_tracking_relation Scenario.driver
              Scenario.four
              (mkMigration 1 "CREATE TABLE a; CREATE INDEX a_i;"
                 "DROP TABLE a") w) as [HUp _].
  - reflexivity.
  - reflexivity.
  - intros stmt d d' _ He. unfold Scenario.driver in He. cbn [Exec] in He.
    destruct (Strings.HasPrefix stmt "FAIL");
      [discriminate | inversion He; reflexivity].
  - apply (HUp (fst (Up Scenario.driver Scenario.four w))
             (snd (Up Scenario.driver Scenario.four w))).
    apply surjective_pairing.
Defined.

(** ** [Down] *)

Lemma current_version_is_maximum {Data : Type} (d : DB Data) (c : Z)
  (vs : list Z) :
  CurrentVersion d = Ok c -> tracking d = Rows vs -> c <> 0 ->
  In c vs /\ forall x, In x vs -> x <= c.
Proof.
  rewrite CurrentVersion_eq. intros H Ht Hc. rewrite Ht in H.
  destruct vs as [|a l]; [simpl in H; congruence|].
  destruct (select_max (Rows (a :: l))) as [| | |v] eqn:Hs; try discriminate.
  inversion H; subst. apply select_max_value. exact Hs.
Qed.

Lemma version_below_after_delete {Data : Type} (c : Z) (vs : list Z)
  (dat : Data) :
  In c vs -> (forall x, In x vs -> x <= c) -> In (c - 1) vs ->
  CurrentVersion (mkDB (Rows (filter (fun x => negb (x =? c)) vs)) dat)
  = Ok (c - 1).
Proof.
  intros Hin Hall Hprev. rewrite CurrentVersion_eq. cbn [tracking].
  rewrite (select_max_spec _ (c - 1)); [reflexivity| |].
  - apply filter_In. split; [exact Hprev|].
    apply negb_true_iff, Z.eqb_neq. lia.
  - intros x Hx. apply filter_In in Hx. destruct Hx as [Hx Hne].
    apply negb_true_iff, Z.eqb_neq in Hne. apply Hall in Hx. lia.
Qed.

Lemma find_migration_In (m : Migrator) (c : Z) (mg : Migration) :
  find_migration m c = Some mg -> In mg (migrations m).
Proof.
  unfold find_migration. intros H. apply find_some in H.
  destruct H as [H _]. apply in_rev. exact H.
Qed.

Lemma find_migration_in_range (m : Migrator) (c : Z) (mg : Migration) :
  well_formed (migrations m) ->
  find_migration m c = Some mg -> 0 <= c <= maxVersion m.
Proof.
  intros Hwf H. pose proof (find_migration_version m c mg H) as Hv.
  apply find_migration_In in H. apply In_nth_error in H.
  destruct H as [n Hn].
  assert (Hlt : (n < List.length (migrations m))%nat).
  { apply nth_error_Some. congruence. }
  assert (Hi : index (migrations m) (Z.of_nat n) = Some mg).
  { unfold index.
    assert (H1 : (0 <=? Z.of_nat n) = true) by (apply Z.leb_le; lia).
    assert (H2 : (Z.of_nat n <? Z.of_nat (List.length (migrations m))) = true)
      by (apply Z.ltb_lt; lia).
    rewrite H1, H2, Nat2Z.id. exact Hn. }
  apply (well_formed_in_place _ Hwf) in Hi.
  unfold maxVersion, len_migrations. lia.
Qed.

(** X9.  A [Down] that succeeds has rolled back the migration of the
    current version [c], and only it: [c > 0], [applyMigration] was called
    once, downward, for [c], and one transaction was committed.  With
    down-scripts that leave the relation [migrations] alone, the relation
    afterwards is the one before without the row [c]; so, if the version
    below [c] was recorded, [CurrentVersion()] has gone down by exactly
    one. *)
Theorem down_rolls_back_the_current_version {Data : Type}
  (drv : Driver Data) (m : Migrator) (c : Z) (vs : list Z)
  (w w' : World Data) :
  CurrentVersion (db w) = Ok c ->
  tracking (db w) = Rows vs ->
  (forall mg, In mg (migrations m) -> keeps_tracking drv (DownSQL mg)) ->
  Down drv m w = (Ok tt, w') ->
  c <> 0 /\
  (exists l, log w' = log w ++ l /\ applied l = [(c, false)] /\
             commits l = 1) /\
  tracking (db w') = Rows (filter (fun x => negb (x =? c)) vs) /\
  (In (c - 1) vs -> CurrentVersion (db w') = Ok (c - 1)).
Proof.
  intros Hcv Ht Hk H. unfold Down in H. rewrite prologue in H.
  destruct (ctx_cancelled_dec (ctx w)) as [Hc1|Hc1]; [discriminate|].
  destruct (ctx_cancelled_dec (after_check (ctx w))) as [Hc2|Hc2];
    [discriminate|].
  rewrite Hcv in H.
  destruct (c =? 0) eqn:Hc0; [discriminate|]. apply Z.eqb_neq in Hc0.
  destruct (find_migration m c) as [mg|] eqn:Hfind; [|discriminate].
  destruct (String.eqb (Strings.TrimSpace (DownSQL mg)) ""); [discriminate|].
  unfold bind at 1 in H. unfold emit at 1 in H. cbn [db ctx log checked] in H.
  unfold bind at 1 in H.
  destruct (applyMigration drv mg false c _) as [r1 w1] eqn:Ha.
  destruct r1 as [[]|e1|msg1]; try discriminate.
  unfold emit in H. inversion H; subst w'; clear H. cbn [db log].
  pose proof Ha as Hstep. apply applyMigration_step in Hstep.
  destruct Hstep as (l1 & Hl1 & Hap1 & Hc1').
  apply applyMigration_inv in Ha.
  destruct Ha as (l & _ & _ & _ & _ & _ & tx & rel & Hrun & Hdel & Hdb).
  cbn [db log] in *.
  rewrite (find_migration_version m c mg Hfind) in *.
  apply run_statements_tracking in Hrun;
    [|apply Hk; eapply find_migration_In; eassumption].
  rewrite Hrun, Ht in Hdel. cbn [delete_version] in Hdel.
  inversion Hdel; subst rel; clear Hdel.
  split; [exact Hc0|]. split.
  { exists ([Printf "Rolling back migration %d...\n" [Int c]] ++ l1
              ++ [Printf "Migration %d rolled back successfully\n" [Int c]]).
    split; [rewrite Hl1, <- !app_assoc; reflexivity|].
    split.
    - rewrite !applied_app. cbn [applied app]. rewrite Hap1. reflexivity.
    - rewrite !commits_app. cbn [commits]. lia. }
  rewrite Hdb. cbn [tracking]. split; [reflexivity|].
  intros Hprev.
  destruct (current_version_is_maximum (db w) c vs Hcv Ht Hc0) as [Hin Hall].
  apply version_below_after_delete; assumption.
Qed.

Lemma down_rolls_back_witness :
  let w := Scenario.at_version [3; 2; 1; 0] Background in
  let w' := snd (Down Scenario.driver Scenario.four w) in
  3 <> 0 /\
  (exists l, log w' = log w ++ l /\ applied l = [(3, false)] /\
             commits l = 1) /\
  tracking (db w') = Rows (filter (fun x => negb (x =? 3)) [3; 2; 1; 0]) /\
  (In (3 - 1) [3; 2; 1; 0] -> CurrentVersion (db w') = Ok (3 - 1)).
Proof.
  intros w w'.
  apply (down_rolls_back_the_current_version Scenario.driver Scenario.four
           3 [3; 2; 1; 0] w w').
  - vm_compute. reflexivity.
  - reflexivity.
  - intros mg _ stmt d d' _ He. unfold Scenario.driver in He.
    cbn [Exec] in He.
    destruct (Strings.HasPrefix stmt "FAIL");
      [discriminate | inversion He; reflexivity].
  - vm_compute. reflexivity.
Defined.

(** X10.  When the database is at a version for which the loaded set has no
    migration (a negative version, or one above [maxVersion]: the database
    is ahead of the migration files), [Down] and [Steps(-k)] fail with the
    error "migration %d not found in loaded migrations" for that version
    and change nothing. *)
Theorem rollback_of_an_unknown_version_fails {Data : Type}
  (drv : Driver Data) (MIGRATIONS_DIR : string) (dir : directory)
  (ms : list Migration) (c : Z) (w : World Data) :
  loadMigrations MIGRATIONS_DIR dir = Ok ms ->
  ctx w = Background ->
  CurrentVersion (db w) = Ok c ->
  c < 0 \/ maxVersion (mkMigrator ms) < c ->
  let not_found :=
    fmt_Errorf "migration %d not found in loaded migrations" [Int c] None in
  Down drv (mkMigrator ms) w = (Err not_found, w) /\
  forall k, 0 < k <= GoInt.max_int ->
            Steps drv (mkMigrator ms) (- k) w = (Err not_found, w).
Proof.
  intros Hload Hctx Hcv Hc not_found.
  apply loadMigrations_well_formed in Hload.
  assert (Hnone : find_migration (mkMigrator ms) c = None).
  { destruct (find_migration (mkMigrator ms) c) as [mg|] eqn:Hf;
      [|reflexivity].
    apply find_migration_in_range in Hf; [lia|exact Hload]. }
  assert (Hw : checked w = w).
  { destruct w as [d0 c0 l0]. cbn in Hctx. subst c0. reflexivity. }
  assert (Hlive : ctx w <> Cancelled) by (rewrite Hctx; discriminate).
  assert (Hc0 : c <> 0).
  { destruct Hload as [Hne _]. unfold maxVersion, len_migrations in Hc.
    destruct ms as [|m0 ms']; [contradiction|].
    cbn [migrations List.length] in Hc. lia. }
  split.
  - rewrite (Down_eq drv _ w c); try assumption.
    + apply Z.eqb_neq in Hc0. rewrite Hc0, Hnone, !Hw. reflexivity.
    + rewrite Hctx. discriminate.
  - intros k Hk. rewrite Steps_backward_eq by exact Hk.
    destruct (ctx_cancelled_dec (ctx w)) as [Hc1|Hc1]; [contradiction|].
    destruct (ctx_cancelled_dec (after_check (ctx w))) as [Hc2|Hc2].
    { rewrite Hctx in Hc2. discriminate. }
    rewrite Hcv, !Hw.
    destruct (Z.to_nat k) as [|fuel] eqn:Hf; [lia|].
    rewrite steps_backward_step by lia.
    destruct (ctx_cancelled_dec (ctx w)) as [Hc3|Hc3]; [contradiction|].
    rewrite Hnone, Hw. reflexivity.
Qed.

Lemma rollback_of_unknown_version_witness :
  let w := Scenario.at_version [7; 0] Background in
  let not_found :=
    fmt_Errorf "migration %d not found in loaded migrations" [Int 7] None in
  Down Scenario.driver Scenario.four w = (Err not_found, w) /\
  forall k, 0 < k <= GoInt.max_int ->
            Steps Scenario.driver Scenario.four (- k) w = (Err not_found, w).
Proof.
  intros w.
  apply (rollback_of_an_unknown_version_fails Scenario.driver "migrations"
           Scenario.four_versions (migrations Scenario.four) 7 w).
  - vm_compute. reflexivity.
  - reflexivity.
  - vm_compute. reflexivity.
  - right. vm_compute. reflexivity.
Defined.

(** ** [Steps], backward *)

Lemma recorded_versions_bounded {Data : Type} (d : DB Data) (c : Z)
  (vs : list Z) :
  CurrentVersion d = Ok c -> tracking d = Rows vs ->
  forall x, In x vs -> x <= c.
Proof.
  rewrite CurrentVersion_eq. intros H Ht. rewrite Ht in H.
  destruct vs as [|a l]; [intros x []|].
  destruct (select_max (Rows (a :: l))) as [| | |v] eqn:Hs; try discriminate.
  inversion H; subst. apply select_max_value in Hs. apply Hs.
Qed.

Lemma filter_all_below (c : Z) (vs : list Z) :
  (forall x, In x vs -> x <= c) -> filter (fun x => x <=? c) vs = vs.
Proof.
  induction vs as [|a l IH]; intros H; simpl; [reflexivity|].
  assert (Ha : (a <=? c) = true)
    by (apply Z.leb_le, H; left; reflexivity).
  rewrite Ha, IH; [reflexivity|]. intros x Hx. apply H. right. exact Hx.
Qed.

Lemma delete_top_of_filter (c : Z) (vs : list Z) :
  filter (fun x => negb (x =? c)) (filter (fun x => x <=? c) vs)
  = filter (fun x => x <=? c - 1) vs.
Proof.
  induction vs as [|a l IH]; simpl; [reflexivity|].
  destruct (a <=? c) eqn:H1; simpl.
  - destruct (a =? c) eqn:H2; simpl.
    + apply Z.eqb_eq in H2.
      assert (H3 : (a <=? c - 1) = false) by (apply Z.leb_gt; lia).
      rewrite H3. exact IH.
    + apply Z.eqb_neq in H2. apply Z.leb_le in H1.
      assert (H3 : (a <=? c - 1) = true) by (apply Z.leb_le; lia).
      rewrite H3, IH. reflexivity.
  - apply Z.leb_gt in H1.
    assert (H3 : (a <=? c - 1) = false) by (apply Z.leb_gt; lia).
    rewrite H3. exact IH.
Qed.

Section BackwardRuns.

Variable Data : Type.
Variable drv : Driver Data.
Variable m : Migrator.
Variable vs : list Z.

Hypothesis down_scripts :
  forall mg, In mg (migrations m) -> keeps_tracking drv (DownSQL mg).

(** The backward loop rolls back the versions from [cv] downward, one
    after the other, and takes one row out of the relation with each
    transaction it commits. *)
Lemma steps_backward_in_order (fuel : nat) :
  forall (rc i cv : Z) (w w' : World Data) (r : result unit),
    fuel = Z.to_nat (rc - i) ->
    tracking (db w) = Rows (filter (fun x => x <=? cv) vs) ->
    steps_backward drv m fuel rc i cv w = (r, w') ->
    exists l n,
      log w' = log w ++ l /\
      applied l = map (fun v => (v, false)) (descending cv n) /\
      (n <= fuel)%nat /\
      0 <= commits l <= Z.of_nat n /\
      tracking (db w')
      = Rows (filter (fun x => x <=? cv - commits l) vs) /\
      match r with
      | Ok _ =>
          n = fuel /\ commits l = Z.of_nat n /\
          (0 <= cv -> Z.of_nat n <= cv)
      | Err _ => True
      | Panic _ => False
      end.
Proof.
  induction fuel as [|fuel IH]; intros rc i cv w w' r Hf Ht H.
  - simpl in H. inversion H; subst. exists [], O. rewrite app_nil_r.
    cbn [commits]. rewrite Z.sub_0_r. repeat split; auto; lia.
  - assert (Hnone : forall w0 e,
               (r, w') = (Err e, w0) -> db w0 = db w -> log w0 = log w ->
               exists l n,
                 log w' = log w ++ l /\
                 applied l = map (fun v => (v, false)) (descending cv n) /\
                 (n <= S fuel)%nat /\
                 0 <= commits l <= Z.of_nat n /\
                 tracking (db w')
                 = Rows (filter (fun x => x <=? cv - commits l) vs) /\
                 match r with
                 | Ok _ =>
                     n = S fuel /\ commits l = Z.of_nat n /\
                     (0 <= cv -> Z.of_nat n <= cv)
                 | Err _ => True
                 | Panic _ => False
                 end).
    { intros w0 e E Hd Hl. inversion E; subst. exists [], O.
      rewrite app_nil_r, Hd. cbn [commits]. rewrite Z.sub_0_r.
      repeat split; auto; lia. }
    assert (Hlt : i < rc) by lia.
    destruct (Z.eq_dec cv 0) as [Hz|Hcv].
    { subst cv. rewrite steps_backward_at_zero in H by exact Hlt.
      symmetry in H. eapply Hnone; [exact H|reflexivity|reflexivity]. }
    rewrite steps_backward_step in H by assumption.
    destruct (ctx_cancelled_dec (ctx w)) as [Hc|Hc];
      [symmetry in H; eapply Hnone; [exact H|reflexivity|reflexivity]|].
    destruct (find_migration m cv) as [mg|] eqn:Hfind;
      [|symmetry in H; eapply Hnone; [exact H|reflexivity|reflexivity]].
    destruct (String.eqb (Strings.TrimSpace (DownSQL mg)) "");
      [symmetry in H; eapply Hnone; [exact H|reflexivity|reflexivity]|].
    destruct (applyMigration drv mg false cv (checked w)) as [r1 w1] eqn:Ha.
    pose proof Ha as Hstep. apply applyMigration_step in Hstep.
    destruct Hstep as (l1 & Hl1 & Hap1 & Hr1).
    cbn [log checked] in Hl1.
    pose proof (find_migration_version m cv mg Hfind) as Hv.
    rewrite Hv in *.
    destruct r1 as [[]|e1|msg1].
    + apply applyMigration_inv in Ha.
      destruct Ha as (l & _ & _ & _ & _ & _ & tx & rel & Hrun & Hdel & Hdb).
      cbn [db checked] in Hrun. rewrite Hv in Hdel.
      apply run_statements_tracking in Hrun;
        [|apply down_scripts; eapply find_migration_In; eassumption].
      rewrite Hrun, Ht in Hdel. cbn [delete_version] in Hdel.
      rewrite delete_top_of_filter in Hdel.
      inversion Hdel; subst rel; clear Hdel.
      apply IH in H; [|lia|rewrite Hdb; reflexivity].
      destruct H as (l2 & n & Hl2 & Hap2 & Hn & Hc2 & Ht2 & Hr).
      exists (l1 ++ l2), (S n).
      split; [rewrite Hl2, Hl1, <- app_assoc; reflexivity|].
      split.
      { rewrite applied_app, Hap1, Hap2. reflexivity. }
      split; [lia|]. rewrite commits_app, Hr1.
      split; [lia|]. split.
      { rewrite Ht2. f_equal.
        apply filter_ext. intros x. f_equal. lia. }
      destruct r; auto. destruct Hr as (-> & Hc3 & Hle).
      split; [reflexivity|]. split; lia.
    + inversion H; subst. destruct Hr1 as [Hc1 Hdb].
      exists l1, 1%nat. split; [exact Hl1|].
      split; [rewrite Hap1; reflexivity|]. split; [lia|].
      rewrite Hc1, Z.sub_0_r, Hdb. cbn [db checked].
      repeat split; auto; lia.
    + destruct Hr1.
Qed.

End BackwardRuns.

(** X11.  A run of [Steps(-k)], [k > 0], from the current version [c]
    calls [applyMigration] downward for the versions [c], [c - 1], ... in
    this order, none skipped; with down-scripts that leave the relation
    [migrations] alone, it leaves in the relation the rows that were there
    minus one row, from [c] downward, for each transaction it committed,
    whether or not it ended in an error.  When it returns [nil] it has
    rolled back exactly [k] versions and [k <= c]; if version [c - k] was
    recorded, [CurrentVersion()] is then [c - k]. *)
Theorem steps_backward_rolls_back_in_order {Data : Type}
  (drv : Driver Data) (m : Migrator) (k c : Z) (vs : list Z)
  (w w' : World Data) (r : result unit) :
  0 < k <= GoInt.max_int ->
  CurrentVersion (db w) = Ok c -> 0 <= c ->
  tracking (db w) = Rows vs ->
  (forall mg, In mg (migrations m) -> keeps_tracking drv (DownSQL mg)) ->
  Steps drv m (- k) w = (r, w') ->
  exists l n,
    log w' = log w ++ l /\
    applied l = map (fun v => (v, false)) (descending c n) /\
    0 <= commits l <= Z.of_nat n /\ Z.of_nat n <= k /\
    tracking (db w') = Rows (filter (fun x => x <=? c - commits l) vs) /\
    match r with
    | Ok _ =>
        Z.of_nat n = k /\ commits l = k /\ k <= c /\
        (In (c - k) vs -> CurrentVersion (db w') = Ok (c - k))
    | Err _ => True
    | Panic _ => False
    end.
Proof.
  intros Hk Hcv H0 Ht Hdown H.
  pose proof (recorded_versions_bounded (db w) c vs Hcv Ht) as Hall.
  rewrite Steps_backward_eq in H by exact Hk.
  assert (Hnone : forall w0 e,
             (r, w') = (Err e, w0) -> db w0 = db w -> log w0 = log w ->
             exists l n,
               log w' = log w ++ l /\
               applied l = map (fun v => (v, false)) (descending c n) /\
               0 <= commits l <= Z.of_nat n /\ Z.of_nat n <= k /\
               tracking (db w')
               = Rows (filter (fun x => x <=? c - commits l) vs) /\
               match r with
               | Ok _ =>
                   Z.of_nat n = k /\ commits l = k /\ k <= c /\
                   (In (c - k) vs -> CurrentVersion (db w') = Ok (c - k))
               | Err _ => True
               | Panic _ => False
               end).
  { intros w0 e E Hd Hl. inversion E; subst. exists [], O.
    rewrite app_nil_r, Hd, Ht. cbn [commits]. rewrite Z.sub_0_r.
    rewrite filter_all_below by exact Hall. repeat split; auto; lia. }
  destruct (ctx_cancelled_dec (ctx w)) as [Hc1|Hc1];
    [symmetry in H; eapply Hnone; [exact H|reflexivity|reflexivity]|].
  destruct (ctx_cancelled_dec (after_check (ctx w))) as [Hc2|Hc2];
    [symmetry in H; eapply Hnone; [exact H|reflexivity|reflexivity]|].
  rewrite Hcv in H.
  apply (steps_backward_in_order Data drv m vs Hdown) in H.
  - destruct H as (l & n & Hl & Hap & Hn & Hc & Ht' & Hr).
    exists l, n. split; [exact Hl|]. split; [exact Hap|].
    split; [exact Hc|]. split; [lia|]. split; [exact Ht'|].
    destruct r as [[]|e|msg]; auto.
    destruct Hr as (Hnk & Hck & Hle).
    assert (Hkc : k <= c) by lia.
    split; [lia|]. split; [lia|]. split; [exact Hkc|].
    intros Hin. rewrite CurrentVersion_eq, Ht'.
    rewrite (select_max_spec _ (c - k)); [reflexivity| |].
    + apply filter_In. split; [exact Hin|]. apply Z.leb_le. lia.
    + intros x Hx. apply filter_In in Hx. destruct Hx as [_ Hx].
      apply Z.leb_le in Hx. lia.
  - lia.
  - cbn [db checked]. rewrite Ht, filter_all_below by exact Hall.
    reflexivity.
Qed.

Lemma steps_backward_witness :
  let w := Scenario.at_version [3; 2; 1; 0] Background in
  let w' := snd (Steps Scenario.driver Scenario.four (- 2) w) in
  exists l n,
    log w' = log w ++ l /\
    applied l = map (fun v => (v, false)) (descending 3 n) /\
    0 <= commits l <= Z.of_nat n /\ Z.of_nat n <= 2 /\
    tracking (db w')
    = Rows (filter (fun x => x <=? 3 - commits l) [3; 2; 1; 0]) /\
    Z.of_nat n = 2 /\ commits l = 2 /\ 2 <= 3 /\
    (In (3 - 2) [3; 2; 1; 0] -> CurrentVersion (db w') = Ok (3 - 2)).
Proof.
  intros w w'.
  apply (steps_backward_rolls_back_in_order Scenario.driver Scenario.four
           2 3 [3; 2; 1; 0] w w' (Ok tt)).
  - unfold GoInt.max_int. lia.
  - vm_compute. reflexivity.
  - lia.
  - reflexivity.
  - intros mg _ stmt d d' _ He. unfold Scenario.driver in He.
    cbn [Exec] in He.
    destruct (Strings.HasPrefix stmt "FAIL");
      [discriminate | inversion He; reflexivity].
  - vm_compute. reflexivity.
Defined.

(** ** [Steps], one step forward and back *)

Lemma delete_fresh_top (c : Z) (vs : list Z) :
  (forall x, In x vs -> x <= c) ->
  filter (fun x => negb (x =? c + 1)) ((c + 1) :: vs) = vs.
Proof.
  intros H. cbn [filter]. rewrite Z.eqb_refl. cbn [negb].
  induction vs as [|a l IH]; [reflexivity|]. cbn [filter].
  assert (Ha : (a =? c + 1) = false).
  { apply Z.eqb_neq. specialize (H a (or_introl eq_refl)). lia. }
  rewrite Ha. cbn [negb]. f_equal. apply IH.
  intros x Hx. apply H. right. exact Hx.
Qed.

(** The search of [Down] and [Steps] in a set the loader returned finds
    the migration at the index that is the version. *)
Lemma find_migration_at_index (m : Migrator) (c : Z) (mg : Migration) :
  well_formed (migrations m) ->
  find_migration m c = Some mg -> index (migrations m) c = Some mg.
Proof.
  intros Hwf H. pose proof (find_migration_version m c mg H) as Hv.
  apply find_migration_In in H. apply In_nth_error in H.
  destruct H as [n Hn].
  assert (Hlt : (n < List.length (migrations m))%nat).
  { apply nth_error_Some. congruence. }
  assert (Hi : index (migrations m) (Z.of_nat n) = Some mg).
  { unfold index.
    assert (H1 : (0 <=? Z.of_nat n) = true) by (apply Z.leb_le; lia).
    assert (H2 : (Z.of_nat n <? Z.of_nat (List.length (migrations m))) = true)
      by (apply Z.ltb_lt; lia).
    rewrite H1, H2, Nat2Z.id. exact Hn. }
  pose proof (well_formed_in_place _ Hwf _ _ Hi) as Hn'.
  rewrite Hv in Hn'. rewrite Hn'. exact Hi.
Qed.

(** X12.  The round trip holds for a single step.  From a database at
    version [c >= 0] below [maxVersion], [Steps(1)] followed by
    [Steps(-1)], when both return [nil], apply version [c + 1] and roll it
    back, and leave the relation [migrations] exactly as it was, so that
    [CurrentVersion()] is [c] again.  (The two scripts of version [c + 1]
    are taken not to write the relation; nothing is asked of the scripts
    of the other versions.) *)
Theorem single_step_round_trip {Data : Type} (drv : Driver Data)
  (MIGRATIONS_DIR : string) (dir : directory) (ms : list Migration)
  (c : Z) (vs : list Z) (w w1 w2 : World Data) :
  loadMigrations MIGRATIONS_DIR dir = Ok ms ->
  CurrentVersion (db w) = Ok c -> 0 <= c < maxVersion (mkMigrator ms) ->
  tracking (db w) = Rows vs ->
  (forall mg, index ms (c + 1) = Some mg ->
              keeps_tracking drv (UpSQL mg) /\ keeps_tracking drv (DownSQL mg)) ->
  Steps drv (mkMigrator ms) 1 w = (Ok tt, w1) ->
  Steps drv (mkMigrator ms) (- 1) w1 = (Ok tt, w2) ->
  tracking (db w1) = Rows ((c + 1) :: vs) /\
  tracking (db w2) = tracking (db w) /\
  CurrentVersion (db w2) = Ok c /\
  exists l, log w2 = log w ++ l /\
            applied l = [(c + 1, true); (c + 1, false)].
Proof.
  intros Hload Hcv Hc Ht Hk H1 H2.
  apply loadMigrations_well_formed in Hload.
  pose proof (well_formed_in_place ms Hload) as Hplace.
  pose proof (recorded_versions_bounded (db w) c vs Hcv Ht) as Hall.
  (* forward *)
  rewrite Steps_forward_eq in H1 by lia.
  destruct (ctx_cancelled_dec (ctx w)) as [Hc1|Hc1]; [discriminate|].
  destruct (ctx_cancelled_dec (after_check (ctx w))) as [Hc2|Hc2];
    [discriminate|].
  rewrite Hcv in H1. change (Z.to_nat 1) with 1%nat in H1.
  unfold maxVersion in Hc.
  destruct (index_in_range ms (c + 1 + 0)) as [mg Hi];
    [unfold len_migrations in Hc; cbn [migrations] in Hc; lia|].
  destruct (ctx_cancelled_dec (ctx (checked (checked w)))) as [Hc3|Hc3].
  { rewrite (steps_forward_cancelled _ _ _ _ _ _ _ _ mg) in H1
      by (try assumption; lia).
    discriminate. }
  rewrite (steps_forward_step _ _ _ _ _ _ _ _ mg) in H1
    by (try assumption; lia).
  destruct (applyMigration drv mg true c _) as [r1 w1'] eqn:Ha.
  destruct r1 as [[]|e1|msg1]; try discriminate.
  cbn [steps_forward] in H1. unfold ret in H1.
  inversion H1; subst w1'; clear H1.
  pose proof Ha as Hstep. apply applyMigration_step in Hstep.
  destruct Hstep as (l1 & Hl1 & Hap1 & _).
  apply applyMigration_inv in Ha.
  destruct Ha as (l & _ & _ & _ & _ & _ & tx & rel & Hrun & Hins & Hdb).
  cbn [db log checked] in *.
  pose proof (Hplace _ _ Hi) as Hv. rewrite Hv in *.
  replace (c + 1 + 0) with (c + 1) in * by lia.
  destruct (Hk mg Hi) as [Hkup Hkdown].
  apply run_statements_tracking in Hrun; [|exact Hkup].
  rewrite Hrun, Ht in Hins. cbn [insert_version] in Hins.
  assert (Hm : mem (c + 1) vs = false).
  { destruct (mem (c + 1) vs) eqn:Hm; [|reflexivity].
    apply mem_In in Hm. apply Hall in Hm. lia. }
  rewrite Hm in Hins. inversion Hins; subst rel; clear Hins.
  assert (Ht1 : tracking (db w1) = Rows ((c + 1) :: vs))
    by (rewrite Hdb; reflexivity).
  assert (Hcv1 : CurrentVersion (db w1) = Ok (c + 1)).
  { rewrite CurrentVersion_eq, Ht1.
    rewrite (select_max_spec _ (c + 1)); [reflexivity|left; reflexivity|].
    intros x [->|Hx]; [lia|]. apply Hall in Hx. lia. }
  (* backward *)
  rewrite (Steps_backward_eq Data drv (mkMigrator ms) 1) in H2
    by (unfold GoInt.max_int; lia).
  destruct (ctx_cancelled_dec (ctx w1)) as [Hc4|Hc4]; [discriminate|].
  destruct (ctx_cancelled_dec (after_check (ctx w1))) as [Hc5|Hc5];
    [discriminate|].
  rewrite Hcv1 in H2. change (Z.to_nat 1) with 1%nat in H2.
  rewrite steps_backward_step in H2 by lia.
  destruct (ctx_cancelled_dec (ctx (checked (checked w1)))) as [Hc6|Hc6];
    [discriminate|].
  destruct (find_migration (mkMigrator ms) (c + 1)) as [mg'|] eqn:Hf;
    [|discriminate].
  destruct (String.eqb (Strings.TrimSpace (DownSQL mg')) "");
    [discriminate|].
  destruct (applyMigration drv mg' false (c + 1) _) as [r2 w2'] eqn:Hb.
  destruct r2 as [[]|e2|msg2]; try discriminate.
  rewrite steps_backward_done in H2 by lia.
  inversion H2; subst w2'; clear H2.
  apply find_migration_at_index in Hf; [|exact Hload].
  cbn [migrations] in Hf. rewrite Hi in Hf. inversion Hf; subst mg'; clear Hf.
  pose proof Hb as Hstep2. apply applyMigration_step in Hstep2.
  destruct Hstep2 as (l2 & Hl2 & Hap2 & _).
  apply applyMigration_inv in Hb.
  destruct Hb as (l' & _ & _ & _ & _ & _ & tx2 & rel2 & Hrun2 & Hdel & Hdb2).
  cbn [db log checked] in *. rewrite Hv in *.
  apply run_statements_tracking in Hrun2; [|exact Hkdown].
  rewrite Hrun2, Ht1 in Hdel. cbn [delete_version] in Hdel.
  rewrite (delete_fresh_top c vs Hall) in Hdel.
  inversion Hdel; subst rel2; clear Hdel.
  assert (Hback : tracking (db w2) = Rows vs) by (rewrite Hdb2; reflexivity).
  split; [exact Ht1|]. split; [rewrite Hback, Ht; reflexivity|].
  split.
  { rewrite <- Hcv. apply CurrentVersion_tracking.
    rewrite Hback, Ht. reflexivity. }
  exists (l1 ++ l2). split; [rewrite Hl2, Hl1, <- app_assoc; reflexivity|].
  rewrite applied_app, Hap1, Hap2. reflexivity.
Qed.

Lemma single_step_round_trip_witness :
  let w := Scenario.at_version [1; 0] Background in
  let w1 := snd (Steps Scenario.writing Scenario.seeded 1 w) in
  let w2 := snd (Steps Scenario.writing Scenario.seeded (- 1) w1) in
  tracking (db w1) = Rows ((1 + 1) :: [1; 0]) /\
  tracking (db w2) = tracking (db w) /\
  CurrentVersion (db w2) = Ok 1 /\
  exists l, log w2 = log w ++ l /\
            applied l = [(1 + 1, true); (1 + 1, false)].
Proof.
  intros w w1 w2.
  apply (single_step_round_trip Scenario.writing "migrations"
           Scenario.seeded_versions (migrations Scenario.seeded) 1 [1; 0]
           w w1 w2).
  - vm_compute. reflexivity.
  - vm_compute. reflexivity.
  - vm_compute. split; [discriminate|reflexivity].
  - reflexivity.
  - intros mg Hi. vm_compute in Hi. inversion Hi; subst mg; clear Hi.
    split; intros stmt d d' Hin He; cbv in Hin;
      destruct Hin as [<-|[]]; cbv in He; inversion He; reflexivity.
  - vm_compute. reflexivity.
  - vm_compute. reflexivity.
Defined.

(** X13.  [Steps(0)] does nothing, and neither does [Steps] of the least
    [int], whose negation is itself and so gives a negative count of
    rollbacks: with a live context and a version that can be read, both
    return [nil] without calling [applyMigration], whatever the current
    version is. *)
Theorem steps_of_zero_does_nothing {Data : Type} (drv : Driver Data)
  (m : Migrator) (n c : Z) (w : World Data) :
  n = 0 \/ n = GoInt.min_int ->
  ctx w <> Cancelled -> after_check (ctx w) <> Cancelled ->
  CurrentVersion (db w) = Ok c ->
  exists w',
    Steps drv m n w = (Ok tt, w') /\ db w' = db w /\ log w' = log w.
Proof.
  intros Hn H1 H2 Hcv. unfold Steps. rewrite prologue.
  destruct (ctx_cancelled_dec (ctx w)); [contradiction|].
  destruct (ctx_cancelled_dec (after_check (ctx w))); [contradiction|].
  rewrite Hcv. exists (checked (checked w)).
  destruct Hn as [-> | ->].
  - split; [reflexivity|]. split; reflexivity.
  - split; [vm_compute; reflexivity|]. split; reflexivity.
Qed.

Lemma steps_of_zero_witness :
  exists w',
    Steps Scenario.driver Scenario.four GoInt.min_int
      (Scenario.at_version [2; 1; 0] Background)
    = (Ok tt, w') /\
    db w' = mkDB (Rows [2; 1; 0]) [] /\ log w' = [].
Proof.
  apply (steps_of_zero_does_nothing Scenario.driver Scenario.four
           GoInt.min_int 2 (Scenario.at_version [2; 1; 0] Background)).
  - right. reflexivity.
  - discriminate.
  - discriminate.
  - vm_compute. reflexivity.
Defined.

(** ** [Steps], forward *)

Lemma triangle_succ (i : Z) : triangle (i + 1) = triangle i + i + 1.
Proof.
  unfold triangle.
  replace ((i + 1) * (i + 1 + 1)) with (i * (i + 1) + (i + 1) * 2) by ring.
  rewrite Z.div_add by lia. ring.
Qed.

Section ForwardRuns.

Variable Data : Type.
Variable drv : Driver Data.
Variable m : Migrator.

Hypothesis in_place :
  forall i mg, index (migrations m) i = Some mg -> Version mg = i.

(** The forward loop of [Steps], entered for its iteration number [i] with
    [currentVersion = cv]: with [base = cv - triangle i], the iterations
    [i + 1], [i + 2], ... it makes apply the versions [base + triangle (i +
    1)], [base + triangle (i + 2)], ... *)
Lemma steps_forward_versions (fuel : nat) :
  forall (steps i cv : Z) (w w' : World Data) (r : result unit),
    fuel = Z.to_nat (steps - i) ->
    0 <= i -> 0 <= cv + 1 + i ->
    steps_forward drv m fuel steps i cv w = (r, w') ->
    exists l k,
      log w' = log w ++ l /\
      applied l
      = map (fun j => (cv - triangle i + triangle j, true))
          (ascending (i + 1) k) /\
      (k <= fuel)%nat /\
      match r with
      | Ok _ =>
          k = fuel \/
          len_migrations m
          <= cv - triangle i + triangle (i + Z.of_nat k + 1)
      | Err _ => True
      | Panic _ => False
      end.
Proof.
  induction fuel as [|fuel IH]; intros steps i cv w w' r Hf Hi0 Hidx H.
  - simpl in H. inversion H; subst. exists [], O. rewrite app_nil_r.
    repeat split; auto.
  - assert (H1 : i < steps) by lia.
    destruct (Z_lt_dec (cv + 1 + i) (len_migrations m)) as [H2|H2].
    2:{ rewrite steps_forward_done in H by lia. inversion H; subst.
        exists [], O. rewrite app_nil_r. repeat split; auto; [lia|].
        right. rewrite Z.add_0_r, triangle_succ. lia. }
    destruct (index_in_range (migrations m) (cv + 1 + i)) as [mg Hi];
      [unfold len_migrations in H2; lia|].
    destruct (ctx_cancelled_dec (ctx w)) as [Hc|Hc].
    { rewrite (steps_forward_cancelled _ _ _ _ _ _ _ _ mg) in H
        by assumption.
      inversion H; subst. exists [], O. rewrite app_nil_r.
      repeat split; auto. lia. }
    rewrite (steps_forward_step _ _ _ _ _ _ _ _ mg) in H by assumption.
    destruct (applyMigration drv mg true cv (checked w)) as [r1 w1] eqn:Ha.
    apply applyMigration_step in Ha. destruct Ha as (l1 & Hl1 & Hap1 & Hr1).
    cbn [log checked] in Hl1. rewrite (in_place _ _ Hi) in Hap1.
    assert (Hv : cv + 1 + i = cv - triangle i + triangle (i + 1))
      by (rewrite triangle_succ; lia).
    destruct r1 as [[]|e1|msg1].
    + apply IH in H; [|lia|lia|lia].
      destruct H as (l2 & k & Hl2 & Hap2 & Hk & Hr).
      assert (Hbase : cv + 1 + i - triangle (i + 1) = cv - triangle i)
        by (rewrite triangle_succ; lia).
      rewrite Hbase in Hap2, Hr.
      exists (l1 ++ l2), (S k).
      split; [rewrite Hl2, Hl1, <- app_assoc; reflexivity|].
      split.
      { rewrite applied_app, Hap1, Hap2. cbn [ascending map app].
        rewrite <- Hv. reflexivity. }
      split; [lia|]. destruct r; auto.
      destruct Hr as [->|Hr]; [left; reflexivity|right].
      replace (i + Z.of_nat (S k) + 1) with (i + 1 + Z.of_nat k + 1) by lia.
      exact Hr.
    + inversion H; subst. exists l1, 1%nat.
      split; [exact Hl1|]. split.
      { rewrite Hap1. cbn [ascending map]. rewrite <- Hv. reflexivity. }
      split; [lia|exact I].
    + destruct Hr1.
Qed.

End ForwardRuns.

(** X14.  What [Steps(n)], [n > 0], applies.  From the current version
    [c >= 0], the migrations for which it calls [applyMigration] are, in
    this order, the versions [c + 1], [c + 3], [c + 6], ...: the [j]-th is
    [c + triangle j].  There are at most [n] of them; when [Steps] returns
    [nil] there are [n], or the next one, [c + triangle (k + 1)], would lie
    beyond [maxVersion].  [Steps] does not panic. *)
Theorem steps_forward_applies_triangular_versions {Data : Type}
  (drv : Driver Data) (MIGRATIONS_DIR : string) (dir : directory)
  (ms : list Migration) (n c : Z) (w w' : World Data) (r : result unit) :
  loadMigrations MIGRATIONS_DIR dir = Ok ms ->
  0 < n ->
  CurrentVersion (db w) = Ok c -> 0 <= c ->
  Steps drv (mkMigrator ms) n w = (r, w') ->
  exists l k,
    log w' = log w ++ l /\
    applied l = map (fun j => (c + triangle j, true)) (ascending 1 k) /\
    Z.of_nat k <= n /\
    match r with
    | Ok _ =>
        Z.of_nat k = n \/
        maxVersion (mkMigrator ms) < c + triangle (Z.of_nat k + 1)
    | Err _ => True
    | Panic _ => False
    end.
Proof.
  intros Hload Hn Hcv H0 H.
  apply loadMigrations_well_formed in Hload.
  rewrite Steps_forward_eq in H by exact Hn.
  assert (Hnone : forall w0 e,
             (r, w') = (Err e, w0) -> log w0 = log w ->
             exists l k,
               log w' = log w ++ l /\
               applied l
               = map (fun j => (c + triangle j, true)) (ascending 1 k) /\
               Z.of_nat k <= n /\
               match r with
               | Ok _ =>
                   Z.of_nat k = n \/
                   maxVersion (mkMigrator ms) < c + triangle (Z.of_nat k + 1)
               | Err _ => True
               | Panic _ => False
               end).
  { intros w0 e E Hl. inversion E; subst. exists [], O.
    rewrite app_nil_r. repeat split; auto. lia. }
  destruct (ctx_cancelled_dec (ctx w)) as [Hc1|Hc1];
    [symmetry in H; eapply Hnone; [exact H|reflexivity]|].
  destruct (ctx_cancelled_dec (after_check (ctx w))) as [Hc2|Hc2];
    [symmetry in H; eapply Hnone; [exact H|reflexivity]|].
  rewrite Hcv in H.
  apply (steps_forward_versions Data drv (mkMigrator ms)
           (well_formed_in_place ms Hload)) in H; try lia.
  - destruct H as (l & k & Hl & Hap & Hk & Hr).
    change (triangle 0) with 0 in Hap, Hr. rewrite Z.sub_0_r in Hap, Hr.
    exists l, k. split; [exact Hl|]. split; [exact Hap|].
    split; [lia|]. destruct r; auto.
    destruct Hr as [Hr|Hr]; [left; lia|right].
    unfold maxVersion. cbn [Z.add] in Hr. lia.
Qed.

Lemma steps_forward_triangular_witness :
  let w := Scenario.at_zero in
  exists l k,
    log (snd (Steps Scenario.driver Scenario.four 3 w)) = log w ++ l /\
    applied l = map (fun j => (0 + triangle j, true)) (ascending 1 k) /\
    Z.of_nat k <= 3 /\
    (Z.of_nat k = 3 \/
     maxVersion Scenario.four < 0 + triangle (Z.of_nat k + 1)).
Proof.
  intros w.
  apply (steps_forward_applies_triangular_versions Scenario.driver
           "migrations" Scenario.four_versions (migrations Scenario.four)
           3 0 w _ (Ok tt)).
  - vm_compute. reflexivity.
  - lia.
  - vm_compute. reflexivity.
  - lia.
  - vm_compute. reflexivity.
Defined.

(** ** The loader *)

Section LoaderRuns.

Variable MIGRATIONS_DIR : string.

(** One iteration of the loader's loop, by what the entry is. *)
Lemma load_entries_cons (entry : DirEntry) (rest : list DirEntry)
  (ms : list Migration) (maxV : Z) :
  load_entries MIGRATIONS_DIR (entry :: rest) ms maxV =
  match migration_file entry with
  | None => load_entries MIGRATIONS_DIR rest ms maxV
  | Some (version, isUp) =>
      match index ms version with
      | None => Panic "runtime error: index out of range"
      | Some current =>
          match ReadFile entry with
          | inr msg =>
              Err (fmt_Errorf "failed to read migration file %s: %w"
                     [Str (filepath_Join MIGRATIONS_DIR (Name entry))]
                     (Some (external msg)))
          | inl content =>
              load_entries MIGRATIONS_DIR rest
                (update
                   (if Migration_eqb current Migration_zero
                    then update ms version (set_Version version) else ms)
                   version
                   (if isUp then set_UpSQL content else set_DownSQL content))
                (if version >? maxV then version else maxV)
          end
      end
  end.
Proof.
  cbn [load_entries]. unfold migration_file.
  destruct (IsDir entry); [reflexivity|].
  destruct (Strings.len (Name entry) <? 6); [reflexivity|].
  destruct (Strconv.Atoi _) as [version|]; [|reflexivity].
  destruct (direction_of_name (Name entry)) as [isUp|]; [|reflexivity].
  destruct (index ms version) as [current|]; [|reflexivity].
  destruct (ReadFile entry) as [content|msg]; [|reflexivity].
  destruct isUp; reflexivity.
Qed.

(** The loader's loop does not panic when every file it reads a version
    off has a slot. *)
Lemma load_entries_no_panic (entries : list DirEntry) :
  forall (ms : list Migration) (maxV : Z) (msg : string),
    (forall entry version isUp,
        In entry entries -> migration_file entry = Some (version, isUp) ->
        0 <= version < Z.of_nat (List.length ms)) ->
    load_entries MIGRATIONS_DIR entries ms maxV <> Panic msg.
Proof.
  induction entries as [|entry rest IH]; intros ms maxV msg Hall.
  - discriminate.
  - rewrite load_entries_cons.
    destruct (migration_file entry) as [[version isUp]|] eqn:Hf.
    + destruct (index_in_range ms version) as [current Hi];
        [eapply Hall; [left; reflexivity|exact Hf]|].
      rewrite Hi. destruct (ReadFile entry) as [content|m0]; [|discriminate].
      apply IH. intros e v d He Hm. unfold update.
      rewrite update_nth_length.
      destruct (Migration_eqb current Migration_zero);
        [rewrite update_nth_length|];
        (eapply Hall; [right; exact He|exact Hm]).
    + apply IH. intros e v d He Hm. eapply Hall; [right; exact He|exact Hm].
Qed.

Lemma validate_no_panic (fuel : nat) (ms : list Migration) (maxV : Z) :
  forall version msg,
    0 <= version -> maxV < Z.of_nat (List.length ms) ->
    validate fuel ms version maxV <> Panic msg.
Proof.
  induction fuel as [|fuel IH]; intros version msg H0 Hm; [discriminate|].
  cbn [validate]. destruct (version <=? maxV) eqn:Hle; [|discriminate].
  apply Z.leb_le in Hle.
  destruct (index_in_range ms version) as [mg Hi]; [lia|]. rewrite Hi.
  destruct (String.eqb (UpSQL mg) ""); [discriminate|].
  apply IH; [lia|exact Hm].
Qed.

End LoaderRuns.

(** X15.  The loader does not panic on a directory in which every file it
    reads a version off has a version from 0 up to, and not including,
    [fileCount/2 + 5], the number of slots of its slice: it returns a set
    or an error. *)
Theorem loader_returns_within_its_slots (MIGRATIONS_DIR : string)
  (entries : list DirEntry) :
  (forall entry version isUp,
      In entry entries -> migration_file entry = Some (version, isUp) ->
      0 <= version < slots entries) ->
  (exists ms, loadMigrations MIGRATIONS_DIR (Listing entries) = Ok ms) \/
  (exists e, loadMigrations MIGRATIONS_DIR (Listing entries) = Err e).
Proof.
  intros Hall.
  assert (Hlen : Z.of_nat (List.length
                   (repeat Migration_zero (Z.to_nat (slots entries))))
                 = slots entries).
  { rewrite repeat_length. unfold slots.
    pose proof (Z.quot_pos (Z.of_nat (List.length entries)) 2). lia. }
  unfold loadMigrations. fold (slots entries).
  destruct (load_entries MIGRATIONS_DIR entries _ (-1))
    as [[ms maxV]|e|msg] eqn:Hl.
  - destruct (maxV =? -1); [right; eauto|].
    apply load_entries_inv in Hl.
    + destruct Hl as [_ Hm].
      destruct (validate _ ms 0 maxV) as [[]|e|msg] eqn:Hv;
        [left; eauto | right; eauto |].
      exfalso. revert Hv. apply validate_no_panic; lia.
    + intros n mg Hn. left. apply nth_error_In in Hn.
      apply repeat_spec in Hn. exact Hn.
    + rewrite Hlen. unfold slots.
      pose proof (Z.quot_pos (Z.of_nat (List.length entries)) 2). lia.
  - right. eauto.
  - exfalso. revert Hl. apply load_entries_no_panic.
    intros entry version isUp He Hf. rewrite Hlen. eapply Hall; eassumption.
Qed.

Lemma loader_returns_witness :
  (exists ms,
      loadMigrations "migrations"
        (Listing [Scenario.file "000000_init.up.sql" "CREATE TABLE m";
                  Scenario.file "000005_f.up.sql" "CREATE TABLE f"])
      = Ok ms) \/
  (exists e,
      loadMigrations "migrations"
        (Listing [Scenario.file "000000_init.up.sql" "CREATE TABLE m";
                  Scenario.file "000005_f.up.sql" "CREATE TABLE f"])
      = Err e).
Proof.
  apply (loader_returns_within_its_slots "migrations"
           [Scenario.file "000000_init.up.sql" "CREATE TABLE m";
            Scenario.file "000005_f.up.sql" "CREATE TABLE f"]).
  change (slots [Scenario.file "000000_init.up.sql" "CREATE TABLE m";
                 Scenario.file "000005_f.up.sql" "CREATE TABLE f"]) with 6.
  intros entry version isUp [<-|[<-|[]]] Hf; vm_compute in Hf;
    inversion Hf; subst; lia.
Defined.

Lemma Migration_eqb_eq (a b : Migration) :
  Migration_eqb a b = true -> a = b.
Proof.
  unfold Migration_eqb. intros H.
  apply andb_true_iff in H. destruct H as [H H3].
  apply andb_true_iff in H. destruct H as [H1 H2].
  apply Z.eqb_eq in H1. apply String.eqb_eq in H2, H3.
  destruct a, b. simpl in *. congruence.
Qed.

(** The slice after the loader has taken in one file. *)
Lemma slot_after_file (ms : list Migration) (version : Z) (isUp : bool)
  (content : string) (current : Migration) :
  index ms version = Some current ->
  let ms1 :=
    update
      (if Migration_eqb current Migration_zero
       then update ms version (set_Version version) else ms)
      version (if isUp then set_UpSQL content else set_DownSQL content) in
  List.length ms1 = List.length ms /\
  forall n mg1,
    nth_error ms1 n = Some mg1 ->
    exists mg0,
      nth_error ms n = Some mg0 /\
      UpSQL mg1
      = (if same_file (version, isUp) (Z.of_nat n, true) then content
         else UpSQL mg0) /\
      DownSQL mg1
      = (if same_file (version, isUp) (Z.of_nat n, false) then content
         else DownSQL mg0).
Proof.
  intros Hi ms1. apply index_Some in Hi. destruct Hi as [Hr Hn].
  set (ms' := if Migration_eqb current Migration_zero
              then update ms version (set_Version version) else ms) in *.
  assert (H' : List.length ms' = List.length ms /\
               (forall n, n <> Z.to_nat version ->
                          nth_error ms' n = nth_error ms n) /\
               exists c, nth_error ms' (Z.to_nat version) = Some c /\
                         UpSQL c = UpSQL current /\
                         DownSQL c = DownSQL current).
  { subst ms'. destruct (Migration_eqb current Migration_zero) eqn:He.
    - apply Migration_eqb_eq in He. unfold update.
      split; [apply update_nth_length|].
      split; [intros n Hne; apply update_nth_other; exact Hne|].
      eexists. split; [eapply update_nth_same; exact Hn|].
      subst current. split; reflexivity.
    - split; [reflexivity|]. split; [reflexivity|]. eauto. }
  destruct H' as (Hlen & Hother & c & Hc & Hcu & Hcd).
  subst ms1. unfold update. split; [rewrite update_nth_length; exact Hlen|].
  intros n mg1 Hn1. unfold same_file. cbn [fst snd].
  destruct (Nat.eq_dec n (Z.to_nat version)) as [->|Hne].
  - rewrite (update_nth_same _ _ _ c Hc) in Hn1.
    inversion Hn1; subst mg1; clear Hn1.
    exists current. split; [exact Hn|].
    rewrite Z2Nat.id by lia. rewrite Z.eqb_refl.
    destruct isUp; cbn; auto.
  - rewrite update_nth_other in Hn1 by exact Hne.
    rewrite Hother in Hn1 by exact Hne.
    exists mg1. split; [exact Hn1|].
    assert (Hz : (version =? Z.of_nat n) = false)
      by (apply Z.eqb_neq; lia).
    rewrite Hz. split; reflexivity.
Qed.

Section LoaderContents.

Variable MIGRATIONS_DIR : string.

(** What the loader's loop makes of the slice when it runs through. *)
Lemma load_entries_contents (entries : list DirEntry) :
  forall (ms : list Migration) (maxV : Z) (ms' : list Migration) (maxV' : Z),
    load_entries MIGRATIONS_DIR entries ms maxV = Ok (ms', maxV') ->
    List.length ms' = List.length ms /\
    (forall entry version isUp,
        In entry entries -> migration_file entry = Some (version, isUp) ->
        0 <= version < Z.of_nat (List.length ms) /\ version <= maxV' /\
        exists content, ReadFile entry = inl content) /\
    maxV <= maxV' /\
    (maxV' = maxV \/ has_file entries maxV') /\
    forall n mg',
      nth_error ms' n = Some mg' ->
      exists mg0,
        nth_error ms n = Some mg0 /\
        UpSQL mg'
        = match last_contents entries (Z.of_nat n) true with
          | Some s => s
          | None => UpSQL mg0
          end /\
        DownSQL mg'
        = match last_contents entries (Z.of_nat n) false with
          | Some s => s
          | None => DownSQL mg0
          end.
Proof.
  induction entries as [|entry rest IH]; intros ms maxV ms' maxV' H.
  - simpl in H. inversion H; subst.
    split; [reflexivity|]. split; [intros e v d []|].
    split; [lia|]. split; [left; reflexivity|].
    intros n mg' Hn. exists mg'. cbn [last_contents]. auto.
  - rewrite load_entries_cons in H.
    destruct (migration_file entry) as [[version isUp]|] eqn:Hf.
    + destruct (index ms version) as [current|] eqn:Hi; [|discriminate].
      destruct (ReadFile entry) as [content|msg] eqn:Hread; [|discriminate].
      pose proof (slot_after_file ms version isUp content current Hi)
        as [Hlen1 Hslot].
      apply IH in H. destruct H as (Hlen & Hall & Hmax & Hhas & Hnth).
      apply index_Some in Hi. destruct Hi as [Hr _].
      assert (Hge : version <= maxV' /\ maxV <= maxV').
      { destruct (version >? maxV) eqn:Hg; lia. }
      split; [rewrite Hlen; exact Hlen1|]. split.
      { intros e v d [<-|He] Hm.
        - rewrite Hf in Hm. inversion Hm; subst.
          split; [exact Hr|]. split; [lia|eauto].
        - destruct (Hall e v d He Hm) as (H1 & H2 & H3).
          rewrite Hlen1 in H1. auto. }
      split; [lia|]. split.
      { destruct Hhas as [Heq|(e & d & He & Hm)].
        - destruct (version >? maxV) eqn:Hg.
          + right. exists entry, isUp. split; [left; reflexivity|].
            rewrite Hf, Heq. reflexivity.
          + left. exact Heq.
        - right. exists e, d. split; [right; exact He|exact Hm]. }
      intros n mg' Hn. destruct (Hnth n mg' Hn) as (mg1 & Hn1 & Hu & Hd).
      destruct (Hslot n mg1 Hn1) as (mg0 & Hn0 & Hu0 & Hd0).
      exists mg0. split; [exact Hn0|].
      cbn [last_contents]. rewrite Hf, Hread.
      split.
      * rewrite Hu. destruct (last_contents rest (Z.of_nat n) true);
          [reflexivity|].
        rewrite Hu0.
        destruct (same_file (version, isUp) (Z.of_nat n, true)); reflexivity.
      * rewrite Hd. destruct (last_contents rest (Z.of_nat n) false);
          [reflexivity|].
        rewrite Hd0.
        destruct (same_file (version, isUp) (Z.of_nat n, false)); reflexivity.
    + apply IH in H. destruct H as (Hlen & Hall & Hmax & Hhas & Hnth).
      split; [exact Hlen|]. split.
      { intros e v d [<-|He] Hm; [congruence|]. eapply Hall; eassumption. }
      split; [exact Hmax|]. split.
      { destruct Hhas as [Heq|(e & d & He & Hm)]; [left; exact Heq|].
        right. exists e, d. split; [right; exact He|exact Hm]. }
      intros n mg' Hn. destruct (Hnth n mg' Hn) as (mg0 & Hn0 & Hu & Hd).
      exists mg0. split; [exact Hn0|].
      cbn [last_contents]. rewrite Hf.
      split.
      * rewrite Hu. destruct (last_contents rest (Z.of_nat n) true);
          reflexivity.
      * rewrite Hd. destruct (last_contents rest (Z.of_nat n) false);
          reflexivity.
Qed.

End LoaderContents.

(** X16.  What a loaded set holds.  When [loadMigrations] returns a set for
    a directory, [maxVersion] is the greatest version that a file of the
    directory is read as, no file is read as a negative version, and for
    every version [i] from 0 to [maxVersion] the set holds at index [i] a
    migration of version [i] whose up-script is the contents, not empty,
    of the last [.up.sql] file for [i] in the listing, and whose
    down-script is the contents of the last [.down.sql] file for [i], or
    empty when there is none. *)
Theorem loaded_set_holds_the_files (MIGRATIONS_DIR : string)
  (entries : list DirEntry) (ms : list Migration) :
  loadMigrations MIGRATIONS_DIR (Listing entries) = Ok ms ->
  let top := maxVersion (mkMigrator ms) in
  0 <= top /\
  has_file entries top /\
  (forall entry version isUp,
      In entry entries -> migration_file entry = Some (version, isUp) ->
      0 <= version <= top) /\
  forall i,
    0 <= i <= top ->
    exists mg,
      index ms i = Some mg /\
      Version mg = i /\
      UpSQL mg <> "" /\
      last_contents entries i true = Some (UpSQL mg) /\
      DownSQL mg = match last_contents entries i false with
                   | Some s => s
                   | None => ""
                   end.
Proof.
  intros Hload top.
  pose proof (loadMigrations_well_formed _ _ _ Hload) as [Hne Hwf].
  unfold loadMigrations in Hload.
  destruct (load_entries MIGRATIONS_DIR entries _ (-1))
    as [[ms0 maxV]|e|msg] eqn:Hl; try discriminate.
  destruct (maxV =? -1) eqn:Hneg; [discriminate|].
  apply Z.eqb_neq in Hneg.
  destruct (validate _ ms0 0 maxV) as [[]|e|msg]; try discriminate.
  inversion Hload; subst ms; clear Hload.
  pose proof Hl as Hinv. apply load_entries_inv in Hinv.
  2:{ intros n mg Hn. left. apply nth_error_In in Hn.
      apply repeat_spec in Hn. exact Hn. }
  2:{ rewrite repeat_length.
      pose proof (Z.quot_pos (Z.of_nat (List.length entries)) 2). lia. }
  destruct Hinv as [_ Hm].
  apply load_entries_contents in Hl.
  destruct Hl as (Hlen & Hall & Hge & Hhas & Hnth).
  assert (Htop : top = maxV).
  { unfold top, maxVersion, len_migrations. cbn [migrations].
    rewrite length_firstn. lia. }
  rewrite Htop. split; [lia|].
  split; [destruct Hhas as [Heq|Hh]; [congruence|exact Hh]|].
  split.
  { intros entry version isUp He Hf.
    destruct (Hall entry version isUp He Hf) as (H1 & H2 & _). lia. }
  intros i Hi.
  destruct (index_in_range (firstn (Z.to_nat (maxV + 1)) ms0) i) as [mg Hmg].
  { rewrite length_firstn. lia. }
  exists mg. split; [exact Hmg|].
  destruct (Hwf i mg Hmg) as [Hv Hu]. split; [exact Hv|]. split; [exact Hu|].
  apply index_Some in Hmg. destruct Hmg as [_ Hn].
  rewrite nth_error_firstn in Hn.
  destruct (Nat.ltb (Z.to_nat i) (Z.to_nat (maxV + 1))); [|discriminate].
  destruct (Hnth _ _ Hn) as (mg0 & Hn0 & Hup & Hdown).
  apply nth_error_In in Hn0. apply repeat_spec in Hn0. subst mg0.
  rewrite Z2Nat.id in Hup, Hdown by lia. cbn [UpSQL DownSQL Migration_zero] in *.
  split; [|exact Hdown].
  destruct (last_contents entries i true) as [s|]; [congruence|].
  elim Hu. exact Hup.
Qed.

Lemma loaded_set_witness :
  let entries :=
    [ Scenario.file "000000_init.up.sql" "CREATE TABLE migrations";
      Scenario.file "000001_a.up.sql" "CREATE TABLE a";
      Scenario.file "000001_a.up.sql" "CREATE TABLE a2";
      Scenario.file "000001_a.down.sql" "DROP TABLE a" ] in
  let ms :=
    [ mkMigration 0 "CREATE TABLE migrations" "";
      mkMigration 1 "CREATE TABLE a2" "DROP TABLE a" ] in
  let top := maxVersion (mkMigrator ms) in
  0 <= top /\
  has_file entries top /\
  (forall entry version isUp,
      In entry entries -> migration_file entry = Some (version, isUp) ->
      0 <= version <= top) /\
  forall i,
    0 <= i <= top ->
    exists mg,
      index ms i = Some mg /\
      Version mg = i /\
      UpSQL mg <> "" /\
      last_contents entries i true = Some (UpSQL mg) /\
      DownSQL mg = match last_contents entries i false with
                   | Some s => s
                   | None => ""
                   end.
Proof.
  intros entries ms.
  apply (loaded_set_holds_the_files "migrations" entries ms).
  vm_compute. reflexivity.
Defined.

Section LoaderRejects.

Variable MIGRATIONS_DIR : string.

Lemma load_entries_skips (entries : list DirEntry) :
  forall (ms : list Migration) (maxV : Z),
    (forall entry, In entry entries -> migration_file entry = None) ->
    load_entries MIGRATIONS_DIR entries ms maxV = Ok (ms, maxV).
Proof.
  induction entries as [|entry rest IH]; intros ms maxV H; [reflexivity|].
  rewrite load_entries_cons, (H entry (or_introl eq_refl)).
  apply IH. intros e He. apply H. right. exact He.
Qed.

Lemma load_entries_runs (entries : list DirEntry) :
  forall (ms : list Migration) (maxV : Z),
    (forall entry version isUp,
        In entry entries -> migration_file entry = Some (version, isUp) ->
        0 <= version < Z.of_nat (List.length ms) /\
        exists content, ReadFile entry = inl content) ->
    exists ms' maxV',
      load_entries MIGRATIONS_DIR entries ms maxV = Ok (ms', maxV').
Proof.
  induction entries as [|entry rest IH]; intros ms maxV H.
  - simpl. eauto.
  - rewrite load_entries_cons.
    destruct (migration_file entry) as [[version isUp]|] eqn:Hf.
    + destruct (H entry version isUp (or_introl eq_refl) Hf)
        as [Hr [content Hread]].
      destruct (index_in_range ms version Hr) as [current Hi].
      rewrite Hi, Hread. apply IH.
      intros e v d He Hm.
      destruct (slot_after_file ms version isUp content current Hi)
        as [Hlen _].
      rewrite Hlen. apply (H e v d); [right; exact He|exact Hm].
    + apply IH. intros e v d He Hm.
      apply (H e v d); [right; exact He|exact Hm].
Qed.

(** The loop stops at the first file it cannot read. *)
Lemma load_entries_unreadable (entries : list DirEntry) :
  forall (ms : list Migration) (maxV : Z),
    (forall entry version isUp,
        In entry entries -> migration_file entry = Some (version, isUp) ->
        0 <= version < Z.of_nat (List.length ms)) ->
    (exists entry f msg,
        In entry entries /\ migration_file entry = Some f /\
        ReadFile entry = inr msg) ->
    exists entry f msg,
      In entry entries /\ migration_file entry = Some f /\
      ReadFile entry = inr msg /\
      load_entries MIGRATIONS_DIR entries ms maxV
      = Err (fmt_Errorf "failed to read migration file %s: %w"
               [Str (filepath_Join MIGRATIONS_DIR (Name entry))]
               (Some (external msg))).
Proof.
  induction entries as [|entry rest IH]; intros ms maxV Hall Hbad.
  - destruct Hbad as (e & f & msg & [] & _).
  - rewrite load_entries_cons.
    destruct (migration_file entry) as [[version isUp]|] eqn:Hf.
    + destruct (index_in_range ms version) as [current Hi];
        [eapply Hall; [left; reflexivity|exact Hf]|].
      rewrite Hi. destruct (ReadFile entry) as [content|msg] eqn:Hread.
      * destruct (slot_after_file ms version isUp content current Hi)
          as [Hlen _].
        set (ms1 := update
                      (if Migration_eqb current Migration_zero
                       then update ms version (set_Version version) else ms)
                      version
                      (if isUp then set_UpSQL content
                       else set_DownSQL content)) in *.
        assert (Hall1 : forall e v d,
                   In e rest -> migration_file e = Some (v, d) ->
                   0 <= v < Z.of_nat (List.length ms1)).
        { intros e v d He Hm. rewrite Hlen.
          eapply Hall; [right; exact He|exact Hm]. }
        assert (Hbad1 : exists e f msg,
                   In e rest /\ migration_file e = Some f /\
                   ReadFile e = inr msg).
        { destruct Hbad as (e & f & msg & [<-|He] & Hm & Hr);
            [congruence|eauto 6]. }
        destruct (IH ms1 (if version >? maxV then version else maxV)
                    Hall1 Hbad1) as (e & f & msg & He & Hm & Hr & Hres).
        exists e, f, msg. rewrite Hres.
        repeat split; auto. right. exact He.
      * exists entry, (version, isUp), msg.
        split; [left; reflexivity|]. auto.
    + assert (Hall1 : forall e v d,
                 In e rest -> migration_file e = Some (v, d) ->
                 0 <= v < Z.of_nat (List.length ms)).
      { intros e v d He Hm. eapply Hall; [right; exact He|exact Hm]. }
      assert (Hbad1 : exists e f msg,
                 In e rest /\ migration_file e = Some f /\
                 ReadFile e = inr msg).
      { destruct Hbad as (e & f & msg & [<-|He] & Hm & Hr);
          [congruence|eauto 6]. }
      destruct (IH ms maxV Hall1 Hbad1) as (e & f & msg & He & Hm & Hr & Hres).
      exists e, f, msg. rewrite Hres.
        repeat split; auto. right. exact He.
Qed.

(** The validation loop returns the error for the least version without an
    up-script. *)
Lemma validate_first_gap (fuel : nat) (ms : list Migration) (maxV : Z) :
  forall version i,
    fuel = Z.to_nat (maxV + 1 - version) ->
    0 <= version <= i -> i <= maxV -> maxV < Z.of_nat (List.length ms) ->
    (exists mg, index ms i = Some mg /\ UpSQL mg = "") ->
    exists j,
      version <= j <= i /\
      (exists mg, index ms j = Some mg /\ UpSQL mg = "") /\
      (forall j' mg, version <= j' < j -> index ms j' = Some mg ->
                     UpSQL mg <> "") /\
      validate fuel ms version maxV
      = Err (fmt_Errorf "migration %d is missing up.sql file" [Int j] None).
Proof.
  induction fuel as [|fuel IH]; intros version i Hf Hv Hi Hm Hgap; [lia|].
  cbn [validate].
  assert (Hle : (version <=? maxV) = true) by (apply Z.leb_le; lia).
  rewrite Hle.
  destruct (index_in_range ms version) as [mg Hx]; [lia|]. rewrite Hx.
  destruct (String.eqb (UpSQL mg) "") eqn:Hu.
  - apply String.eqb_eq in Hu. exists version.
    split; [lia|]. split; [eauto|]. split; [intros; lia|reflexivity].
  - apply String.eqb_neq in Hu.
    assert (Hne : version <> i).
    { intros ->. destruct Hgap as (mg' & Hi' & Hu'). congruence. }
    destruct (IH (version + 1) i) as (j & Hj & Hgj & Hleast & Hres);
      try lia; try assumption.
    exists j. split; [lia|]. split; [exact Hgj|]. split; [|exact Hres].
    intros j' mg' Hj' Hi'.
    destruct (Z.eq_dec j' version) as [->|Hn]; [congruence|].
    apply (Hleast j' mg'); [lia|exact Hi'].
Qed.

End LoaderRejects.

(** X17.  A directory that cannot be read, and a directory in which no
    entry is a migration file (only subdirectories and names the loader
    passes over, or nothing at all), are rejected with an error: "failed
    to read migrations directory" and "no valid migration files found". *)
Theorem loader_rejects_a_directory_without_migrations
  (MIGRATIONS_DIR : string) :
  (forall msg,
      loadMigrations MIGRATIONS_DIR (Unreadable msg)
      = Err (fmt_Errorf "failed to read migrations directory %s: %w"
               [Str MIGRATIONS_DIR] (Some (external msg)))) /\
  (forall entries,
      (forall entry, In entry entries -> migration_file entry = None) ->
      loadMigrations MIGRATIONS_DIR (Listing entries)
      = Err (fmt_Errorf "no valid migration files found in directory %s"
               [Str MIGRATIONS_DIR] None)).
Proof.
  split; [reflexivity|].
  intros entries H. unfold loadMigrations.
  rewrite load_entries_skips by exact H. reflexivity.
Qed.

Lemma loader_rejects_no_migrations_witness :
  loadMigrations "migrations"
    (Listing [mkDirEntry "000001_archive" true (inr "is a directory");
              Scenario.file "README.md" "notes";
              Scenario.file "000001_a.sql" "CREATE TABLE a";
              Scenario.file "1_a.up.sql" "CREATE TABLE a"])
  = Err (fmt_Errorf "no valid migration files found in directory %s"
           [Str "migrations"] None).
Proof.
  destruct (loader_rejects_a_directory_without_migrations "migrations")
    as [_ H].
  apply H. intros entry [<-|[<-|[<-|[<-|[]]]]]; vm_compute; reflexivity.
Defined.

(** X18.  Within the slots of its slice the loader rejects a directory
    with a migration file that cannot be read: it returns the error
    "failed to read migration file" for such a file of the directory. *)
Theorem loader_rejects_an_unreadable_file (MIGRATIONS_DIR : string)
  (entries : list DirEntry) :
  (forall entry version isUp,
      In entry entries -> migration_file entry = Some (version, isUp) ->
      0 <= version < slots entries) ->
  (exists entry f msg,
      In entry entries /\ migration_file entry = Some f /\
      ReadFile entry = inr msg) ->
  exists entry f msg,
    In entry entries /\ migration_file entry = Some f /\
    ReadFile entry = inr msg /\
    loadMigrations MIGRATIONS_DIR (Listing entries)
    = Err (fmt_Errorf "failed to read migration file %s: %w"
             [Str (filepath_Join MIGRATIONS_DIR (Name entry))]
             (Some (external msg))).
Proof.
  intros Hall Hbad. unfold loadMigrations. fold (slots entries).
  destruct (load_entries_unreadable MIGRATIONS_DIR entries
              (repeat Migration_zero (Z.to_nat (slots entries))) (-1))
    as (e & f & msg & He & Hf & Hr & Hres).
  - intros entry version isUp He Hf. rewrite repeat_length.
    pose proof (Hall entry version isUp He Hf). lia.
  - exact Hbad.
  - exists e, f, msg. rewrite Hres. auto.
Qed.

Lemma loader_rejects_unreadable_witness :
  exists entry f msg,
    In entry [Scenario.file "000000_init.up.sql" "CREATE TABLE m";
              mkDirEntry "000001_a.up.sql" false (inr "permission denied")] /\
    migration_file entry = Some f /\
    ReadFile entry = inr msg /\
    loadMigrations "migrations"
      (Listing [Scenario.file "000000_init.up.sql" "CREATE TABLE m";
                mkDirEntry "000001_a.up.sql" false
                  (inr "permission denied")])
    = Err (fmt_Errorf "failed to read migration file %s: %w"
             [Str (filepath_Join "migrations" (Name entry))]
             (Some (external msg))).
Proof.
  apply (loader_rejects_an_unreadable_file "migrations").
  - change (slots [Scenario.file "000000_init.up.sql" "CREATE TABLE m";
                   mkDirEntry "000001_a.up.sql" false
                     (inr "permission denied")]) with 6.
    intros entry version isUp [<-|[<-|[]]] Hf; vm_compute in Hf;
      inversion Hf; subst; lia.
  - exists (mkDirEntry "000001_a.up.sql" false (inr "permission denied")),
      (1, true), "permission denied".
    split; [right; left; reflexivity|]. split; vm_compute; reflexivity.
Defined.

(** X19.  Within the slots of its slice, and with files that can all be
    read, the loader does not skip a gap: when some version [i] at or below
    a version for which the directory has a file has no up-script in the
    directory (no [.up.sql] file, or an empty one), the loader returns the
    error "migration %d is missing up.sql file" for the least such
    version. *)
Theorem loader_rejects_a_missing_up_script (MIGRATIONS_DIR : string)
  (entries : list DirEntry) (i top : Z) :
  (forall entry version isUp,
      In entry entries -> migration_file entry = Some (version, isUp) ->
      0 <= version < slots entries /\
      exists content, ReadFile entry = inl content) ->
  has_file entries top -> 0 <= i <= top ->
  up_script_in entries i = "" ->
  exists j,
    0 <= j <= i /\
    up_script_in entries j = "" /\
    (forall j', 0 <= j' < j -> up_script_in entries j' <> "") /\
    loadMigrations MIGRATIONS_DIR (Listing entries)
    = Err (fmt_Errorf "migration %d is missing up.sql file" [Int j] None).
Proof.
  intros Hall (etop & dtop & Hetop & Hftop) Hi Hgap.
  set (ms0 := repeat Migration_zero (Z.to_nat (slots entries))).
  assert (Hlen0 : Z.of_nat (List.length ms0) = slots entries).
  { subst ms0. rewrite repeat_length. unfold slots.
    pose proof (Z.quot_pos (Z.of_nat (List.length entries)) 2). lia. }
  destruct (load_entries_runs MIGRATIONS_DIR entries ms0 (-1))
    as (ms & maxV & Hl).
  { intros entry version isUp He Hf. rewrite Hlen0.
    apply (Hall entry version isUp He Hf). }
  pose proof Hl as Hinv. apply load_entries_inv in Hinv.
  2:{ intros n mg Hn. left. apply nth_error_In in Hn.
      apply repeat_spec in Hn. exact Hn. }
  2:{ rewrite Hlen0. unfold slots.
      pose proof (Z.quot_pos (Z.of_nat (List.length entries)) 2). lia. }
  destruct Hinv as [_ Hm].
  pose proof Hl as Hc. apply load_entries_contents in Hc.
  destruct Hc as (Hlen & Hnamed & _ & _ & Hnth).
  destruct (Hnamed etop top dtop Hetop Hftop) as (_ & Htop & _).
  assert (Hslot : forall n mg, index ms n = Some mg ->
                               UpSQL mg = up_script_in entries n).
  { intros n mg Hn. apply index_Some in Hn. destruct Hn as [Hr Hn].
    destruct (Hnth _ _ Hn) as (mg0 & Hn0 & Hu & _).
    apply nth_error_In in Hn0. apply repeat_spec in Hn0. subst mg0.
    rewrite Z2Nat.id in Hu by lia. exact Hu. }
  destruct (validate_first_gap (Z.to_nat (maxV + 1)) ms maxV 0 i)
    as (j & Hj & (mgj & Hmgj & Huj) & Hleast & Hres'); try lia.
  { destruct (index_in_range ms i) as [mg Hmg]; [lia|].
    exists mg. split; [exact Hmg|]. rewrite (Hslot i mg Hmg). exact Hgap. }
  exists j. split; [lia|].
  assert (Hgj : up_script_in entries j = "").
  { rewrite <- (Hslot j mgj Hmgj). exact Huj. }
  split; [exact Hgj|]. split.
  { intros j' Hj'. destruct (index_in_range ms j') as [mg Hmg]; [lia|].
    rewrite <- (Hslot j' mg Hmg). apply (Hleast j' mg); [lia|exact Hmg]. }
  unfold loadMigrations. fold (slots entries). fold ms0. rewrite Hl.
  assert (Hneg : (maxV =? -1) = false) by (apply Z.eqb_neq; lia).
  rewrite Hneg, Hres'. reflexivity.
Qed.

Lemma loader_rejects_gap_witness :
  let entries :=
    [ Scenario.file "000000_init.up.sql" "CREATE TABLE m";
      Scenario.file "000001_a.down.sql" "DROP TABLE a";
      Scenario.file "000002_b.up.sql" "CREATE TABLE b" ] in
  exists j,
    0 <= j <= 1 /\
    up_script_in entries j = "" /\
    (forall j', 0 <= j' < j -> up_script_in entries j' <> "") /\
    loadMigrations "migrations" (Listing entries)
    = Err (fmt_Errorf "migration %d is missing up.sql file" [Int j] None).
Proof.
  intros entries.
  apply (loader_rejects_a_missing_up_script "migrations" entries 1 2).
  - change (slots entries) with 6.
    intros entry version isUp [<-|[<-|[<-|[]]]] Hf; vm_compute in Hf;
      inversion Hf; subst; (split; [lia|eexists; reflexivity]).
  - exists (Scenario.file "000002_b.up.sql" "CREATE TABLE b"), true.
    split; [right; right; left; reflexivity|vm_compute; reflexivity].
  - lia.
  - vm_compute. reflexivity.
Defined.

(** ** Construction *)

(** X20.  [NewMigrator] with a live context ends in one of four ways and
    never touches the database.  The connection fails: the error is
    "failed to connect to database" and the directory is not read.  The
    loader fails: the connection is closed before the error "failed to
    load migrations" is returned.  The loader panics: the panic passes
    through, the connection left open.  Otherwise the migrator holds the
    set the loader returned, which is well formed, and nothing is logged. *)
Theorem construction_connects_then_loads {Data : Type} (drv : Driver Data)
  (MIGRATIONS_DIR connectionString : string) (dir : directory)
  (w w' : World Data) (r : result Migrator) :
  ctx w <> Cancelled ->
  NewMigrator drv MIGRATIONS_DIR connectionString dir w = (r, w') ->
  db w' = db w /\
  match r with
  | Ok m =>
      Connect drv connectionString = None /\
      loadMigrations MIGRATIONS_DIR dir = Ok (migrations m) /\
      well_formed (migrations m) /\
      log w' = log w
  | Err e =>
      (exists err,
          Connect drv connectionString = Some err /\
          e = fmt_Errorf "failed to connect to database: %w" [] (Some err) /\
          log w' = log w) \/
      (exists e0,
          Connect drv connectionString = None /\
          loadMigrations MIGRATIONS_DIR dir = Err e0 /\
          e = fmt_Errorf "failed to load migrations: %w" [] (Some e0) /\
          log w' = log w ++ [ConnClose])
  | Panic msg =>
      Connect drv connectionString = None /\
      loadMigrations MIGRATIONS_DIR dir = Panic msg /\
      log w' = log w
  end.
Proof.
  intros Hc H. unfold NewMigrator in H. unfold bind at 1 in H.
  rewrite check_ctx_live in H by exact Hc.
  destruct (Connect drv connectionString) as [msg|] eqn:HC.
  - inversion H; subst. split; [reflexivity|]. left. exists msg. auto.
  - destruct (loadMigrations MIGRATIONS_DIR dir) as [ms|e0|msg] eqn:Hl.
    + inversion H; subst. split; [reflexivity|]. cbn [migrations log].
      split; [reflexivity|]. split; [reflexivity|].
      split; [|reflexivity].
      eapply loadMigrations_well_formed. exact Hl.
    + inversion H; subst. split; [reflexivity|]. right. exists e0. auto.
    + inversion H; subst. split; [reflexivity|]. auto.
Qed.

Lemma construction_witness :
  let w := Scenario.at_zero in
  let r := NewMigrator Scenario.driver "migrations" "postgres://db"
             (Listing [Scenario.file "000001_a.up.sql" "CREATE TABLE a"]) w in
  db (snd r) = db w /\
  ((exists err,
       Connect Scenario.driver "postgres://db" = Some err /\
       fmt_Errorf "failed to load migrations: %w" []
         (Some (fmt_Errorf "migration %d is missing up.sql file" [Int 0] None))
       = fmt_Errorf "failed to connect to database: %w" [] (Some err) /\
       log (snd r) = log w) \/
   (exists e0,
       Connect Scenario.driver "postgres://db" = None /\
       loadMigrations "migrations"
         (Listing [Scenario.file "000001_a.up.sql" "CREATE TABLE a"])
       = Err e0 /\
       fmt_Errorf "failed to load migrations: %w" []
         (Some (fmt_Errorf "migration %d is missing up.sql file" [Int 0] None))
       = fmt_Errorf "failed to load migrations: %w" [] (Some e0) /\
       log (snd r) = log w ++ [ConnClose])).
Proof.
  intros w r.
  apply (construction_connects_then_loads Scenario.driver "migrations"
           "postgres://db"
           (Listing [Scenario.file "000001_a.up.sql" "CREATE TABLE a"])
           w (snd r)
           (Err (fmt_Errorf "failed to load migrations: %w" []
                   (Some (fmt_Errorf "migration %d is missing up.sql file"
                            [Int 0] None))))).
  - discriminate.
  - vm_compute. reflexivity.
Defined.

(** ** The command-line tool *)

Lemma closes_app (a b : list event) :
  closes (a ++ b) = closes a + closes b.
Proof.
  induction a as [|e a IH]; [reflexivity|].
  destruct e; cbn [app closes]; rewrite IH; lia.
Qed.

Section Open.

Variable Data : Type.

Lemma keeps_open_ret (A : Type) (a : A) : keeps_open (@ret Data A a).
Proof. intros w. reflexivity. Qed.

Lemma keeps_open_fail (A : Type) (e : error) : keeps_open (@fail Data A e).
Proof. intros w. reflexivity. Qed.

Lemma keeps_open_panic (A : Type) (msg : string) :
  keeps_open (@panic Data A msg).
Proof. intros w. reflexivity. Qed.

Lemma keeps_open_bind (A B : Type) (m : M Data A) (k : A -> M Data B) :
  keeps_open m -> (forall a, keeps_open (k a)) -> keeps_open (bind m k).
Proof.
  intros Hm Hk w. unfold bind. specialize (Hm w).
  destruct (m w) as [[a|e|msg] w1]; cbn [snd] in *;
    [rewrite Hk|..]; exact Hm.
Qed.

Lemma keeps_open_wrapping (A : Type) (wrap : error -> error) (m : M Data A) :
  keeps_open m -> keeps_open (wrapping wrap m).
Proof.
  intros Hm w. unfold wrapping. specialize (Hm w).
  destruct (m w) as [[a|e|msg] w1]; exact Hm.
Qed.

Lemma keeps_open_defer (A : Type) (cleanup : M Data unit) (body : M Data A) :
  keeps_open cleanup -> keeps_open body -> keeps_open (defer cleanup body).
Proof.
  intros Hc Hb w. unfold defer. specialize (Hb w).
  destruct (body w) as [r w1]. specialize (Hc w1).
  destruct (cleanup w1) as [u w2]. cbn [snd] in *. lia.
Qed.

Lemma keeps_open_emit (e : event) :
  e <> ConnClose -> keeps_open (@emit Data e).
Proof.
  intros He w. unfold emit. cbn [snd log]. rewrite closes_app.
  destruct e; try reflexivity; try (cbn [closes]; lia). contradiction.
Qed.

Lemma keeps_open_check_ctx (wrap : error -> error) :
  keeps_open (@check_ctx Data wrap).
Proof.
  intros w. unfold check_ctx, bind, ctx_Err.
  destruct (ctx w) as [[|n]|]; reflexivity.
Qed.

Lemma keeps_open_get_db : keeps_open (@get_db Data).
Proof. intros w. reflexivity. Qed.

Lemma keeps_open_put_db (d : DB Data) : keeps_open (put_db d).
Proof. intros w. reflexivity. Qed.

Lemma keeps_open_at_index (ms : list Migration) (version : Z) :
  keeps_open (@at_index Data ms version).
Proof.
  unfold at_index. destruct (index ms version).
  - apply keeps_open_ret.
  - apply keeps_open_panic.
Qed.

End Open.

Ltac open_step :=
  match goal with
  | H : _ |- _ => apply H
  | |- keeps_open (ret _) => apply keeps_open_ret
  | |- keeps_open (fail _) => apply keeps_open_fail
  | |- keeps_open (panic _) => apply keeps_open_panic
  | |- keeps_open (check_ctx _) => apply keeps_open_check_ctx
  | |- keeps_open get_db => apply keeps_open_get_db
  | |- keeps_open (put_db _) => apply keeps_open_put_db
  | |- keeps_open (at_index _ _) => apply keeps_open_at_index
  | |- keeps_open (emit _) => apply keeps_open_emit; discriminate
  | |- keeps_open (wrapping _ _) => apply keeps_open_wrapping
  | |- keeps_open (defer _ _) => apply keeps_open_defer
  | |- keeps_open (bind _ _) => apply keeps_open_bind; [|intros ?]
  | |- keeps_open (match ?x with _ => _ end) => destruct x
  end.

Section EngineKeepsOpen.

Variable Data : Type.
Variable drv : Driver Data.

Lemma keeps_open_GetCurrentVersion : keeps_open (@GetCurrentVersion Data).
Proof. unfold GetCurrentVersion. repeat open_step. Qed.

Lemma keeps_open_exec_statements (version : Z) (statements : list string) :
  forall i tx, keeps_open (exec_statements drv version statements i tx).
Proof.
  induction statements as [|stmt rest IH]; intros i tx; cbn [exec_statements].
  - apply keeps_open_ret.
  - repeat open_step.
Qed.

Lemma keeps_open_record_version (version : Z) (up : bool) (tx : DB Data) :
  keeps_open (record_version version up tx).
Proof. unfold record_version. repeat open_step. Qed.

Lemma keeps_open_applyMigration (mg : Migration) (up : bool) (cv : Z) :
  keeps_open (applyMigration drv mg up cv).
Proof.
  pose proof keeps_open_exec_statements as He.
  pose proof keeps_open_record_version as Hr.
  unfold applyMigration. repeat open_step.
Qed.

Variable m : Migrator.

Lemma keeps_open_up_loop (fuel : nat) :
  forall version cv, keeps_open (up_loop drv m fuel version cv).
Proof.
  pose proof keeps_open_applyMigration as Ha.
  induction fuel as [|fuel IH]; intros version cv; cbn [up_loop];
    repeat open_step.
Qed.

Lemma keeps_open_steps_forward (fuel : nat) :
  forall steps i cv, keeps_open (steps_forward drv m fuel steps i cv).
Proof.
  pose proof keeps_open_applyMigration as Ha.
  induction fuel as [|fuel IH]; intros steps i cv; cbn [steps_forward];
    repeat open_step.
Qed.

Lemma keeps_open_steps_backward (fuel : nat) :
  forall rc i cv, keeps_open (steps_backward drv m fuel rc i cv).
Proof.
  pose proof keeps_open_applyMigration as Ha.
  induction fuel as [|fuel IH]; intros rc i cv; cbn [steps_backward];
    repeat open_step.
Qed.

Lemma keeps_open_Up : keeps_open (Up drv m).
Proof.
  pose proof keeps_open_GetCurrentVersion as Hg.
  pose proof keeps_open_up_loop as Hl.
  unfold Up. repeat open_step.
Qed.

Lemma keeps_open_Down : keeps_open (Down drv m).
Proof.
  pose proof keeps_open_GetCurrentVersion as Hg.
  pose proof keeps_open_applyMigration as Ha.
  unfold Down. repeat open_step.
Qed.

Lemma keeps_open_Steps (steps : Z) : keeps_open (Steps drv m steps).
Proof.
  pose proof keeps_open_GetCurrentVersion as Hg.
  pose proof keeps_open_steps_forward as Hf.
  pose proof keeps_open_steps_backward as Hb.
  unfold Steps. repeat open_step.
Qed.

End EngineKeepsOpen.

Section Tool.

Variable Data : Type.
Variable drv : Driver Data.
Variable MIGRATIONS_DIR : string.
Variable DATABASE_URL : string.

Lemma handleUp_eq (m : Migrator) (p : Process Data) :
  fst (handleUp drv m p) = ending_of (fst (Up drv m (world p))) /\
  world (snd (handleUp drv m p)) = snd (Up drv m (world p)).
Proof.
  unfold handleUp, call. cbn [say world].
  destruct (Up drv m (world p)) as [[[]|e|msg] w1]; split; reflexivity.
Qed.

Lemma handleDown_eq (m : Migrator) (p : Process Data) :
  fst (handleDown drv m p) = ending_of (fst (Down drv m (world p))) /\
  world (snd (handleDown drv m p)) = snd (Down drv m (world p)).
Proof.
  unfold handleDown, call. cbn [say world].
  destruct (Down drv m (world p)) as [[[]|e|msg] w1]; split; reflexivity.
Qed.

Lemma handleSteps_eq (m : Migrator) (number : string) (rest : list string)
  (steps : Z) (p : Process Data) :
  Strconv.Atoi number = Some steps ->
  fst (handleSteps drv m (number :: rest) p)
  = ending_of (fst (Steps drv m steps (world p))) /\
  world (snd (handleSteps drv m (number :: rest) p))
  = snd (Steps drv m steps (world p)).
Proof.
  intros Hn. unfold handleSteps, call. rewrite Hn.
  destruct (Steps drv m steps (world p)) as [[[]|e|msg] w1];
    split; reflexivity.
Qed.

Lemma handleVersion_eq (m : Migrator) (p : Process Data) :
  fst (handleVersion m p) = ending_of (fst (GetCurrentVersion (world p))) /\
  world (snd (handleVersion m p)) = snd (GetCurrentVersion (world p)).
Proof.
  unfold handleVersion, call. cbn [say world].
  destruct (GetCurrentVersion (world p)) as [[v|e|msg] w1];
    split; reflexivity.
Qed.

(** [dispatch] leaves the connection open, and exits with 1 if it exits. *)
Lemma dispatch_keeps_open (command : string) (rest : list string)
  (m : Migrator) (p : Process Data) :
  closes (log (world (snd (dispatch drv DATABASE_URL command rest m p))))
  = closes (log (world p)) /\
  forall code,
    fst (dispatch drv DATABASE_URL command rest m p) = Exits code -> code = 1.
Proof.
  unfold dispatch.
  destruct (String.eqb command "up").
  { destruct (handleUp_eq m p) as [Hf Hw]. rewrite Hf, Hw. split.
    - apply keeps_open_Up.
    - intros code. destruct (fst (Up drv m (world p))); cbn [ending_of];
        congruence. }
  destruct (String.eqb command "down").
  { destruct (handleDown_eq m p) as [Hf Hw]. rewrite Hf, Hw. split.
    - apply keeps_open_Down.
    - intros code. destruct (fst (Down drv m (world p))); cbn [ending_of];
        congruence. }
  destruct (String.eqb command "steps").
  { destruct rest as [|number rest].
    - cbn [handleSteps fst snd say world]. split; [reflexivity|congruence].
    - destruct (Strconv.Atoi number) as [steps|] eqn:Hn.
      + destruct (handleSteps_eq m number rest steps p Hn) as [Hf Hw].
        rewrite Hf, Hw. split.
        * apply keeps_open_Steps.
        * intros code.
          destruct (fst (Steps drv m steps (world p))); cbn [ending_of];
            congruence.
      + unfold handleSteps. rewrite Hn. cbn [fst snd LogError world].
        split; [reflexivity|congruence]. }
  destruct (String.eqb command "version" || String.eqb command "status").
  { destruct (handleVersion_eq m p) as [Hf Hw]. rewrite Hf, Hw. split.
    - apply keeps_open_GetCurrentVersion.
    - intros code.
      destruct (fst (GetCurrentVersion (world p))); cbn [ending_of];
        congruence. }
  cbn [fst snd printUsage say world]. split; [reflexivity|congruence].
Qed.

Lemma NewMigrator_background (connectionString : string) (dir : directory)
  (d : DB Data) (l : list event) :
  NewMigrator drv MIGRATIONS_DIR connectionString dir (mkWorld d Background l)
  = match Connect drv connectionString with
    | Some err =>
        (Err (fmt_Errorf "failed to connect to database: %w" [] (Some err)),
         mkWorld d Background l)
    | None =>
        match loadMigrations MIGRATIONS_DIR dir with
        | Panic msg => (Panic msg, mkWorld d Background l)
        | Err e =>
            (Err (fmt_Errorf "failed to load migrations: %w" [] (Some e)),
             mkWorld d Background (l ++ [ConnClose]))
        | Ok ms => (Ok (mkMigrator ms), mkWorld d Background l)
        end
    end.
Proof.
  unfold NewMigrator. unfold bind at 1.
  rewrite check_ctx_live by discriminate.
  destruct (Connect drv connectionString) as [msg|]; [reflexivity|].
  destruct (loadMigrations MIGRATIONS_DIR dir); reflexivity.
Qed.

(** [main] with a migrator: the command is handed to [dispatch], and the
    deferred [Close] runs unless the process exits. *)
Lemma main_runs_the_command (prog command : string) (rest : list string)
  (getenv : string -> string) (dir : directory) (ms : list Migration)
  (p : Process Data) :
  is_help command = false ->
  getenv DATABASE_URL <> "" ->
  Connect drv (getenv DATABASE_URL) = None ->
  loadMigrations MIGRATIONS_DIR dir = Ok ms ->
  main drv MIGRATIONS_DIR DATABASE_URL (prog :: command :: rest) getenv dir p
  = match dispatch drv DATABASE_URL command rest (mkMigrator ms)
            (connected p) with
    | (Exits code, p') => (Exits code, p')
    | (Returns, p') => (Returns, snd (call Close p'))
    | (Panics msg, p') => (Panics msg, snd (call Close p'))
    end.
Proof.
  intros Hh Hu HC Hl. unfold main. rewrite Hh.
  apply String.eqb_neq in Hu. rewrite Hu.
  unfold call at 1. cbn [say with_background world outputs Logger].
  rewrite NewMigrator_background, HC, Hl.
  unfold say, connected. cbn [world outputs Logger].
  rewrite <- !app_assoc. reflexivity.
Qed.

(** [main] without a migrator, for a command that does not ask for help:
    the database is not acted on, the process does not exit with 0, and
    nothing is said about the command line. *)
Lemma main_without_a_migrator (prog command : string) (rest : list string)
  (getenv : string -> string) (dir : directory) (p : Process Data) :
  is_help command = false ->
  getenv DATABASE_URL = "" \/ Connect drv (getenv DATABASE_URL) <> None \/
  (forall ms, loadMigrations MIGRATIONS_DIR dir <> Ok ms) ->
  let r := main drv MIGRATIONS_DIR DATABASE_URL (prog :: command :: rest)
             getenv dir p in
  db (world (snd r)) = db (world p) /\
  (log (world (snd r)) = log (world p) \/
   log (world (snd r)) = log (world p) ++ [ConnClose]) /\
  exit_status (fst r) <> 0 /\
  exists o, outputs (snd r) = outputs p ++ o /\
            forall x, In x o ->
                      match x with
                      | Fprintf_stderr _ _ => False
                      | Printf_stdout _ _ => False
                      | LogRecord msg _ => msg <> "Invalid number"
                      | _ => True
                      end.
Proof.
  intros Hh H r. subst r. unfold main. rewrite Hh.
  destruct (String.eqb (getenv DATABASE_URL) "") eqn:Hu.
  { cbn [fst snd LogError say with_background world db log exit_status
         outputs].
    split; [reflexivity|]. split; [left; reflexivity|].
    split; [discriminate|]. eexists. split.
    - rewrite <- !app_assoc. reflexivity.
    - cbn [app]. intros x [<-|[<-|[<-|[]]]]; try exact I. discriminate. }
  apply String.eqb_neq in Hu.
  unfold call. cbn [say with_background world outputs Logger].
  rewrite NewMigrator_background.
  destruct (Connect drv (getenv DATABASE_URL)) as [msg|] eqn:HC.
  { cbn [fst snd LogError say world db log exit_status outputs].
    split; [reflexivity|]. split; [left; reflexivity|].
    split; [discriminate|]. eexists. split.
    - rewrite <- !app_assoc. reflexivity.
    - cbn [app].
      intros x [<-|[<-|[<-|[<-|[<-|[]]]]]]; try exact I. discriminate. }
  destruct (loadMigrations MIGRATIONS_DIR dir) as [ms|e|msg] eqn:Hl.
  - exfalso. destruct H as [H|[H|H]].
    + contradiction.
    + apply H. reflexivity.
    + apply (H ms). reflexivity.
  - cbn [fst snd LogError say world db log exit_status outputs].
    split; [reflexivity|]. split; [right; reflexivity|].
    split; [discriminate|]. eexists. split.
    + rewrite <- !app_assoc. reflexivity.
    + cbn [app].
      intros x [<-|[<-|[<-|[<-|[<-|[]]]]]]; try exact I. discriminate.
  - cbn [fst snd LogError say world db log exit_status outputs].
    split; [reflexivity|]. split; [left; reflexivity|].
    split; [discriminate|]. eexists. split.
    + rewrite <- !app_assoc. reflexivity.
    + cbn [app]. intros x [<-|[<-|[<-|[<-|[]]]]]; exact I.
Qed.

(** Whether [main] gets a migrator. *)
Lemma migrator_or_not (getenv : string -> string) (dir : directory) :
  (getenv DATABASE_URL = "" \/ Connect drv (getenv DATABASE_URL) <> None \/
   (forall ms, loadMigrations MIGRATIONS_DIR dir <> Ok ms)) \/
  (getenv DATABASE_URL <> "" /\ Connect drv (getenv DATABASE_URL) = None /\
   exists ms, loadMigrations MIGRATIONS_DIR dir = Ok ms).
Proof.
  destruct (String.eqb (getenv DATABASE_URL) "") eqn:Hu.
  { apply String.eqb_eq in Hu. auto. }
  apply String.eqb_neq in Hu.
  destruct (Connect drv (getenv DATABASE_URL)) as [msg|].
  { left. right. left. discriminate. }
  destruct (loadMigrations MIGRATIONS_DIR dir) as [ms|e|msg].
  - right. split; [exact Hu|]. split; [reflexivity|]. exists ms. reflexivity.
  - left. right. right. discriminate.
  - left. right. right. discriminate.
Qed.

End Tool.

(** X21.  Without a command, with a command that asks for help, or with
    the environment variable of the connection string unset or empty, the
    tool ends without acting on the database: the database and the log of
    the connection's events are as they were.  It exits with 0 when help
    was asked for and with 1 otherwise. *)
Theorem tool_stops_before_connecting {Data : Type} (drv : Driver Data)
  (MIGRATIONS_DIR DATABASE_URL : string) (os_Args : list string)
  (getenv : string -> string) (dir : directory) (p : Process Data) :
  (List.length os_Args < 2)%nat \/ asks_for_help os_Args = true \/
  getenv DATABASE_URL = "" ->
  let r := main drv MIGRATIONS_DIR DATABASE_URL os_Args getenv dir p in
  db (world (snd r)) = db (world p) /\
  log (world (snd r)) = log (world p) /\
  fst r = Exits (if asks_for_help os_Args then 0 else 1).
Proof.
  intros H r. subst r.
  destruct os_Args as [|prog [|command rest]].
  - repeat split.
  - repeat split.
  - cbn [asks_for_help] in *. unfold main.
    destruct (is_help command) eqn:Hh; [repeat split|].
    destruct H as [H|[H|H]]; [cbn in H; lia|discriminate|].
    rewrite H. cbn [String.eqb]. repeat split.
Qed.

Lemma tool_stops_before_connecting_witness :
  let r := main Scenario.driver "migrations" "DATABASE_URL"
             ["migrate"; "--help"] (fun _ => "postgres://db")
             Scenario.four_versions
             (mkProcess Scenario.at_zero [] false) in
  db (world (snd r)) = db Scenario.at_zero /\
  log (world (snd r)) = [] /\
  fst r = Exits 0.
Proof.
  apply (tool_stops_before_connecting Scenario.driver "migrations"
           "DATABASE_URL" ["migrate"; "--help"] (fun _ => "postgres://db")
           Scenario.four_versions (mkProcess Scenario.at_zero [] false)).
  right. left. reflexivity.
Defined.

(** X22.  When the tool has connected and loaded the migrations, it closes
    the connection exactly when it does not exit with status 1: a command
    that returns, or panics, runs the deferred [Close], which is then the
    last event of the connection, while [os.Exit(1)], after a failure or
    for a command it does not know, leaves the process without closing
    it.  No operation of the package closes the connection itself. *)
Theorem connection_is_closed_unless_the_tool_exits_with_1 {Data : Type}
  (drv : Driver Data) (MIGRATIONS_DIR DATABASE_URL : string)
  (prog command : string) (rest : list string) (getenv : string -> string)
  (dir : directory) (ms : list Migration) (p : Process Data) :
  is_help command = false ->
  getenv DATABASE_URL <> "" ->
  Connect drv (getenv DATABASE_URL) = None ->
  loadMigrations MIGRATIONS_DIR dir = Ok ms ->
  let r := main drv MIGRATIONS_DIR DATABASE_URL (prog :: command :: rest)
             getenv dir p in
  closes (log (world (snd r)))
  = closes (log (world p)) + (if exit_status (fst r) =? 1 then 0 else 1) /\
  (exit_status (fst r) <> 1 ->
   exists l, log (world (snd r)) = l ++ [ConnClose]).
Proof.
  intros Hh Hu HC Hl r. subst r.
  rewrite (main_runs_the_command Data drv MIGRATIONS_DIR DATABASE_URL prog
             command rest getenv dir ms p Hh Hu HC Hl).
  destruct (dispatch_keeps_open Data drv DATABASE_URL command rest
              (mkMigrator ms) (connected p)) as [Hk He].
  destruct (dispatch drv DATABASE_URL command rest (mkMigrator ms)
              (connected p)) as [[|code|msg] p'];
    cbn [fst snd] in *.
  - unfold call, Close, emit. cbn [snd world log exit_status].
    change (0 =? 1) with false. cbv iota.
    rewrite closes_app, Hk. cbn [closes connected world log]. split; [lia|].
    intros _. eexists. reflexivity.
  - rewrite (He code eq_refl). cbn [exit_status].
    change (1 =? 1) with true. cbv iota.
    rewrite Hk. cbn [connected world log]. split; [lia|congruence].
  - unfold call, Close, emit. cbn [snd world log exit_status].
    change (2 =? 1) with false. cbv iota.
    rewrite closes_app, Hk. cbn [closes connected world log]. split; [lia|].
    intros _. eexists. reflexivity.
Qed.

Lemma connection_is_closed_witness :
  let r := main Scenario.driver "migrations" "DATABASE_URL"
             ["migrate"; "up"] (fun _ => "postgres://db")
             Scenario.four_versions
             (mkProcess Scenario.at_zero [] false) in
  closes (log (world (snd r)))
  = closes (log Scenario.at_zero)
    + (if exit_status (fst r) =? 1 then 0 else 1) /\
  (exit_status (fst r) <> 1 ->
   exists l, log (world (snd r)) = l ++ [ConnClose]).
Proof.
  apply (connection_is_closed_unless_the_tool_exits_with_1 Scenario.driver
           "migrations" "DATABASE_URL" "migrate" "up" []
           (fun _ => "postgres://db") Scenario.four_versions
           (migrations Scenario.four) (mkProcess Scenario.at_zero [] false)).
  - reflexivity.
  - discriminate.
  - reflexivity.
  - vm_compute. reflexivity.
Defined.

(** X23.  [migrate up] from end to end.  When the tool exits with 0 for
    the command [up], on a database whose current version is [v >= 0],
    then the directory held a migration set that the loader accepted, the
    current version of the database it leaves is the last version of that
    set (or [v], if [v] lies beyond it), the connection has been closed
    last, and the last line written announces the success.  The scripts
    applied are taken not to write the relation [migrations]. *)
Theorem migrate_up_reaches_the_last_version {Data : Type} (drv : Driver Data)
  (MIGRATIONS_DIR DATABASE_URL : string) (prog : string) (rest : list string)
  (getenv : string -> string) (dir : directory) (p : Process Data) (v : Z) :
  CurrentVersion (db (world p)) = Ok v ->
  0 <= v ->
  (forall ms i mg,
      loadMigrations MIGRATIONS_DIR dir = Ok ms ->
      v < i -> index ms i = Some mg -> keeps_tracking drv (UpSQL mg)) ->
  let r := main drv MIGRATIONS_DIR DATABASE_URL (prog :: "up" :: rest)
             getenv dir p in
  exit_status (fst r) = 0 ->
  exists ms,
    loadMigrations MIGRATIONS_DIR dir = Ok ms /\
    CurrentVersion (db (world (snd r)))
    = Ok (Z.max v (maxVersion (mkMigrator ms))) /\
    (exists l, log (world (snd r)) = l ++ [ConnClose]) /\
    exists o,
      outputs (snd r)
      = o ++ [Println "\n✓ All migrations applied successfully!"].
Proof.
  intros Hv H0 Hk r Hexit.
  destruct (migrator_or_not Data drv MIGRATIONS_DIR DATABASE_URL getenv dir)
    as [Hno|(Hu & HC & ms & Hl)].
  { destruct (main_without_a_migrator Data drv MIGRATIONS_DIR DATABASE_URL
                prog "up" rest getenv dir p eq_refl Hno) as (_ & _ & Hne & _).
    contradiction. }
  exists ms. split; [exact Hl|]. subst r.
  rewrite (main_runs_the_command Data drv MIGRATIONS_DIR DATABASE_URL prog
             "up" rest getenv dir ms p eq_refl Hu HC Hl) in *.
  change (dispatch drv DATABASE_URL "up" rest (mkMigrator ms) (connected p))
    with (handleUp drv (mkMigrator ms) (connected p)) in *.
  unfold handleUp, call in *. cbn [say world connected] in *.
  rewrite Up_eq in *. cbn [ctx db] in *.
  destruct (ctx_cancelled_dec Background) as [Hc|_]; [discriminate|].
  change (after_check Background) with Background in *.
  destruct (ctx_cancelled_dec Background) as [Hc|_]; [discriminate|].
  rewrite Hv in *.
  destruct (up_loop drv (mkMigrator ms) _ (v + 1) v _) as [[[]|e|msg] w']
    eqn:Hup; cbn [fst snd exit_status] in Hexit; try discriminate.
  apply loadMigrations_well_formed in Hl as Hwf. destruct Hwf as [_ Hwf].
  apply (up_loop_reaches Data drv (mkMigrator ms)) in Hup.
  - cbn [fst snd call Close emit world db log outputs say].
    unfold call, Close, emit. cbn [snd world db log outputs].
    split; [|split].
    + rewrite Hup. reflexivity.
    + eexists. reflexivity.
    + eexists. reflexivity.
  - intros i mg Hi. apply (Hwf i mg Hi).
  - reflexivity.
  - lia.
  - lia.
  - exact Hv.
  - intros i mg Hi Hidx. apply (Hk ms i mg Hl); [lia|exact Hidx].
Qed.

Lemma migrate_up_witness :
  let r := main Scenario.driver "migrations" "DATABASE_URL"
             ["migrate"; "up"] (fun _ => "postgres://db")
             Scenario.four_versions
             (mkProcess Scenario.at_zero [] false) in
  exists ms,
    loadMigrations "migrations" Scenario.four_versions = Ok ms /\
    CurrentVersion (db (world (snd r)))
    = Ok (Z.max 0 (maxVersion (mkMigrator ms))) /\
    (exists l, log (world (snd r)) = l ++ [ConnClose]) /\
    exists o,
      outputs (snd r)
      = o ++ [Println "\n✓ All migrations applied successfully!"].
Proof.
  apply (migrate_up_reaches_the_last_version Scenario.driver "migrations"
           "DATABASE_URL" "migrate" [] (fun _ => "postgres://db")
           Scenario.four_versions (mkProcess Scenario.at_zero [] false) 0).
  - vm_compute. reflexivity.
  - lia.
  - intros ms i mg _ _ _ stmt d d' _ He. unfold Scenario.driver in He.
    cbn [Exec] in He.
    destruct (Strings.HasPrefix stmt "FAIL");
      [discriminate | inversion He; reflexivity].
  - vm_compute. reflexivity.
Defined.

(** X24.  The commands [version] and [status] only read: whatever the
    environment, the directory and the database, the tool leaves the
    database as it was and adds to the log of the connection at most its
    closing.  When it exits with 0, the last thing it has written is the
    current version of the database. *)
Theorem version_command_only_reads {Data : Type} (drv : Driver Data)
  (MIGRATIONS_DIR DATABASE_URL : string) (prog command : string)
  (rest : list string) (getenv : string -> string) (dir : directory)
  (p : Process Data) :
  command = "version" \/ command = "status" ->
  let r := main drv MIGRATIONS_DIR DATABASE_URL (prog :: command :: rest)
             getenv dir p in
  db (world (snd r)) = db (world p) /\
  (log (world (snd r)) = log (world p) \/
   log (world (snd r)) = log (world p) ++ [ConnClose]) /\
  (exit_status (fst r) = 0 ->
   exists v o,
     CurrentVersion (db (world p)) = Ok v /\
     outputs (snd r)
     = o ++ [Printf_stdout "✓ Current migration version: %d\n" [Int v]]).
Proof.
  intros Hcmd r.
  assert (Hh : is_help command = false)
    by (destruct Hcmd as [->| ->]; reflexivity).
  destruct (migrator_or_not Data drv MIGRATIONS_DIR DATABASE_URL getenv dir)
    as [Hno|(Hu & HC & ms & Hl)].
  { destruct (main_without_a_migrator Data drv MIGRATIONS_DIR DATABASE_URL
                prog command rest getenv dir p Hh Hno)
      as (Hdb & Hlog & Hne & _).
    fold r in Hdb, Hlog, Hne. split; [exact Hdb|]. split; [exact Hlog|].
    intros H0. contradiction. }
  subst r.
  rewrite (main_runs_the_command Data drv MIGRATIONS_DIR DATABASE_URL prog
             command rest getenv dir ms p Hh Hu HC Hl).
  assert (Hd : dispatch drv DATABASE_URL command rest (mkMigrator ms)
                 (connected p)
               = handleVersion (mkMigrator ms) (connected p))
    by (destruct Hcmd as [->| ->]; reflexivity).
  rewrite Hd. unfold handleVersion, call. cbn [say world connected].
  rewrite GetCurrentVersion_live by discriminate.
  cbn [db checked ctx log].
  destruct (CurrentVersion (db (world p))) as [v|e|msg];
    cbn [fst snd LogError say world db log exit_status outputs];
    unfold call, Close, emit; cbn [snd world db log outputs].
  - split; [reflexivity|]. split; [right; reflexivity|].
    intros _. exists v. eexists. split; reflexivity.
  - split; [reflexivity|]. split; [left; reflexivity|]. discriminate.
  - split; [reflexivity|]. split; [right; reflexivity|]. discriminate.
Qed.

Lemma version_command_witness :
  let r := main Scenario.driver "migrations" "DATABASE_URL"
             ["migrate"; "status"] (fun _ => "postgres://db")
             Scenario.four_versions
             (mkProcess (Scenario.at_version [0; 1; 2] Background) [] false)
  in
  db (world (snd r)) = db (Scenario.at_version [0; 1; 2] Background) /\
  (log (world (snd r)) = [] \/ log (world (snd r)) = [] ++ [ConnClose]) /\
  (exit_status (fst r) = 0 ->
   exists v o,
     CurrentVersion (db (Scenario.at_version [0; 1; 2] Background)) = Ok v /\
     outputs (snd r)
     = o ++ [Printf_stdout "✓ Current migration version: %d\n" [Int v]]).
Proof.
  apply (version_command_only_reads Scenario.driver "migrations"
           "DATABASE_URL" "migrate" "status" [] (fun _ => "postgres://db")
           Scenario.four_versions
           (mkProcess (Scenario.at_version [0; 1; 2] Background) [] false)).
  right. reflexivity.
Defined.

(** X25.  A command line that names no operation changes nothing: for a
    command the tool does not know, and for [steps] without a number after
    it, the database is left as it was, the log of the connection gains at
    most its closing, and the exit status is not 0.  The tool complains
    about such a command line only after it has connected to the database
    and loaded the migrations: without the connection string, a
    connection or a loadable directory, that failure is what it
    reports. *)
Theorem command_line_without_an_operation_changes_nothing {Data : Type}
  (drv : Driver Data) (MIGRATIONS_DIR DATABASE_URL : string)
  (prog command : string) (rest : list string) (getenv : string -> string)
  (dir : directory) (p : Process Data) :
  is_help command = false ->
  names_no_operation command rest ->
  let r := main drv MIGRATIONS_DIR DATABASE_URL (prog :: command :: rest)
             getenv dir p in
  db (world (snd r)) = db (world p) /\
  (log (world (snd r)) = log (world p) \/
   log (world (snd r)) = log (world p) ++ [ConnClose]) /\
  exit_status (fst r) <> 0 /\
  exists o,
    outputs (snd r) = outputs p ++ o /\
    forall x, In x o ->
      match x with
      | Fprintf_stderr _ _ | LogRecord "Invalid number" _ =>
          getenv DATABASE_URL <> "" /\
          Connect drv (getenv DATABASE_URL) = None /\
          exists ms, loadMigrations MIGRATIONS_DIR dir = Ok ms
      | _ => True
      end.
Proof.
  intros Hh Hn r.
  destruct (migrator_or_not Data drv MIGRATIONS_DIR DATABASE_URL getenv dir)
    as [Hno|(Hu & HC & ms & Hl)].
  { destruct (main_without_a_migrator Data drv MIGRATIONS_DIR DATABASE_URL
                prog command rest getenv dir p Hh Hno)
      as (Hdb & Hlog & Hne & o & Ho & Hsilent).
    fold r in Hdb, Hlog, Hne, Ho.
    split; [exact Hdb|]. split; [exact Hlog|]. split; [exact Hne|].
    exists o. split; [exact Ho|]. intros x Hx. specialize (Hsilent x Hx).
    destruct x as [t|t|f a|f a|msg e]; try exact I; try contradiction.
    destruct (string_dec msg "Invalid number") as [->|Hm]; [contradiction|].
    revert Hm. clear. intros Hm.
    repeat (match goal with
            | |- match ?s with EmptyString => _ | String _ _ => _ end =>
                destruct s; try exact I
            | |- match ?a with Ascii _ _ _ _ _ _ _ _ => _ end =>
                destruct a
            | |- (if ?b then _ else _) => destruct b; try exact I
            end).
    exfalso. apply Hm. reflexivity. }
  assert (Hok : getenv DATABASE_URL <> "" /\
                Connect drv (getenv DATABASE_URL) = None /\
                exists ms, loadMigrations MIGRATIONS_DIR dir = Ok ms)
    by (split; [exact Hu|]; split; [exact HC|]; exists ms; exact Hl).
  subst r.
  rewrite (main_runs_the_command Data drv MIGRATIONS_DIR DATABASE_URL prog
             command rest getenv dir ms p Hh Hu HC Hl).
  destruct Hn as [(H1 & H2 & H3 & H4 & H5)|[-> Hrest]].
  - unfold dispatch.
    apply String.eqb_neq in H1, H2, H3, H4, H5.
    rewrite H1, H2, H3, H4, H5.
    cbn [orb fst snd printUsage say world connected db log exit_status
         outputs].
    split; [reflexivity|]. split; [left; reflexivity|].
    split; [discriminate|]. eexists. split.
    + rewrite <- !app_assoc. reflexivity.
    + cbn [app].
      intros x [<-|[<-|[<-|[<-|[<-|[<-|[<-|[]]]]]]]]; try exact I.
      exact Hok.
  - change (dispatch drv DATABASE_URL "steps" rest (mkMigrator ms)
              (connected p))
      with (handleSteps drv (mkMigrator ms) rest (connected p)).
    unfold handleSteps. destruct rest as [|number rest].
    + cbn [fst snd say world connected db log exit_status outputs].
      split; [reflexivity|]. split; [left; reflexivity|].
      split; [discriminate|]. eexists. split.
      * rewrite <- !app_assoc. reflexivity.
      * cbn [app].
        intros x [<-|[<-|[<-|[<-|[<-|[<-|[]]]]]]]; try exact I. exact Hok.
    + rewrite Hrest.
      cbn [fst snd LogError world connected db log exit_status outputs].
      split; [reflexivity|]. split; [left; reflexivity|].
      split; [discriminate|]. eexists. split.
      * rewrite <- !app_assoc. reflexivity.
      * cbn [app].
        intros x [<-|[<-|[<-|[<-|[<-|[<-|[]]]]]]]; try exact I. exact Hok.
Qed.

Lemma command_line_without_an_operation_witness :
  let p := mkProcess (Scenario.at_version [0; 1] Background) [] false in
  let r := main Scenario.driver "migrations" "DATABASE_URL"
             ["migrate"; "steps"; "two"] (fun _ => "postgres://db")
             Scenario.four_versions p in
  db (world (snd r)) = db (world p) /\
  (log (world (snd r)) = log (world p) \/
   log (world (snd r)) = log (world p) ++ [ConnClose]) /\
  exit_status (fst r) <> 0 /\
  exists o,
    outputs (snd r) = outputs p ++ o /\
    forall x, In x o ->
      match x with
      | Fprintf_stderr _ _ | LogRecord "Invalid number" _ =>
          "postgres://db" <> "" /\
          Connect Scenario.driver "postgres://db" = None /\
          exists ms, loadMigrations "migrations" Scenario.four_versions
                     = Ok ms
      | _ => True
      end.
Proof.
  intros p.
  apply (command_line_without_an_operation_changes_nothing Scenario.driver
           "migrations" "DATABASE_URL" "migrate" "steps" ["two"]
           (fun _ => "postgres://db") Scenario.four_versions p).
  - reflexivity.
  - right. split; reflexivity.
Defined.

(** ** [down] and [steps -1] *)

(** What [applyMigration] returns and what it does to the database, to the
    context and to the log does not depend on the log it finds. *)
Lemma applyMigration_ignores_the_log {Data : Type} (drv : Driver Data)
  (mg : Migration) (up : bool) (cv cv' : Z) (w1 w2 : World Data) :
  db w1 = db w2 -> ctx w1 = ctx w2 ->
  fst (applyMigration drv mg up cv w1) = fst (applyMigration drv mg up cv' w2)
  /\ db (snd (applyMigration drv mg up cv w1))
     = db (snd (applyMigration drv mg up cv' w2))
  /\ exists l,
       log (snd (applyMigration drv mg up cv w1)) = log w1 ++ l /\
       log (snd (applyMigration drv mg up cv' w2)) = log w2 ++ l.
Proof.
  intros Hd Hc.
  destruct (ctx_cancelled_dec (ctx w1)) as [H|H].
  { rewrite !applyMigration_cancelled by congruence. cbn [fst snd db log].
    split; [reflexivity|]. split; [exact Hd|]. eexists. split; reflexivity. }
  destruct (String.eqb
              (Strings.TrimSpace (if up then UpSQL mg else DownSQL mg)) "")
    eqn:Hb.
  { apply String.eqb_eq in Hb.
    rewrite !applyMigration_blank by (try exact Hb; congruence).
    cbn [fst snd db log].
    split; [reflexivity|]. split; [exact Hd|]. eexists. split; reflexivity. }
  apply String.eqb_neq in Hb.
  destruct (Begin drv (db w1)) as [msg|] eqn:HB.
  { rewrite (applyMigration_begin_fails drv mg up cv w1 msg H Hb HB).
    rewrite (applyMigration_begin_fails drv mg up cv' w2 msg)
      by (try exact Hb; congruence).
    cbn [fst snd db log].
    split; [reflexivity|]. split; [exact Hd|]. eexists. split; reflexivity. }
  rewrite (applyMigration_transaction drv mg up cv w1 H Hb HB).
  rewrite (applyMigration_transaction drv mg up cv' w2)
    by (try exact Hb; congruence).
  cbn [fst snd db log]. rewrite <- Hd.
  split; [reflexivity|]. split; [reflexivity|]. eexists. split; reflexivity.
Qed.

(** [Down] and [Steps(-1)] with a context that is never cancelled. *)
Lemma Down_and_one_step_back {Data : Type} (drv : Driver Data) (m : Migrator)
  (w : World Data) :
  ctx w = Background ->
  ending_of (fst (Down drv m w)) = ending_of (fst (Steps drv m (-1) w)) /\
  db (snd (Down drv m w)) = db (snd (Steps drv m (-1) w)) /\
  exists l1 l2,
    log (snd (Down drv m w)) = log w ++ l1 /\
    log (snd (Steps drv m (-1) w)) = log w ++ l2 /\
    applied l1 = applied l2 /\ commits l1 = commits l2.
Proof.
  intros Hc.
  assert (Hw : checked w = w).
  { destruct w as [d0 c0 l0]. cbn in Hc. subst c0. reflexivity. }
  change (Steps drv m (-1) w) with (Steps drv m (Z.opp 1) w).
  rewrite (Steps_backward_eq Data drv m 1 w)
    by (unfold GoInt.max_int; lia).
  unfold Down. rewrite prologue.
  destruct (ctx_cancelled_dec (ctx w)) as [H|_];
    [rewrite Hc in H; discriminate|].
  destruct (ctx_cancelled_dec (after_check (ctx w))) as [H|_];
    [rewrite Hc in H; discriminate|].
  rewrite !Hw.
  destruct (CurrentVersion (db w)) as [c|e|msg].
  2:{ cbn [fst snd ending_of]. split; [reflexivity|]. split; [reflexivity|].
      exists [], []. rewrite app_nil_r. auto. }
  2:{ cbn [fst snd ending_of]. split; [reflexivity|]. split; [reflexivity|].
      exists [], []. rewrite app_nil_r. auto. }
  change (Z.to_nat 1) with 1%nat.
  destruct (Z.eq_dec c 0) as [->|Hc0].
  { rewrite steps_backward_at_zero by lia. cbn [Z.eqb fst snd ending_of].
    split; [reflexivity|]. split; [reflexivity|].
    exists [], []. rewrite app_nil_r. auto. }
  rewrite steps_backward_step by lia.
  destruct (ctx_cancelled_dec (ctx w)) as [H|_];
    [rewrite Hc in H; discriminate|].
  rewrite Hw.
  apply Z.eqb_neq in Hc0. rewrite Hc0.
  destruct (find_migration m c) as [mg|].
  2:{ cbn [fst snd ending_of]. split; [reflexivity|]. split; [reflexivity|].
      exists [], []. rewrite app_nil_r. auto. }
  destruct (String.eqb (Strings.TrimSpace (DownSQL mg)) "").
  { cbn [fst snd ending_of]. split; [reflexivity|]. split; [reflexivity|].
    exists [], []. rewrite app_nil_r. auto. }
  unfold bind, emit. cbn [db ctx log].
  set (w0 := mkWorld (db w) (ctx w)
               (log w ++ [Printf "Rolling back migration %d...\n" [Int c]])).
  destruct (applyMigration_ignores_the_log drv mg false c c w0 w
              eq_refl eq_refl) as (Hf & Hdb & l & Hl0 & Hl).
  destruct (applyMigration drv mg false c w0) as [r0 w0'].
  destruct (applyMigration drv mg false c w) as [r1 w1].
  cbn [fst snd] in Hf, Hdb, Hl0, Hl. subst r1.
  destruct r0 as [[]|e|msg].
  - rewrite steps_backward_done by lia. unfold emit.
    cbn [fst snd ending_of db log]. split; [reflexivity|].
    split; [exact Hdb|].
    exists ([Printf "Rolling back migration %d...\n" [Int c]] ++ l ++
            [Printf "Migration %d rolled back successfully\n" [Int c]]), l.
    rewrite Hl0, Hl. unfold w0. cbn [log].
    split; [rewrite <- !app_assoc; reflexivity|]. split; [reflexivity|].
    rewrite !applied_app, !commits_app. cbn [applied commits app].
    rewrite app_nil_r. split; [reflexivity|lia].
  - cbn [fst snd ending_of]. split; [reflexivity|]. split; [exact Hdb|].
    exists ([Printf "Rolling back migration %d...\n" [Int c]] ++ l), l.
    rewrite Hl0, Hl. unfold w0. cbn [log].
    split; [rewrite <- !app_assoc; reflexivity|]. split; [reflexivity|].
    rewrite !applied_app, !commits_app. cbn [applied commits app].
    split; [reflexivity|lia].
  - cbn [fst snd ending_of]. split; [reflexivity|]. split; [exact Hdb|].
    exists ([Printf "Rolling back migration %d...\n" [Int c]] ++ l), l.
    rewrite Hl0, Hl. unfold w0. cbn [log].
    split; [rewrite <- !app_assoc; reflexivity|]. split; [reflexivity|].
    rewrite !applied_app, !commits_app. cbn [applied commits app].
    split; [reflexivity|lia].
Qed.

(** Before it has a migrator, [main] does not look at the command beyond
    asking whether it is a call for help. *)
Lemma main_without_a_migrator_any_command {Data : Type} (drv : Driver Data)
  (MIGRATIONS_DIR DATABASE_URL : string) (prog c1 c2 : string)
  (rest1 rest2 : list string) (getenv : string -> string) (dir : directory)
  (p : Process Data) :
  is_help c1 = false -> is_help c2 = false ->
  getenv DATABASE_URL = "" \/ Connect drv (getenv DATABASE_URL) <> None \/
  (forall ms, loadMigrations MIGRATIONS_DIR dir <> Ok ms) ->
  main drv MIGRATIONS_DIR DATABASE_URL (prog :: c1 :: rest1) getenv dir p
  = main drv MIGRATIONS_DIR DATABASE_URL (prog :: c2 :: rest2) getenv dir p.
Proof.
  intros H1 H2 Hno. unfold main. rewrite H1, H2.
  destruct (String.eqb (getenv DATABASE_URL) "") eqn:Hu; [reflexivity|].
  apply String.eqb_neq in Hu.
  unfold call. cbn [say with_background world outputs Logger].
  rewrite !NewMigrator_background.
  destruct (Connect drv (getenv DATABASE_URL)) as [msg|]; [reflexivity|].
  destruct (loadMigrations MIGRATIONS_DIR dir) as [ms|e|msg];
    try reflexivity.
  exfalso. destruct Hno as [H|[H|H]].
  - contradiction.
  - apply H. reflexivity.
  - apply (H ms). reflexivity.
Qed.

(** X26.  [migrate down] and [migrate steps -1] do the same to the
    database: whatever the environment, the directory and the database,
    the two command lines end with the same exit status and leave the same
    database, after the same calls of [applyMigration], the same number of
    commits and the same number of closings of the connection.  They
    differ in what they print and in the wording of the error. *)
Theorem down_is_one_step_back {Data : Type} (drv : Driver Data)
  (MIGRATIONS_DIR DATABASE_URL : string) (prog : string)
  (rest rest' : list string) (getenv : string -> string) (dir : directory)
  (p : Process Data) :
  let r1 := main drv MIGRATIONS_DIR DATABASE_URL (prog :: "down" :: rest)
              getenv dir p in
  let r2 := main drv MIGRATIONS_DIR DATABASE_URL
              (prog :: "steps" :: "-1" :: rest') getenv dir p in
  exit_status (fst r1) = exit_status (fst r2) /\
  db (world (snd r1)) = db (world (snd r2)) /\
  exists l1 l2,
    log (world (snd r1)) = log (world p) ++ l1 /\
    log (world (snd r2)) = log (world p) ++ l2 /\
    applied l1 = applied l2 /\ commits l1 = commits l2 /\
    closes l1 = closes l2.
Proof.
  intros r1 r2.
  destruct (migrator_or_not Data drv MIGRATIONS_DIR DATABASE_URL getenv dir)
    as [Hno|(Hu & HC & ms & Hl)].
  { assert (He : r1 = r2)
      by (apply main_without_a_migrator_any_command;
          [reflexivity|reflexivity|exact Hno]).
    destruct (main_without_a_migrator Data drv MIGRATIONS_DIR DATABASE_URL
                prog "down" rest getenv dir p eq_refl Hno)
      as (_ & Hlog & _).
    fold r1 in Hlog. rewrite <- He.
    split; [reflexivity|]. split; [reflexivity|].
    destruct Hlog as [Hlog|Hlog].
    - exists [], []. rewrite app_nil_r. auto.
    - exists [ConnClose], [ConnClose]. auto. }
  subst r1 r2.
  rewrite (main_runs_the_command Data drv MIGRATIONS_DIR DATABASE_URL prog
             "down" rest getenv dir ms p eq_refl Hu HC Hl).
  rewrite (main_runs_the_command Data drv MIGRATIONS_DIR DATABASE_URL prog
             "steps" ("-1" :: rest') getenv dir ms p eq_refl Hu HC Hl).
  change (dispatch drv DATABASE_URL "down" rest (mkMigrator ms)
            (connected p))
    with (handleDown drv (mkMigrator ms) (connected p)).
  change (dispatch drv DATABASE_URL "steps" ("-1" :: rest') (mkMigrator ms)
            (connected p))
    with (handleSteps drv (mkMigrator ms) ("-1" :: rest') (connected p)).
  destruct (handleDown_eq Data drv (mkMigrator ms) (connected p))
    as [Hf1 Hw1].
  destruct (handleSteps_eq Data drv (mkMigrator ms) "-1" rest' (-1)
              (connected p) eq_refl) as [Hf2 Hw2].
  destruct (Down_and_one_step_back drv (mkMigrator ms) (world (connected p))
              eq_refl) as (He & Hdb & l1 & l2 & Hl1 & Hl2 & Ha & Hco).
  rewrite <- Hf1, <- Hf2 in He. rewrite <- Hw1, <- Hw2 in Hdb.
  rewrite <- Hw1 in Hl1. rewrite <- Hw2 in Hl2.
  assert (Hcl1 : closes l1 = 0).
  { pose proof (keeps_open_Down Data drv (mkMigrator ms)
                  (world (connected p))) as Hk.
    rewrite <- Hw1, Hl1, closes_app in Hk. lia. }
  assert (Hcl2 : closes l2 = 0).
  { pose proof (keeps_open_Steps Data drv (mkMigrator ms) (-1)
                  (world (connected p))) as Hk.
    rewrite <- Hw2, Hl2, closes_app in Hk. lia. }
  clear Hf1 Hf2 Hw1 Hw2.
  destruct (handleDown drv (mkMigrator ms) (connected p)) as [e1 p1].
  destruct (handleSteps drv (mkMigrator ms) ("-1" :: rest') (connected p))
    as [e2 p2].
  cbn [fst snd connected world log] in *. subst e2.
  destruct e1 as [|code|msg]; unfold call, Close, emit;
    cbn [fst snd world db log].
  - split; [reflexivity|]. split; [exact Hdb|].
    exists (l1 ++ [ConnClose]), (l2 ++ [ConnClose]).
    rewrite Hl1, Hl2, <- !app_assoc, !applied_app, !commits_app, !closes_app.
    repeat split; congruence.
  - split; [reflexivity|]. split; [exact Hdb|].
    exists l1, l2. repeat split; congruence.
  - split; [reflexivity|]. split; [exact Hdb|].
    exists (l1 ++ [ConnClose]), (l2 ++ [ConnClose]).
    rewrite Hl1, Hl2, <- !app_assoc, !applied_app, !commits_app, !closes_app.
    repeat split; congruence.
Qed.
